(** * Dreamer: opponent acquisition and battle orchestration

    A shallow embedding of the arena automation core of the Dreamer
    repository:

    - [src/text_recognition.py]            -> [Module TextRecognizer]
    - [src/template_matcher.py]            -> [Module TemplateMatcher]
    - [src/sequences/opponent_scanner.py]  -> [Module OpponentScanner]
    - [src/sequences/battle_sequence.py]   -> [Module BattleSequence]
    - [src/config.py]                      -> [Module Config]

    Python integers are [Z], Python floats are the kernel's binary64
    floats, Python sets of powers are [gset Z], dictionaries with a fixed
    set of keys are records.  The screen, Tesseract and OpenCV's template
    search are outside the repository: what they return is read from
    oracles stored in the [World], and everything the program does to the
    outside (mouse gestures, key presses, log lines, sleeps) is recorded
    there.  The debug overlay (every call is wrapped in [try/except: pass])
    is presentation only and is left out. *)

From Stdlib Require Import ZArith List Lia Bool Ascii String Floats.
From Stdlib Require Import Sorting.Sorted Sorting.Permutation.
From stdpp Require Import base decidable option list gmap sets sorting strings.

Set Warnings "-inexact-float".
Local Open Scope Z_scope.

(** ** Python and numpy primitives the sources rely on *)

Module Py.

(** [float(n)] for the integers that occur as array dimensions and
    pixel counts (below 2^53 in absolute value the conversion is exact). *)
Definition float_of_Z (n : Z) : float :=
  if n <? 0 then PrimFloat.opp (PrimFloat.of_uint63 (Uint63.of_Z (- n)))
  else PrimFloat.of_uint63 (Uint63.of_Z n).

(** [int(f)]: truncation towards zero of a finite float. *)
Definition int_of_float (f : float) : Z :=
  match Prim2SF f with
  | S754_finite s m e =>
      let v := if 0 <=? e then Z.shiftl (Z.pos m) e
               else Z.shiftr (Z.pos m) (- e) in
      if s then - v else v
  | _ => 0
  end.

(** [int(n * c)] for an integer [n] and a float constant [c]. *)
Definition int_mul (n : Z) (c : float) : Z :=
  int_of_float (PrimFloat.mul (float_of_Z n) c).

(** Normalisation of one bound of a slice [a[start:stop]] over a
    dimension of length [n]: a negative bound counts from the end. *)
Definition slice_index (n i : Z) : Z :=
  if i <? 0 then Z.max 0 (i + n) else Z.min i n.

(** Number of elements of [a[start:stop]]. *)
Definition slice_len (n start stop : Z) : Z :=
  Z.max 0 (slice_index n stop - slice_index n start).

(** [sorted(l, key=key, reverse=reverse)]: a stable sort; with
    [reverse=True] the order is descending and elements with equal keys
    still keep their original order. *)
Definition before (reverse : bool) (k1 k2 : Z) : bool :=
  if reverse then k2 <=? k1 else k1 <=? k2.

Fixpoint insert_by {A} (key : A → Z) (reverse : bool) (x : A) (l : list A)
  : list A :=
  match l with
  | [] => [x]
  | y :: l' =>
      if before reverse (key x) (key y) then x :: y :: l'
      else y :: insert_by key reverse x l'
  end.

Definition sorted {A} (key : A → Z) (reverse : bool) (l : list A) : list A :=
  foldr (insert_by key reverse) [] l.

(** Python strings, over the 8-bit characters of [ascii]. *)
Definition str := string.

Definition is_digit (c : ascii) : bool :=
  let n := N_of_ascii c in ((48 <=? n) && (n <=? 57))%N.

(** [str.isspace] on one character of the ASCII range. *)
Definition is_space (c : ascii) : bool :=
  let n := N_of_ascii c in
  (((9 <=? n) && (n <=? 13)) || ((28 <=? n) && (n <=? 32)))%N.

Definition lower (c : ascii) : ascii :=
  let n := N_of_ascii c in
  if ((65 <=? n) && (n <=? 90))%N then ascii_of_N (n + 32) else c.

(** [s.replace(c, '')]. *)
Fixpoint remove_char (c : ascii) (s : str) : str :=
  match s with
  | EmptyString => EmptyString
  | String x s' =>
      if Ascii.eqb x c then remove_char c s'
      else String x (remove_char c s')
  end.

Fixpoint starts_with (p s : str) : bool :=
  match p, s with
  | EmptyString, _ => true
  | String _ _, EmptyString => false
  | String a p', String b s' => Ascii.eqb a b && starts_with p' s'
  end.

(** [p in s]. *)
Fixpoint contains (p s : str) : bool :=
  starts_with p s ||
  match s with
  | EmptyString => false
  | String _ s' => contains p s'
  end.

Fixpoint lstrip (s : list ascii) : list ascii :=
  match s with
  | c :: s' => if is_space c then lstrip s' else s
  | [] => []
  end.

(** [s.strip()]. *)
Definition strip (s : str) : str :=
  string_of_list_ascii
    (rev (lstrip (rev (lstrip (list_ascii_of_string s))))).

Definition digit_value (c : ascii) : Z := Z.of_N (N_of_ascii c) - 48.

(** [int(s)] on the strings the parser passes to it: surrounding white
    space is ignored, a non-empty run of decimal digits is its value,
    anything else raises [ValueError] ([None]). *)
Definition int (s : str) : option Z :=
  let t := list_ascii_of_string (strip s) in
  match t with
  | [] => None
  | _ => if forallb is_digit t
         then Some (fold_left (λ acc c, 10 * acc + digit_value c) t 0)
         else None
  end.

End Py.

(** ** Regular expressions, as [re] runs them

    A backtracking matcher for the fragment the parser's patterns use:
    character classes, concatenation, greedy [?], greedy [*] over a class,
    and one capturing group. *)

Module Re.
Import Py.

Inductive regex : Type :=
| Eps
| Class (p : ascii → bool)
| Seq (r1 r2 : regex)
| Opt (r : regex)
| Star (p : ascii → bool)
| Group (r : regex).

(** [p+] *)
Definition Plus (p : ascii → bool) : regex := Seq (Class p) (Star p).

(** A literal letter under [re.IGNORECASE]. *)
Definition ci (c : ascii) : ascii → bool := λ x, Ascii.eqb (lower x) c.

(** The text consumed between the input [s] and its suffix [s']. *)
Definition consumed (s s' : str) : str :=
  substring 0 (String.length s - String.length s') s.

Section Run.
Context {R : Type}.

Fixpoint star (p : ascii → bool) (s : str) (k : str → option R)
  : option R :=
  match s with
  | String c s' =>
      if p c then
        match star p s' k with
        | Some r => Some r
        | None => k s
        end
      else k s
  | EmptyString => k EmptyString
  end.

(** [run r s g k]: match [r] at the head of [s]; [g] is the text of the
    capturing group so far, [k] is what has to match afterwards. *)
Fixpoint run (r : regex) (s : str) (g : option str)
    (k : str → option str → option R) : option R :=
  match r with
  | Eps => k s g
  | Class p =>
      match s with
      | String c s' => if p c then k s' g else None
      | EmptyString => None
      end
  | Seq r1 r2 => run r1 s g (λ s' g', run r2 s' g' k)
  | Opt r1 =>
      match run r1 s g k with
      | Some x => Some x
      | None => k s g
      end
  | Star p => star p s (λ s', k s' g)
  | Group r1 => run r1 s g (λ s' _, k s' (Some (consumed s s')))
  end.
End Run.

(** A match object: [group(0)] and [group(1)]. *)
Record Match := { group0 : str; group1 : str }.

(** The match starting exactly at the head of [s], with the rest of the
    input after it. *)
Definition match_here (r : regex) (s : str) : option (Match * str) :=
  run r s None
    (λ s' g, Some ({| group0 := consumed s s';
                      group1 := default EmptyString g |}, s')).

(** [re.finditer]: leftmost matches, scanning resumes where the previous
    match ended (one character further after an empty match). *)
Fixpoint finditer_from (fuel : nat) (r : regex) (s : str) : list Match :=
  match fuel with
  | O => []
  | S fuel' =>
      match match_here r s with
      | Some (m, rest) =>
          m :: match group0 m, s with
               | EmptyString, EmptyString => []
               | EmptyString, String _ s' => finditer_from fuel' r s'
               | String _ _, _ => finditer_from fuel' r rest
               end
      | None =>
          match s with
          | EmptyString => []
          | String _ s' => finditer_from fuel' r s'
          end
      end
  end.

Definition finditer (r : regex) (s : str) : list Match :=
  finditer_from (S (String.length s)) r s.

End Re.

(** ** src/config.py *)

Module Config.

Definition ARENA_MAX_SCROLL_ATTEMPTS : Z := 6.

Record Region := {
  x_start : float; y_start : float; width : float; height : float }.

Definition ARENA_OCR_REGION : Region :=
  {| x_start := 0.65; y_start := 0.24; width := 0.25; height := 0.74 |}.

Definition ARENA_OCR_BOTTOM_BAND : Region :=
  {| x_start := 0.65; y_start := 0.82; width := 0.25; height := 0.16 |}.

Definition ARENA_BATTLE_BUTTON_X : float := 0.90.

Record ListRegion := { x_center : float; ly_start : float; ly_end : float }.

Definition ARENA_LIST_REGION : ListRegion :=
  {| x_center := 0.50; ly_start := 0.50; ly_end := 0.68 |}.

Definition ARENA_MAX_BATTLES : Z := 20.
Definition ARENA_MAX_OPPONENT_POWER : Z := 0.
Definition ARENA_ATTACK_WEAKEST_FIRST : bool := true.

(** Delays, in milliseconds. *)
Definition ARENA_SCAN_DELAY : Z := 500.
Definition ARENA_SCROLL_DELAY : Z := 1000.

Inductive Template : Type :=
| TEMPLATE_START_FIGHT
| TEMPLATE_BATTLE_COMPLETE
| TEMPLATE_RETURN_ARENA
| TEMPLATE_EMPTY_ATOKENS
| TEMPLATE_FREE_ATOKENS
| TEMPLATE_FREE_REFRESH
| TEMPLATE_PAY_REFRESH.

End Config.

(** ** State and effects

    Methods are state transformers [M S A := S → A * S].  The state of a
    method of a class is the [World] paired with the object's fields. *)

Definition M (S A : Type) : Type := S → A * S.

Definition ret {S A} (a : A) : M S A := λ s, (a, s).

Definition bind {S A B} (c : M S A) (k : A → M S B) : M S B :=
  λ s, let '(a, s') := c s in k a s'.

Declare Scope prog_scope.
Delimit Scope prog_scope with prog.
Notation "x <- c ;; k" := (bind c (λ x, k))
  (at level 100, c at next level, right associativity) : prog_scope.
Local Open Scope prog_scope.

(** [for _ in range(n): c] *)
Fixpoint repeatM {S} (n : nat) (c : M S unit) : M S unit :=
  match n with
  | O => ret tt
  | S n' => _ <- c ;; repeatM n' c
  end.

(** *** Readings *)

(** One element of the list [find_all_team_powers] returns. *)
Record TeamPower := {
  tp_power : Z;
  tp_y_position : Z;
  tp_raw_text : Py.str }.

(** One opponent dictionary, as [scan_visible_opponents] builds it (all
    five keys are always present, so the defaults of the later [.get]
    calls are never taken). *)
Record Opponent := {
  power : Z;
  y_position : Z;
  scroll_position : Z;
  raw_text : Py.str;
  available : bool }.

(** *** The outside world *)

(** A positioned token of [extract_text_with_positions]. *)
Record Token := {
  tok_text : Py.str;
  tok_x : Z; tok_y : Z; tok_w : Z; tok_h : Z;
  tok_confidence : Z }.

(** A captured BGR image: a numpy array of shape [(rows, cols, 3)]. *)
Record Frame := {
  rows : N;
  cols : N;
  pixel : Z → Z → Z * Z * Z }.

(** What one call of [window_capture.capture()] shows: the frame, and what
    Tesseract reads in the region of interest cropped from it (every
    captured frame is read over exactly one region). *)
Record Observation := {
  obs_frame : Frame;
  obs_tokens : list Token;        (* extract_text_with_positions, --psm 11 *)
  obs_text : Py.str }.            (* extract_text, --psm 6 *)

Inductive Direction : Type := down | up.

(** The messages the scanner and the battle sequence log, with the values
    they print.  One constructor stands for one message, whether the
    source writes it with one call of [self.log] or with several (a blank
    line before it, a second line of details).  The lines the text
    recognizer adds of its own while it reads a frame (they start with
    "[OCR]" and are written only when its debug flag is set) are not
    among them: the events say nothing about them. *)
Inductive LogLine : Type :=
| LogEmptySample
| LogScroll (scroll n_found n_avail : Z) (powers : list Z)
| LogNew (added : Z) (new_powers : list Z)
| LogScanning
| LogOcrNothing (attempt : Z)
| LogOcrFailures
| LogEndOfList (scroll : Z)
| LogEndConfirmed
| LogReturningToTop
| LogScanComplete (total n_avail max_scroll : Z)
| LogFilteredDefeated (n : Z)
| LogFilteredPower (before after max_power : Z)
| LogTargets (weakest_first : bool) (n : Z) (first : list Z) (more : option Z)
| LogTargetNotFound (target_power : Z)
| LogNoYPosition
| LogAlreadyDefeated
| LogClickingBattle (x y y_pos : Z)
| LogStartFightNotFound
| LogEmptyTokens
| LogRefilled
| LogNoFreeTokens
| LogBattleTimeout
| LogReturnArenaNotFound
| LogListVerified (n : Z)
| LogListChanged (expected found : gset Z)
| LogAttacking (index total target_power current_scroll target_scroll : Z)
| LogSkipNavigate
| LogSkipBattleButton
| LogSkipStartFight
| LogSkipNotCompleted
| LogSkipReturn
| LogBattleComplete (n : Z)
| LogScrollingUp (scrolls_needed target_position : Z)
| LogScrollingDown (scrolls_needed target_position : Z)
| LogNoOpponentsToAttack
| LogAttackingTargets (n : Z)
| LogStoppedByUser
| LogOutOfTokens
| LogRescanNeeded
| LogPhaseDone (battles : Z)
| LogRefreshFree
| LogRefreshPaid
| LogNoRefreshButton.

(** What the program does to the outside. *)
Inductive Event : Type :=
| EvDrag (d : Direction) (x y_from y_to : Z)   (* the drag of scroll_list *)
| EvClick (x y : Z)                            (* moveTo, then click *)
| EvPress (key : Py.str)
| EvLog (line : LogLine).

(** A template found in the window: centre and size. *)
Definition Found : Type := (Z * Z) * (Z * Z).

Record World := {
  window_info : Z * Z * Z * Z;            (* left, top, width, height *)
  screen : nat → Observation;             (* the k-th capture and its OCR *)
  captures : nat;                         (* captures taken so far *)
  templates : nat → Config.Template → float → option Found;
                                          (* the k-th template search *)
  searches : nat;                         (* template searches so far *)
  clock : Z;                              (* milliseconds slept so far *)
  delay : nat → N;                        (* see [elapsed] *)
  ticks : nat;                            (* readings of the wall clock *)
  events : list Event }.                  (* oldest first *)

(** The wall clock.  Between two readings of [time.time()] the program
    sleeps, and captures, searches, clicks and the interpreter take time
    of their own.  How much goes by outside the sleeps before the [k]-th
    reading is given by the oracle [delay], in milliseconds; [elapsed]
    adds it up over the first [n] readings.  The wall clock read is the
    time slept plus the time elapsed otherwise: it never runs
    backwards. *)
Fixpoint elapsed (delay : nat → N) (n : nat) : Z :=
  match n with
  | O => 0
  | S n' => elapsed delay n' + Z.of_N (delay n')
  end.

Module Env.

Definition set_events (w : World) (e : list Event) : World :=
  {| window_info := window_info w; screen := screen w;
     captures := captures w; templates := templates w;
     searches := searches w; clock := clock w; delay := delay w;
     ticks := ticks w; events := e |}.

Definition emit (e : Event) (w : World) : World :=
  set_events w (events w ++ [e]).

(** [time.sleep]: [clock] adds up the sleeps of the program. *)
Definition sleep (ms : Z) (w : World) : World :=
  {| window_info := window_info w; screen := screen w;
     captures := captures w; templates := templates w;
     searches := searches w; clock := clock w + ms; delay := delay w;
     ticks := ticks w; events := events w |}.

(** [window_capture.capture()] followed by the OCR of its region. *)
Definition capture (w : World) : Observation * World :=
  (screen w (captures w),
   {| window_info := window_info w; screen := screen w;
      captures := S (captures w); templates := templates w;
      searches := searches w; clock := clock w; delay := delay w;
      ticks := ticks w; events := events w |}).

(** One run of the multi-scale template search of the matcher. *)
Definition search (t : Config.Template) (threshold : float) (w : World)
  : option Found * World :=
  (templates w (searches w) t threshold,
   {| window_info := window_info w; screen := screen w;
      captures := captures w; templates := templates w;
      searches := S (searches w); clock := clock w; delay := delay w;
      ticks := ticks w; events := events w |}).

(** [time.time()], in milliseconds: one more reading of the wall clock. *)
Definition time (w : World) : Z * World :=
  (clock w + elapsed (delay w) (S (ticks w)),
   {| window_info := window_info w; screen := screen w;
      captures := captures w; templates := templates w;
      searches := searches w; clock := clock w; delay := delay w;
      ticks := S (ticks w); events := events w |}).

End Env.

(** [cv2.cvtColor(_, cv2.COLOR_BGR2HSV)] acts on each pixel; OpenCV is not
    part of the repository, its conversion is a parameter. *)
Class Cv2 := { cvtColor_BGR2HSV : Z * Z * Z → Z * Z * Z }.

(** ** src/text_recognition.py *)

Module TextRecognizer.
Import Py Re.

Definition colon_dot_space (c : ascii) : bool :=
  Ascii.eqb c ":" || Ascii.eqb c "." || is_space c.

Definition digit_comma_dot (c : ascii) : bool :=
  is_digit c || Ascii.eqb c "," || Ascii.eqb c ".".

(** The pattern of the primary search, compiled with [re.IGNORECASE]:
    an optional prefix "[Tt]?e?a?m?\s*", then "[Pp]ower[:\.\s]+" and the
    captured number "(\d[\d,\.]+)". *)
Definition pattern : regex :=
  Seq (Opt (Seq (Opt (Class (ci "t")))
           (Seq (Opt (Class (ci "e")))
           (Seq (Opt (Class (ci "a")))
           (Seq (Opt (Class (ci "m")))
                (Star is_space))))))
 (Seq (Class (ci "p"))
 (Seq (Class (ci "o"))
 (Seq (Class (ci "w"))
 (Seq (Class (ci "e"))
 (Seq (Class (ci "r"))
 (Seq (Plus colon_dot_space)
      (Group (Seq (Class is_digit) (Plus digit_comma_dot))))))))).

(** [re.match] of "^\d{4,6}$" on [text]: four to six digits, then the end of
    the text or a final newline. *)
Definition is_4_to_6_digits (text : str) : bool :=
  let t := list_ascii_of_string text in
  let body :=
    match rev t with
    | c :: r => if Ascii.eqb c "010" then rev r else t
    | [] => t
    end in
  forallb is_digit body &&
  (4 <=? length body)%nat && (length body <=? 6)%nat.

Definition clean (s : str) : str := remove_char "." (remove_char "," s).

(** The local variables of [find_all_team_powers]. *)
Record Locals := {
  powers : list TeamPower;
  used_y_positions : gset Z;
  found_powers : gset Z }.

(** Body of the first loop, for one match of the pattern. *)
Definition primary_step (results : list Token) (st : Locals) (m : Match)
  : Locals :=
  let power_str := clean (group1 m) in
  match int power_str with
  | None => st                                   (* except ValueError *)
  | Some power =>
      if power <? 1000 then st
      else
        let unused r :=
          bool_decide (tok_y r ∉ used_y_positions st) in
        let method1 :=
          List.find (λ r, contains power_str (clean (tok_text r))
                          && unused r) results in
        let power_results :=
          List.filter (λ r, contains "Power" (tok_text r)
                            || contains "ower" (tok_text r))
                      results in
        let method2 := List.find unused power_results in
        let y_pos :=
          match method1, method2 with
          | Some r, _ => tok_y r
          | None, Some r => tok_y r
          | None, None => Z.of_nat (length (powers st)) * 115 + 50
          end in
        {| powers := powers st ++
                     [{| tp_power := power; tp_y_position := y_pos;
                         tp_raw_text := group0 m |}];
           used_y_positions := {[ y_pos ]} ∪ used_y_positions st;
           found_powers := {[ power ]} ∪ found_powers st |}
  end.

(** Body of the fallback loop, for one positioned token. *)
Definition fallback_step (st : Locals) (result : Token) : Locals :=
  let text := clean (tok_text result) in
  if is_4_to_6_digits text then
    match int text with
    | None => st
    | Some power =>
        if (1000 <=? power) && (power <=? 999999)
           && bool_decide (power ∉ found_powers st) then
          let y_pos := tok_y result in
          let too_close :=
            existsb (λ used_y, Z.abs (y_pos - used_y) <? 20)
                    (elements (used_y_positions st)) in
          if too_close then st
          else
            {| powers := powers st ++
                         [{| tp_power := power; tp_y_position := y_pos;
                             tp_raw_text :=
                               "[fallback] " +:+ tok_text result |}];
               used_y_positions := {[ y_pos ]} ∪ used_y_positions st;
               found_powers := {[ power ]} ∪ found_powers st |}
        else st
    end
  else st.

(** [find_all_team_powers(image)], given what Tesseract reads in the
    image: the positioned tokens and the block transcription. *)
Definition find_all_team_powers (results : list Token) (full_text : str)
  : list TeamPower :=
  let matches_found := finditer pattern full_text in
  let st0 := {| powers := []; used_y_positions := ∅; found_powers := ∅ |} in
  let st1 := fold_left (primary_step results) matches_found st0 in
  let st2 := fold_left fallback_step results st1 in
  powers st2.

End TextRecognizer.

(** Access to the world and to the fields of [self] from a method of a
    class whose fields are [X]. *)

Module Self.
Section Fields.
Context {X : Type}.

Definition world {A} (c : M World A) : M (World * X) A :=
  λ '(w, s), let '(a, w') := c w in (a, (w', s)).

Definition get : M (World * X) X := λ '(w, s), (s, (w, s)).

Definition modify (f : X → X) : M (World * X) unit :=
  λ '(w, s), (tt, (w, f s)).

Definition log (line : LogLine) : M (World * X) unit :=
  world (λ w, (tt, Env.emit (EvLog line) w)).

Definition act (e : Event) : M (World * X) unit :=
  world (λ w, (tt, Env.emit e w)).

(** [time.sleep] *)
Definition sleep (ms : Z) : M (World * X) unit :=
  world (λ w, (tt, Env.sleep ms w)).

(** [time.time()], in milliseconds *)
Definition now : M (World * X) Z :=
  world Env.time.
End Fields.
End Self.

(** ** src/template_matcher.py

    The matcher only needs the outside world. *)

Module TemplateMatcher.
Import Env.

(** [find_template(template_path, threshold)]: found or not, with the
    centre and the size of the match. *)
Definition find_template (t : Config.Template) (threshold : float)
  : M World (option Found) :=
  λ w, search t threshold (sleep 300 w).

(** [click_at_offset(base_x, base_y, offset_x, offset_y, wait_after)] *)
Definition click_at_offset (base_x base_y offset_x offset_y wait_after : Z)
  : M World unit :=
  λ w,
    let '(left_, top_, _, _) := window_info w in
    let abs_x := left_ + base_x + offset_x in
    let abs_y := top_ + base_y + offset_y in
    (tt, sleep wait_after (emit (EvClick abs_x abs_y) (sleep 200 w))).

(** [find_and_click(template_path, threshold, wait_after)]; of the pair
    it returns, only the success flag is kept (the second component is a
    diagnostic message). *)
Definition find_and_click (t : Config.Template) (threshold : float)
    (wait_after : Z) : M World bool :=
  λ w,
    let '(r, w1) := search t threshold (sleep 300 w) in
    match r with
    | Some ((x, y), _) =>
        let '(left_, top_, _, _) := window_info w1 in
        (true,
         sleep wait_after
           (emit (EvClick (left_ + x) (top_ + y)) (sleep 200 w1)))
    | None => (false, w1)
    end.

End TemplateMatcher.

(** ** src/sequences/opponent_scanner.py *)

Module OpponentScanner.
Import Env Config Self.

(** The fields of an [OpponentScanner].  [current_scroll_position] is not
    set by [__init__]: the attribute only exists once something assigns
    it. *)
Record t := {
  opponents : list Opponent;
  scroll_count : Z;
  max_scroll_reached : Z;
  known_powers : gset Z;
  current_scroll_position : option Z }.

Definition State : Type := World * t.

(** [__init__] *)
Definition init : t :=
  {| opponents := []; scroll_count := 0; max_scroll_reached := 0;
     known_powers := ∅; current_scroll_position := None |}.

Definition set_opponents (v : list Opponent) (s : t) : t :=
  {| opponents := v; scroll_count := scroll_count s;
     max_scroll_reached := max_scroll_reached s;
     known_powers := known_powers s;
     current_scroll_position := current_scroll_position s |}.

Definition set_scroll_count (v : Z) (s : t) : t :=
  {| opponents := opponents s; scroll_count := v;
     max_scroll_reached := max_scroll_reached s;
     known_powers := known_powers s;
     current_scroll_position := current_scroll_position s |}.

Definition set_max_scroll_reached (v : Z) (s : t) : t :=
  {| opponents := opponents s; scroll_count := scroll_count s;
     max_scroll_reached := v;
     known_powers := known_powers s;
     current_scroll_position := current_scroll_position s |}.

Definition set_known_powers (v : gset Z) (s : t) : t :=
  {| opponents := opponents s; scroll_count := scroll_count s;
     max_scroll_reached := max_scroll_reached s;
     known_powers := v;
     current_scroll_position := current_scroll_position s |}.

Definition set_current_scroll_position (v : Z) (s : t) : t :=
  {| opponents := opponents s; scroll_count := scroll_count s;
     max_scroll_reached := max_scroll_reached s;
     known_powers := known_powers s;
     current_scroll_position := Some v |}.

(** [reset] *)
Definition reset : M State unit :=
  modify (λ s,
    {| opponents := []; scroll_count := 0; max_scroll_reached := 0;
       known_powers := ∅;
       current_scroll_position := current_scroll_position s |}).

(** [get_window_dimensions] *)
Definition get_window_dimensions : M State (Z * Z * Z * Z) :=
  world (λ w, (window_info w, w)).

(** [get_ocr_region(frame, use_bottom_band)] *)
Definition get_ocr_region (frame : Frame) (use_bottom_band : bool)
  : Z * Z * Z * Z :=
  let height := Z.of_N (rows frame) in
  let width := Z.of_N (cols frame) in
  let region :=
    if use_bottom_band then ARENA_OCR_BOTTOM_BAND else ARENA_OCR_REGION in
  let x := Py.int_mul width (x_start region) in
  let y := Py.int_mul height (y_start region) in
  let w := Py.int_mul width (Config.width region) in
  let h := Py.int_mul height (Config.height region) in
  (x, y, w, h).

(** [frame[y_start:y_end, x_start:x_end]] *)
Definition crop (frame : Frame) (y_start y_end x_start x_end : Z) : Frame :=
  let h := Z.of_N (rows frame) in
  let w := Z.of_N (cols frame) in
  let y0 := Py.slice_index h y_start in
  let x0 := Py.slice_index w x_start in
  {| rows := Z.to_N (Py.slice_len h y_start y_end);
     cols := Z.to_N (Py.slice_len w x_start x_end);
     pixel := λ y x, pixel frame (y0 + y) (x0 + x) |}.

(** [a.size] of an image array: rows * columns * 3 channels. *)
Definition size (a : Frame) : Z := Z.of_N (rows a) * Z.of_N (cols a) * 3.

(** The pixels of an image, row by row. *)
Definition pixels (a : Frame) : list (Z * Z * Z) :=
  y ← seqZ 0 (Z.of_N (rows a));
  x ← seqZ 0 (Z.of_N (cols a));
  [pixel a y x].

(** The mask of [check_battle_available] on one HSV pixel: hue within
    10..35 and saturation above 150. *)
Definition orange (hsv : Z * Z * Z) : bool :=
  let '(h, s, _) := hsv in
  (10 <=? h) && (h <=? 35) && (150 <? s).

Section WithCv2.
Context `{Cv2}.

(** The region [check_battle_available] samples for a row at
    [y_position]. *)
Definition sample_region (frame : Frame) (y_position : Z) : Frame :=
  let height := Z.of_N (rows frame) in
  let width := Z.of_N (cols frame) in
  let button_x := Py.int_mul width ARENA_BATTLE_BUTTON_X in
  let sample_width := 40 in
  let x_start := Z.max 0 (button_x - sample_width / 2) in
  let x_end := Z.min width (button_x + sample_width / 2) in
  let y_start := Z.max 0 (y_position - 80) in
  let y_end := Z.min height (y_position + 20) in
  crop frame y_start y_end x_start x_end.

(** [check_battle_available(frame, y_position)] *)
Definition check_battle_available (frame : Frame) (y_position : Z)
  : M State bool :=
  let region := sample_region frame y_position in
  if size region =? 0 then
    _ <- log LogEmptySample ;;
    ret true
  else
    let hsv := cvtColor_BGR2HSV <$> pixels region in
    let orange_pixel_count :=
      Z.of_nat (length (List.filter orange hsv)) in
    let total_pixels := Z.of_N (rows region) * Z.of_N (cols region) in
    let orange_ratio :=
      if 0 <? total_pixels
      then PrimFloat.div (Py.float_of_Z orange_pixel_count)
                         (Py.float_of_Z total_pixels)
      else 0%float in
    ret (PrimFloat.ltb 0.15 orange_ratio).

(** [scroll_list(direction)] *)
Definition scroll_list (direction : Direction) : M State Z :=
  dims <- get_window_dimensions ;;
  let '(left_, top_, width, height) := dims in
  let center_x := left_ + Py.int_mul width (x_center ARENA_LIST_REGION) in
  let y_hi := top_ + Py.int_mul height (ly_end ARENA_LIST_REGION) in
  let y_lo := top_ + Py.int_mul height (ly_start ARENA_LIST_REGION) in
  let '(start_y, end_y) :=
    match direction with
    | down => (y_hi, y_lo)
    | up => (y_lo, y_hi)
    end in
  _ <- sleep 100 ;;
  _ <- sleep 100 ;;
  _ <- act (EvDrag direction center_x start_y end_y) ;;
  _ <- sleep 300 ;;
  _ <- sleep ARENA_SCROLL_DELAY ;;
  _ <- modify (λ s,
         match direction with
         | down => set_scroll_count (scroll_count s + 1) s
         | up => set_scroll_count (Z.max 0 (scroll_count s - 1)) s
         end) ;;
  s <- get ;;
  ret (scroll_count s).

(** [scroll_to_position(target_position)]; [range] of a negative number
    is empty. *)
Definition scroll_to_position (target_position : Z) : M State bool :=
  s <- get ;;
  let current := scroll_count s in
  if target_position =? current then ret true
  else
    _ <- (if target_position <? current then
            let scrolls_needed := current - target_position in
            _ <- log (LogScrollingUp scrolls_needed target_position) ;;
            repeatM (Z.to_nat scrolls_needed)
              (_ <- scroll_list up ;; ret tt)
          else
            let scrolls_needed := target_position - current in
            _ <- log (LogScrollingDown scrolls_needed target_position) ;;
            repeatM (Z.to_nat scrolls_needed)
              (_ <- scroll_list down ;; ret tt)) ;;
    s <- get ;;
    ret (scroll_count s =? target_position).

(** The loop of [scan_visible_opponents] over [enumerate(powers)],
    from index [i] on. *)
Fixpoint scan_rows (frame : Frame) (roi_y : Z) (i : Z)
    (powers : list TeamPower) : M State (list Opponent) :=
  match powers with
  | [] => ret []
  | p :: rest =>
      let y_pos :=
        (if tp_y_position p =? 0 then i * 100 + 50 else tp_y_position p)
        + roi_y in
      is_available <- check_battle_available frame y_pos ;;
      s <- get ;;
      let opponent :=
        {| power := tp_power p;
           y_position := y_pos;
           scroll_position := scroll_count s;
           raw_text := tp_raw_text p;
           available := is_available |} in
      visible <- scan_rows frame roi_y (i + 1) rest ;;
      ret (opponent :: visible)
  end.

(** [scan_visible_opponents(use_bottom_band)] *)
Definition scan_visible_opponents (use_bottom_band : bool)
  : M State (list Opponent) :=
  _ <- sleep ARENA_SCAN_DELAY ;;
  obs <- world capture ;;
  let frame := obs_frame obs in
  let '(roi_x, roi_y, roi_w, roi_h) :=
    get_ocr_region frame use_bottom_band in
  let powers :=
    TextRecognizer.find_all_team_powers (obs_tokens obs) (obs_text obs) in
  visible <- scan_rows frame roi_y 0 powers ;;
  s <- get ;;
  _ <- match visible with
       | [] => ret tt
       | _ =>
           log (LogScroll (scroll_count s)
                  (Z.of_nat (length visible))
                  (Z.of_nat (length (List.filter available visible)))
                  (power <$> visible))
       end ;;
  ret visible.

(** The loop of [add_opponents_with_dedup]: the scanner and the list
    [new_powers] after the opponents of [new_opponents]. *)
Definition dedup_step (acc : t * list Z) (opp : Opponent) : t * list Z :=
  let '(s, new_powers) := acc in
  if bool_decide (power opp ∉ known_powers s) then
    (set_opponents (opponents s ++ [opp])
       (set_known_powers ({[ power opp ]} ∪ known_powers s) s),
     new_powers ++ [power opp])
  else (s, new_powers).

(** [add_opponents_with_dedup(new_opponents)] *)
Definition add_opponents_with_dedup (new_opponents : list Opponent)
  : M State Z :=
  s <- get ;;
  let '(s', new_powers) := fold_left dedup_step new_opponents (s, []) in
  let added_count := Z.of_nat (length new_powers) in
  _ <- modify (λ _, s') ;;
  _ <- (if 0 <? added_count then
          _ <- modify (λ s, set_max_scroll_reached (scroll_count s) s) ;;
          log (LogNew added_count new_powers)
        else ret tt) ;;
  ret added_count.

(** The local variables of the loop of [run_full_scan]. *)
Record Locals := {
  last_bottom_powers : gset Z;
  consecutive_empty_scans : Z }.

(** How one pass through the body of the loop ends: at its bottom or
    by [continue] (with the local variables for the next pass), or by
    [break]. *)
Inductive Flow : Type :=
| Continue (l : Locals)
| Break.

(** [set(opp['power'] for opp in visible)] *)
Definition power_set (visible : list Opponent) : gset Z :=
  list_to_set (power <$> visible).

(** The body of the [while] loop of [run_full_scan]. *)
Definition scan_iteration (l : Locals) : M State Flow :=
  _ <- scroll_list down ;;
  visible <- scan_visible_opponents true ;;
  let current_powers := power_set visible in
  match visible with
  | [] =>
      let n := consecutive_empty_scans l + 1 in
      _ <- log (LogOcrNothing n) ;;
      if 2 <=? n then
        _ <- log LogOcrFailures ;;
        ret (Continue {| last_bottom_powers := last_bottom_powers l;
                         consecutive_empty_scans := 0 |})
      else
        ret (Continue {| last_bottom_powers := last_bottom_powers l;
                         consecutive_empty_scans := n |})
  | _ :: _ =>
      if bool_decide (last_bottom_powers l ≠ ∅)
         && bool_decide (current_powers = last_bottom_powers l) then
        s <- get ;;
        _ <- log (LogEndOfList (scroll_count s)) ;;
        _ <- modify (λ s, set_scroll_count (scroll_count s - 1) s) ;;
        ret Break
      else
        added <- add_opponents_with_dedup visible ;;
        let last := current_powers in
        if added =? 0 then
          _ <- scroll_list down ;;
          visible <- scan_visible_opponents true ;;
          let confirm_powers := power_set visible in
          if bool_decide (confirm_powers = last) then
            _ <- log LogEndConfirmed ;;
            _ <- modify (λ s, set_scroll_count (scroll_count s - 2) s) ;;
            ret Break
          else
            _ <- modify (λ s, set_scroll_count (scroll_count s - 1) s) ;;
            _ <- add_opponents_with_dedup visible ;;
            ret (Continue {| last_bottom_powers := confirm_powers;
                             consecutive_empty_scans := 0 |})
        else
          ret (Continue {| last_bottom_powers := last;
                           consecutive_empty_scans := 0 |})
  end.

(** [while self.scroll_count < ARENA_MAX_SCROLL_ATTEMPTS: ...], with a
    bound on the number of passes: [None] when the bound is used up
    before the loop is left. *)
Fixpoint scan_loop (fuel : nat) (l : Locals) (st : State)
  : option State :=
  if scroll_count st.2 <? ARENA_MAX_SCROLL_ATTEMPTS then
    match fuel with
    | O => None
    | S fuel' =>
        match scan_iteration l st with
        | (Continue l', st') => scan_loop fuel' l' st'
        | (Break, st') => Some st'
        end
    end
  else Some st.

(** [run_full_scan], up to its loop. *)
Definition scan_top : M State unit :=
  _ <- log LogScanning ;;
  _ <- reset ;;
  visible <- scan_visible_opponents false ;;
  _ <- add_opponents_with_dedup visible ;;
  ret tt.

(** [run_full_scan], after its loop. *)
Definition scan_finish : M State (list Opponent) :=
  _ <- modify (λ s, set_scroll_count (Z.max 0 (scroll_count s)) s) ;;
  _ <- modify (λ s, set_max_scroll_reached (scroll_count s) s) ;;
  _ <- log LogReturningToTop ;;
  _ <- repeatM (Z.to_nat ARENA_MAX_SCROLL_ATTEMPTS)
         (_ <- scroll_list up ;; ret tt) ;;
  _ <- modify (set_scroll_count 0) ;;
  s <- get ;;
  _ <- log (LogScanComplete
              (Z.of_nat (length (opponents s)))
              (Z.of_nat (length (List.filter available (opponents s))))
              (max_scroll_reached s)) ;;
  ret (opponents s).

(** [run_full_scan()]; [fuel] bounds the passes through its loop. *)
Definition run_full_scan (fuel : nat) (st : State)
  : option (list Opponent * State) :=
  let '(_, st1) := scan_top st in
  match scan_loop fuel {| last_bottom_powers := ∅;
                          consecutive_empty_scans := 0 |} st1 with
  | Some st2 => Some (scan_finish st2)
  | None => None
  end.

(** [get_opponents_sorted_by_power(weakest_first)] *)
Definition get_opponents_sorted_by_power (weakest_first : bool)
  : M State (list Opponent) :=
  s <- get ;;
  ret (Py.sorted power (negb weakest_first) (opponents s)).

(** The readings of the frame on screen, as the three verification
    methods take them. *)
Definition read_screen : M State (list TeamPower * Z) :=
  obs <- world capture ;;
  let '(roi_x, roi_y, roi_w, roi_h) :=
    get_ocr_region (obs_frame obs) false in
  ret (TextRecognizer.find_all_team_powers (obs_tokens obs) (obs_text obs),
       roi_y).

(** [verify_opponent_at_position(target_power)] *)
Definition verify_opponent_at_position (target_power : Z) : M State bool :=
  r <- read_screen ;;
  ret (existsb (λ p, tp_power p =? target_power) r.1).

(** [find_opponent_y_position(target_power)] *)
Definition find_opponent_y_position (target_power : Z)
  : M State (option Z) :=
  r <- read_screen ;;
  ret (match List.find (λ p, tp_power p =? target_power) r.1 with
       | Some p => Some (tp_y_position p + r.2)
       | None => None
       end).

(** [get_current_visible_powers()] *)
Definition get_current_visible_powers : M State (gset Z) :=
  _ <- sleep ARENA_SCAN_DELAY ;;
  r <- read_screen ;;
  ret (list_to_set (tp_power <$> r.1)).

End WithCv2.

End OpponentScanner.

(** ** src/sequences/battle_sequence.py *)

Module BattleSequence.
Import Env Config Self.
Local Open Scope string_scope.
Local Open Scope Z_scope.

(** The fields of a [BattleSequence]; [scanner] is the [OpponentScanner]
    it drives.  The cursor over the targets starts at 0 and is only ever
    incremented: it is a natural number. *)
Record t := {
  scanner : OpponentScanner.t;
  sorted_targets : list Opponent;
  current_target_index : nat;
  battles_completed : Z;
  max_battles : Z;
  list_valid : bool }.

Definition State : Type := World * t.

(** [__init__] *)
Definition init (opponent_scanner : OpponentScanner.t) : t :=
  {| scanner := opponent_scanner; sorted_targets := [];
     current_target_index := 0; battles_completed := 0;
     max_battles := ARENA_MAX_BATTLES; list_valid := true |}.

Definition set_scanner (v : OpponentScanner.t) (b : t) : t :=
  {| scanner := v; sorted_targets := sorted_targets b;
     current_target_index := current_target_index b;
     battles_completed := battles_completed b;
     max_battles := max_battles b; list_valid := list_valid b |}.

Definition set_sorted_targets (v : list Opponent) (b : t) : t :=
  {| scanner := scanner b; sorted_targets := v;
     current_target_index := current_target_index b;
     battles_completed := battles_completed b;
     max_battles := max_battles b; list_valid := list_valid b |}.

Definition set_current_target_index (v : nat) (b : t) : t :=
  {| scanner := scanner b; sorted_targets := sorted_targets b;
     current_target_index := v;
     battles_completed := battles_completed b;
     max_battles := max_battles b; list_valid := list_valid b |}.

Definition set_battles_completed (v : Z) (b : t) : t :=
  {| scanner := scanner b; sorted_targets := sorted_targets b;
     current_target_index := current_target_index b;
     battles_completed := v;
     max_battles := max_battles b; list_valid := list_valid b |}.

Definition set_list_valid (v : bool) (b : t) : t :=
  {| scanner := scanner b; sorted_targets := sorted_targets b;
     current_target_index := current_target_index b;
     battles_completed := battles_completed b;
     max_battles := max_battles b; list_valid := v |}.

(** A call of a method of [self.scanner]. *)
Definition on_scanner {A} (c : M OpponentScanner.State A) : M State A :=
  λ '(w, b),
    let '(a, (w', s')) := c (w, scanner b) in (a, (w', set_scanner s' b)).

(** [reset] *)
Definition reset : M State unit :=
  modify (λ b,
    {| scanner := scanner b; sorted_targets := [];
       current_target_index := 0; battles_completed := 0;
       max_battles := max_battles b; list_valid := true |}).

(** [_log_target_list] *)
Definition _log_target_list : M State unit :=
  b <- get ;;
  let n := Z.of_nat (length (sorted_targets b)) in
  log (LogTargets ARENA_ATTACK_WEAKEST_FIRST n
         (power <$> take 5 (sorted_targets b))
         (if 5 <? n then Some (n - 5) else None)).

(** [prepare_targets(opponents, weakest_first, max_power)];
    [max_power = None] is the default of the parameter. *)
Definition prepare_targets (opponents : list Opponent)
    (weakest_first : bool) (max_power : option Z)
  : M State (list Opponent) :=
  _ <- reset ;;
  let filtered := opponents in
  let available_opponents := List.filter available filtered in
  let defeated_count :=
    Z.of_nat (length filtered) - Z.of_nat (length available_opponents) in
  _ <- (if 0 <? defeated_count
        then log (LogFilteredDefeated defeated_count)
        else ret tt) ;;
  let filtered := available_opponents in
  filtered <-
    match max_power with
    | Some mp =>
        if negb (mp =? 0) && (0 <? mp) then
          let before_count := Z.of_nat (length filtered) in
          let filtered' := List.filter (λ o, power o <=? mp) filtered in
          _ <- log (LogFilteredPower before_count
                      (Z.of_nat (length filtered')) mp) ;;
          ret filtered'
        else ret filtered
    | None => ret filtered
    end ;;
  _ <- modify (set_sorted_targets
                 (Py.sorted power (negb weakest_first) filtered)) ;;
  _ <- _log_target_list ;;
  b <- get ;;
  ret (sorted_targets b).

Section WithCv2.
Context `{Cv2}.

(** [navigate_to_target(target)] *)
Definition navigate_to_target (target : Opponent) : M State bool :=
  let target_power := power target in
  let target_scroll := scroll_position target in
  b <- get ;;
  let current_scroll := OpponentScanner.scroll_count (scanner b) in
  _ <- (if target_scroll =? current_scroll then ret tt
        else if target_scroll <? current_scroll then
          repeatM (Z.to_nat (current_scroll - target_scroll))
            (_ <- on_scanner (OpponentScanner.scroll_list up) ;; ret tt)
        else
          repeatM (Z.to_nat (target_scroll - current_scroll))
            (_ <- on_scanner (OpponentScanner.scroll_list down) ;; ret tt)) ;;
  _ <- sleep ARENA_SCAN_DELAY ;;
  found <- on_scanner
             (OpponentScanner.verify_opponent_at_position target_power) ;;
  if found then ret true
  else
    _ <- on_scanner (OpponentScanner.scroll_list down) ;;
    _ <- sleep ARENA_SCAN_DELAY ;;
    found <- on_scanner
               (OpponentScanner.verify_opponent_at_position target_power) ;;
    if found then ret true
    else
      _ <- on_scanner (OpponentScanner.scroll_list up) ;;
      _ <- on_scanner (OpponentScanner.scroll_list up) ;;
      _ <- sleep ARENA_SCAN_DELAY ;;
      found <- on_scanner
                 (OpponentScanner.verify_opponent_at_position
                    target_power) ;;
      if found then ret true
      else
        _ <- on_scanner (OpponentScanner.scroll_list down) ;;
        _ <- log (LogTargetNotFound target_power) ;;
        ret false.

(** [click_battle_button(target_power, stored_y_position)] *)
Definition click_battle_button (target_power : Z)
    (stored_y_position : option Z) : M State bool :=
  y_pos <-
    match stored_y_position with
    | Some y => ret (Some y)
    | None =>
        on_scanner (OpponentScanner.find_opponent_y_position target_power)
    end ;;
  match y_pos with
  | None =>
      _ <- log LogNoYPosition ;;
      ret false
  | Some y_pos =>
      dims <- on_scanner OpponentScanner.get_window_dimensions ;;
      let '(left_, top_, width, height) := dims in
      obs <- world capture ;;
      let frame := obs_frame obs in
      let frame_width := Z.of_N (cols frame) in
      is_available <-
        on_scanner (OpponentScanner.check_battle_available frame y_pos) ;;
      if negb is_available then
        _ <- log LogAlreadyDefeated ;;
        ret false
      else
        let button_x :=
          left_ + Py.int_mul frame_width ARENA_BATTLE_BUTTON_X in
        let BUTTON_Y_OFFSET := -50 in
        let button_y := top_ + y_pos + BUTTON_Y_OFFSET in
        _ <- log (LogClickingBattle button_x button_y y_pos) ;;
        _ <- sleep 200 ;;
        _ <- act (EvClick button_x button_y) ;;
        ret true
  end.

(** [click_start_fight()] *)
Definition click_start_fight : M State bool :=
  success <- world (TemplateMatcher.find_and_click
                      TEMPLATE_START_FIGHT 0.8 1000) ;;
  if success then ret true
  else
    _ <- log LogStartFightNotFound ;;
    ret false.

(** [ensure_arena_tokens()] *)
Definition ensure_arena_tokens : M State string :=
  r <- world (TemplateMatcher.find_template TEMPLATE_EMPTY_ATOKENS 0.98) ;;
  match r with
  | None => ret "ok"
  | Some (location, size) =>
      _ <- log LogEmptyTokens ;;
      let plus_offset_x := - (size.1 / 2) - 20 in
      _ <- world (TemplateMatcher.click_at_offset
                    location.1 location.2 plus_offset_x 0 1500) ;;
      _ <- sleep 500 ;;
      found_free <-
        world (TemplateMatcher.find_template TEMPLATE_FREE_ATOKENS 0.8) ;;
      match found_free with
      | Some _ =>
          _ <- world (TemplateMatcher.find_and_click
                        TEMPLATE_FREE_ATOKENS 0.8 2000) ;;
          _ <- log LogRefilled ;;
          _ <- modify (λ b,
                 set_scanner
                   (OpponentScanner.set_current_scroll_position 0
                      (scanner b)) b) ;;
          ret "refilled"
      | None =>
          _ <- log LogNoFreeTokens ;;
          _ <- act (EvPress "escape") ;;
          _ <- sleep 500 ;;
          ret "no_tokens"
      end
  end.

(** The loop of [wait_for_battle_complete], with a bound on the number
    of polls: [None] when the bound is used up before the loop is
    left. *)
Fixpoint poll_battle_complete (fuel : nat) (start_time timeout
    check_interval : Z) : M State (option bool) :=
  t <- now ;;
  if t - start_time <? timeout then
    match fuel with
    | O => ret None
    | S fuel' =>
        success <- world (TemplateMatcher.find_and_click
                            TEMPLATE_BATTLE_COMPLETE 0.8 1000) ;;
        if success then ret (Some true)
        else
          _ <- sleep check_interval ;;
          poll_battle_complete fuel' start_time timeout check_interval
    end
  else
    _ <- log LogBattleTimeout ;;
    ret (Some false).

(** [wait_for_battle_complete(timeout=120, check_interval=3.0)]: every
    poll that fails sleeps for [check_interval], so 40 polls are never
    used up before the timeout. *)
Definition wait_for_battle_complete : M State bool :=
  let timeout := 120000 in
  let check_interval := 3000 in
  start_time <- now ;;
  r <- poll_battle_complete 40 start_time timeout check_interval ;;
  ret (default false r).

(** The loop of [click_return_arena], from [attempt] on. *)
Fixpoint return_arena_attempts (remaining : nat) (attempt max_attempts
    check_interval : Z) : M State bool :=
  match remaining with
  | O => ret false
  | S remaining' =>
      success <- world (TemplateMatcher.find_and_click
                          TEMPLATE_RETURN_ARENA 0.8 1500) ;;
      if success then ret true
      else
        _ <- (if attempt <? max_attempts - 1 then sleep check_interval
              else ret tt) ;;
        return_arena_attempts remaining' (attempt + 1) max_attempts
          check_interval
  end.

(** [click_return_arena(max_attempts=5, check_interval=1.0)] *)
Definition click_return_arena : M State bool :=
  let max_attempts := 5 in
  let check_interval := 1000 in
  success <- return_arena_attempts (Z.to_nat max_attempts) 0 max_attempts
               check_interval ;;
  if success then ret true
  else
    _ <- log LogReturnArenaNotFound ;;
    ret false.

(** [verify_list_unchanged(expected_powers_at_position)] *)
Definition verify_list_unchanged (expected_powers_at_position : gset Z)
  : M State bool :=
  current_powers <- on_scanner OpponentScanner.get_current_visible_powers ;;
  let overlap := current_powers ∩ expected_powers_at_position in
  if bool_decide (overlap ≠ ∅) then
    _ <- log (LogListVerified (Z.of_nat (size overlap))) ;;
    ret true
  else
    _ <- log (LogListChanged expected_powers_at_position current_powers) ;;
    _ <- modify (set_list_valid false) ;;
    ret false.

(** The exit of [attack_next_target] on a failed step: log, advance the
    cursor, return ["skip"]. *)
Definition skip_target (line : LogLine) : M State string :=
  _ <- log line ;;
  _ <- modify (λ b,
         set_current_target_index (current_target_index b + 1) b) ;;
  ret "skip".

(** [attack_next_target()] *)
Definition attack_next_target : M State string :=
  b <- get ;;
  if negb (list_valid b) then ret "list_invalid"
  else
    match sorted_targets b !! current_target_index b with
    | None => ret "no_more"
    | Some target =>
        if max_battles b <=? battles_completed b then ret "max_reached"
        else
          token_status <- ensure_arena_tokens ;;
          if String.eqb token_status "no_tokens" then ret "no_tokens"
          else
            let target_power := power target in
            let target_scroll := scroll_position target in
            let target_y_pos := Some (y_position target) in
            b <- get ;;
            let current_scroll :=
              OpponentScanner.scroll_count (scanner b) in
            _ <- log (LogAttacking
                        (Z.of_nat (current_target_index b) + 1)
                        (Z.of_nat (length (sorted_targets b)))
                        target_power current_scroll target_scroll) ;;
            ok <- navigate_to_target target ;;
            if negb ok then skip_target LogSkipNavigate
            else
              ok <- click_battle_button target_power target_y_pos ;;
              if negb ok then skip_target LogSkipBattleButton
              else
                _ <- sleep 1000 ;;
                ok <- click_start_fight ;;
                if negb ok then skip_target LogSkipStartFight
                else
                  ok <- wait_for_battle_complete ;;
                  if negb ok then skip_target LogSkipNotCompleted
                  else
                    _ <- sleep 1000 ;;
                    ok <- click_return_arena ;;
                    if negb ok then skip_target LogSkipReturn
                    else
                      _ <- modify (λ b,
                             set_scanner
                               (OpponentScanner.set_scroll_count 0
                                  (scanner b)) b) ;;
                      _ <- sleep 2000 ;;
                      _ <- modify (λ b,
                             set_current_target_index
                               (current_target_index b + 1) b) ;;
                      _ <- modify (λ b,
                             set_battles_completed
                               (battles_completed b + 1) b) ;;
                      b <- get ;;
                      _ <- log (LogBattleComplete (battles_completed b)) ;;
                      ret "success"
    end.

(** [check_needs_refresh()]: the frame is read over the top quarter of
    the list region only. *)
Definition check_needs_refresh : M State bool :=
  b <- get ;;
  match sorted_targets b !! current_target_index b with
  | None => ret false
  | Some remaining_target =>
      let remaining_power := power remaining_target in
      _ <- sleep ARENA_SCAN_DELAY ;;
      obs <- world capture ;;
      let powers :=
        TextRecognizer.find_all_team_powers (obs_tokens obs) (obs_text obs) in
      match powers with
      | first :: _ => ret (tp_power first =? remaining_power)
      | [] => ret false
      end
  end.

(** [click_refresh_list()] *)
Definition click_refresh_list : M State bool :=
  success <- world (TemplateMatcher.find_and_click
                      TEMPLATE_FREE_REFRESH 0.8 2000) ;;
  if success then
    _ <- log LogRefreshFree ;;
    ret true
  else
    success <- world (TemplateMatcher.find_and_click
                        TEMPLATE_PAY_REFRESH 0.8 2000) ;;
    if success then
      _ <- log LogRefreshPaid ;;
      ret true
    else
      _ <- log LogNoRefreshButton ;;
      ret false.

(** [_log_attack_result(result)] *)
Definition _log_attack_result (result : string) : M State unit :=
  if String.eqb result "no_tokens" then log LogOutOfTokens
  else if String.eqb result "list_invalid" then log LogRescanNeeded
  else ret tt.

(** [_log_phase_complete()] *)
Definition _log_phase_complete : M State unit :=
  b <- get ;;
  log (LogPhaseDone (battles_completed b)).

(** The argument [stop_check] of the constructor: nothing, or a function
    that reads a flag of the user interface; what it answers is a matter
    of the outside world. *)
Section WithStopCheck.
Context (stop_check : option (World → bool)).

(** [should_stop()] *)
Definition should_stop : M State bool :=
  match stop_check with
  | None => ret false
  | Some f => world (λ w, (f w, w))
  end.

(** [result in ('no_more', 'max_reached', 'list_invalid', 'no_tokens')] *)
Definition stop_condition (result : string) : bool :=
  String.eqb result "no_more" || String.eqb result "max_reached"
  || String.eqb result "list_invalid" || String.eqb result "no_tokens".

(** The [while True] loop of [run_attack_phase], with a bound on the
    number of passes: [None] when the bound is used up before the loop is
    left, the last [result] otherwise. *)
Fixpoint attack_loop (fuel : nat) : M State (option string) :=
  match fuel with
  | O => ret None
  | S fuel' =>
      stop <- should_stop ;;
      if stop then
        _ <- log LogStoppedByUser ;;
        ret (Some "stopped")
      else
        result <- attack_next_target ;;
        if stop_condition result then
          _ <- _log_attack_result result ;;
          ret (Some result)
        else attack_loop fuel'
  end.

(** [run_attack_phase(single_attack)]; [fuel] bounds the passes through
    its loop.  The value returned comes with the value the method leaves
    in [self.last_attack_result], an attribute it only assigns when there
    are targets. *)
Definition run_attack_phase (fuel : nat) (single_attack : bool)
  : M State (option (bool * option string)) :=
  b <- get ;;
  match sorted_targets b with
  | [] =>
      _ <- log LogNoOpponentsToAttack ;;
      ret (Some (true, None))
  | _ :: _ =>
      _ <- log (LogAttackingTargets (Z.of_nat (length (sorted_targets b)))) ;;
      r <- (if single_attack then
              result <- attack_next_target ;;
              _ <- _log_attack_result result ;;
              ret (Some result)
            else attack_loop fuel) ;;
      match r with
      | None => ret None
      | Some result =>
          _ <- _log_phase_complete ;;
          ret (Some (negb (String.eqb result "no_tokens"
                           || String.eqb result "stopped"),
                     Some result))
      end
  end.

End WithStopCheck.

End WithCv2.

End BattleSequence.

(** * Vocabulary of the properties *)

(** The order [Py.sorted] produces: ascending keys, or descending ones
    under [reverse]. *)
Definition in_order {A} (key : A → Z) (reverse : bool) (a b : A) : Prop :=
  if reverse then key b ≤ key a else key a ≤ key b.

(** The readings the scheduler keeps: the available ones, below the power
    ceiling when a positive one is given. *)
Definition kept (max_power : option Z) (o : Opponent) : bool :=
  available o &&
  match max_power with
  | Some mp => if 0 <? mp then power o <=? mp else true
  | None => true
  end.

(** The target list of a registry under a policy. *)
Definition scheduled (opponents : list Opponent) (weakest_first : bool)
    (max_power : option Z) : list Opponent :=
  Py.sorted power (negb weakest_first) (List.filter (kept max_power) opponents).

(** ** Concrete inputs *)

(** A window showing nothing: an empty frame, no text, no template. *)
Definition blank : Observation :=
  {| obs_frame := {| rows := 0; cols := 0; pixel := λ _ _, (0, 0, 0) |};
     obs_tokens := []; obs_text := "" |}.

Definition idle_world : World :=
  {| window_info := (0, 0, 1734, 703);
     screen := λ _, blank;
     captures := 0;
     templates := λ _ _ _, None;
     searches := 0;
     clock := 0;
     delay := λ _, 0%N;
     ticks := 0;
     events := [] |}.

(** A reading with the given power, availability and scroll position. *)
Definition reading (p : Z) (a : bool) (s : Z) : Opponent :=
  {| power := p; y_position := 300; scroll_position := s;
     raw_text := "Power: "; available := a |}.

(** A battle sequence in the middle of a cycle: five battles fought, the
    cursor on the third target, the list flagged as changed. *)
Definition mid_cycle : BattleSequence.t :=
  {| BattleSequence.scanner := OpponentScanner.init;
     BattleSequence.sorted_targets := [reading 3000 true 0];
     BattleSequence.current_target_index := 2;
     BattleSequence.battles_completed := 5;
     BattleSequence.max_battles := 20;
     BattleSequence.list_valid := false |}.

(** ** The registry *)

(** At most one reading per power, and the known powers are those of the
    registered readings. *)
Definition registry_ok (s : OpponentScanner.t) : Prop :=
  NoDup (power <$> OpponentScanner.opponents s)
  ∧ OpponentScanner.known_powers s
    = list_to_set (power <$> OpponentScanner.opponents s).

(** Number of readings of power [p] in a list. *)
Definition count_power (p : Z) (l : list Opponent) : nat :=
  length (List.filter (λ o, power o =? p) l).

(** ** The feed of the scanner *)

(** The powers Tesseract reads in the [k]-th captured frame. *)
Definition band_powers (w : World) (k : nat) : list Z :=
  tp_power <$> TextRecognizer.find_all_team_powers
                 (obs_tokens (screen w k)) (obs_text (screen w k)).

(** The same, as a set. *)
Definition band (w : World) (k : nat) : gset Z :=
  list_to_set (band_powers w k).

(** Two states of the world with the same window and the same oracles. *)
Definition same_feed (w w' : World) : Prop :=
  window_info w' = window_info w ∧ screen w' = screen w
  ∧ templates w' = templates w ∧ searches w' = searches w.

(** The drag of one scroll step in direction [d]. *)
Definition drag (w : World) (d : Direction) : Event :=
  let '(left_, top_, width, height) := window_info w in
  let x := left_ + Py.int_mul width (Config.x_center Config.ARENA_LIST_REGION) in
  let y_hi := top_ + Py.int_mul height (Config.ly_end Config.ARENA_LIST_REGION) in
  let y_lo := top_ + Py.int_mul height (Config.ly_start Config.ARENA_LIST_REGION) in
  match d with
  | down => EvDrag down x y_hi y_lo
  | up => EvDrag up x y_lo y_hi
  end.

(** The tracked scroll index after one scroll step. *)
Definition stepped (d : Direction) (c : Z) : Z :=
  match d with
  | down => c + 1
  | up => Z.max 0 (c - 1)
  end.

(** The return to the top of the list that ends a scan: a log line and
    as many upward drags as the ceiling on scroll attempts. *)
Definition return_to_top (w : World) : list Event :=
  EvLog LogReturningToTop
  :: replicate (Z.to_nat Config.ARENA_MAX_SCROLL_ATTEMPTS) (drag w up).

(** How the loop of a scan ended when it stopped on a repeat of band [k]:
    the last two log lines, and the tracked index after the roll-back. *)
Definition stopped_on_repeat (w0 : World) (k : nat)
    (st : OpponentScanner.State) : Prop :=
  ∃ t pre n a ps,
    list_to_set ps = band w0 k
    ∧ ((events st.1 = pre ++ [EvLog (LogScroll t n a ps);
                              EvLog (LogEndOfList t)]
        ∧ OpponentScanner.scroll_count st.2 = t - 1 ∧ 1 ≤ t)
       ∨ (events st.1 = pre ++ [EvLog (LogScroll t n a ps);
                                EvLog LogEndConfirmed]
          ∧ OpponentScanner.scroll_count st.2 = t - 2 ∧ 2 ≤ t)).

(** An OpenCV that sees no colour at all. *)
Definition gray_cv2 : Cv2 := {| cvtColor_BGR2HSV := λ _, (0, 0, 0) |}.

(** A feed of one row per frame: 5000 at the top, then 6000 in every
    bottom band. *)
Definition row (text : string) : Observation :=
  {| obs_frame := {| rows := 0; cols := 0; pixel := λ _ _, (0, 0, 0) |};
     obs_tokens := []; obs_text := text |}.

Definition short_list : World :=
  {| window_info := (0, 0, 1734, 703);
     screen := λ k, match k with
                    | O => row "Team Power: 5,000"
                    | _ => row "Team Power: 6,000"
                    end;
     captures := 0;
     templates := λ _ _ _, None;
     searches := 0;
     clock := 0;
     delay := λ _, 0%N;
     ticks := 0;
     events := [] |}.

(** ** Concrete inputs of the battle sequence *)

(** A window whose token counter reads empty and which offers a free
    refill: both templates are found at every search. *)
Definition refill_offered : World :=
  {| window_info := (0, 0, 1734, 703);
     screen := λ _, blank;
     captures := 0;
     templates := λ _ t _,
       match t with
       | Config.TEMPLATE_EMPTY_ATOKENS => Some ((1500, 40), (120, 30))
       | Config.TEMPLATE_FREE_ATOKENS => Some ((860, 400), (200, 60))
       | _ => None
       end;
     searches := 0;
     clock := 0;
     delay := λ _, 0%N;
     ticks := 0;
     events := [] |}.

(** A scanner that has scrolled three steps down its list. *)
Definition scrolled_scanner : OpponentScanner.t :=
  {| OpponentScanner.opponents := [reading 5000 true 0; reading 7000 true 3];
     OpponentScanner.scroll_count := 3;
     OpponentScanner.max_scroll_reached := 3;
     OpponentScanner.known_powers := {[ 5000; 7000 ]};
     OpponentScanner.current_scroll_position := None |}.

(** A battle sequence about to attack its second target, three scroll
    steps down. *)
Definition attacking : BattleSequence.t :=
  {| BattleSequence.scanner := scrolled_scanner;
     BattleSequence.sorted_targets :=
       [reading 5000 true 0; reading 7000 true 3];
     BattleSequence.current_target_index := 1;
     BattleSequence.battles_completed := 1;
     BattleSequence.max_battles := 20;
     BattleSequence.list_valid := true |}.

(** A window that shows two rows, of powers 3000 and 4000. *)
Definition two_rows : World :=
  {| window_info := (0, 0, 1734, 703);
     screen := λ _, row "Team Power: 3,000 Team Power: 4,000";
     captures := 0;
     templates := λ _ _ _, None;
     searches := 0;
     clock := 0;
     delay := λ _, 0%N;
     ticks := 0;
     events := [] |}.

(** The fields of a battle sequence that describe the cycle, as opposed
    to its scanner. *)
Definition same_cycle (b b' : BattleSequence.t) : Prop :=
  BattleSequence.sorted_targets b' = BattleSequence.sorted_targets b
  ∧ BattleSequence.current_target_index b'
    = BattleSequence.current_target_index b
  ∧ BattleSequence.battles_completed b' = BattleSequence.battles_completed b
  ∧ BattleSequence.max_battles b' = BattleSequence.max_battles b
  ∧ BattleSequence.list_valid b' = BattleSequence.list_valid b.

(** A method that leaves the cycle fields of the battle sequence as they
    are, whatever it does to the scanner and to the world. *)
Definition keeps_cycle {A} (c : M BattleSequence.State A) : Prop :=
  ∀ w b, same_cycle b (c (w, b)).2.2.

(** The cursor has moved to the next target and nothing else of the cycle
    has changed. *)
Definition advanced (b b' : BattleSequence.t) : Prop :=
  BattleSequence.current_target_index b'
  = S (BattleSequence.current_target_index b)
  ∧ BattleSequence.battles_completed b' = BattleSequence.battles_completed b
  ∧ BattleSequence.sorted_targets b' = BattleSequence.sorted_targets b
  ∧ BattleSequence.max_battles b' = BattleSequence.max_battles b
  ∧ BattleSequence.list_valid b' = BattleSequence.list_valid b.

(** A method that advances the cursor whenever it returns ["skip"]. *)
Definition skip_advances (c : M BattleSequence.State string) : Prop :=
  ∀ w b, (c (w, b)).1 = "skip"%string → advanced b (c (w, b)).2.2.

(** A method that never returns ["skip"]. *)
Definition never_skips (c : M BattleSequence.State string) : Prop :=
  ∀ st, (c st).1 ≠ "skip"%string.

(** ** Readings of the parser *)

(** Vertical positions that are pairwise at least 20 pixels apart. *)
Definition apart (ys : list Z) : Prop :=
  ∀ i j a b, (i < j)%nat → ys !! i = Some a → ys !! j = Some b →
             20 ≤ Z.abs (b - a).

(** A reading taken from a bare number among the positioned tokens. *)
Definition from_token (results : list Token) (r : TeamPower) : Prop :=
  ∃ tok, tok ∈ results
         ∧ tp_y_position r = tok_y tok
         ∧ Py.int (TextRecognizer.clean (tok_text tok)) = Some (tp_power r).

(** Three bare numbers, the second ten pixels under the first. *)
Definition bare_numbers : list Token :=
  [ {| tok_text := "8,309"; tok_x := 10; tok_y := 40;
       tok_w := 50; tok_h := 12; tok_confidence := 90 |};
    {| tok_text := "7777"; tok_x := 10; tok_y := 50;
       tok_w := 50; tok_h := 12; tok_confidence := 90 |};
    {| tok_text := "12000"; tok_x := 10; tok_y := 160;
       tok_w := 50; tok_h := 12; tok_confidence := 90 |} ].

(** ** Outcomes of an attack *)

(** A battle was won: the cursor and the number of battles have both
    moved on by one, the scanner is taken to be back at the top of the
    list, and nothing else of the cycle has changed. *)
Definition won (b b' : BattleSequence.t) : Prop :=
  BattleSequence.current_target_index b'
  = S (BattleSequence.current_target_index b)
  ∧ BattleSequence.battles_completed b'
    = BattleSequence.battles_completed b + 1
  ∧ BattleSequence.sorted_targets b' = BattleSequence.sorted_targets b
  ∧ BattleSequence.max_battles b' = BattleSequence.max_battles b
  ∧ BattleSequence.list_valid b' = BattleSequence.list_valid b
  ∧ OpponentScanner.scroll_count (BattleSequence.scanner b') = 0.

(** A method that ends in one of the three ways an attack ends once it
    has a target: without tokens, by skipping the target, or by winning. *)
Definition attacks (c : M BattleSequence.State string) : Prop :=
  ∀ w b,
    let r := c (w, b) in
    (r.1 = "no_tokens"%string ∧ same_cycle b r.2.2)
    ∨ (r.1 = "skip"%string ∧ advanced b r.2.2)
    ∨ (r.1 = "success"%string ∧ won b r.2.2).

(** The targets the cursor has not passed yet. *)
Definition targets_left (b : BattleSequence.t) : nat :=
  length (BattleSequence.sorted_targets b)
  - BattleSequence.current_target_index b.

(** What the cycle fields of a battle sequence can have become after some
    attacks: the target list and the ceiling are the same, the cursor has
    not moved back nor past the end of the list, and the battles fought
    are no more than the targets passed and stay within the ceiling. *)
Definition progressed (b b' : BattleSequence.t) : Prop :=
  BattleSequence.sorted_targets b' = BattleSequence.sorted_targets b
  ∧ BattleSequence.max_battles b' = BattleSequence.max_battles b
  ∧ (BattleSequence.current_target_index b
     ≤ BattleSequence.current_target_index b')%nat
  ∧ ((BattleSequence.current_target_index b
      ≤ length (BattleSequence.sorted_targets b))%nat →
     (BattleSequence.current_target_index b'
      ≤ length (BattleSequence.sorted_targets b))%nat)
  ∧ 0 ≤ BattleSequence.battles_completed b'
        - BattleSequence.battles_completed b
      ≤ Z.of_nat (BattleSequence.current_target_index b'
                  - BattleSequence.current_target_index b)
  ∧ (BattleSequence.battles_completed b ≤ BattleSequence.max_battles b →
     BattleSequence.battles_completed b' ≤ BattleSequence.max_battles b).

(** The words on which the loop of [run_attack_phase] stops. *)
Definition last_words : list string :=
  ["stopped"; "no_more"; "max_reached"; "list_invalid"; "no_tokens"]%string.

(** A window in which every step of an attack goes through: the power
    5000 is read at the top of the list, the token counter is not empty,
    and the three buttons of a battle are found. *)
Definition winning : World :=
  {| window_info := (0, 0, 1734, 703);
     screen := λ _, row "Team Power: 5,000";
     captures := 0;
     templates := λ _ t _,
       match t with
       | Config.TEMPLATE_START_FIGHT
       | Config.TEMPLATE_BATTLE_COMPLETE
       | Config.TEMPLATE_RETURN_ARENA => Some ((860, 600), (200, 60))
       | _ => None
       end;
     searches := 0;
     clock := 0;
     delay := λ _, 0%N;
     ticks := 0;
     events := [] |}.

(** A battle sequence with one target, at the top of the list. *)
Definition one_target : BattleSequence.t :=
  {| BattleSequence.scanner := OpponentScanner.init;
     BattleSequence.sorted_targets := [reading 5000 true 0];
     BattleSequence.current_target_index := 0;
     BattleSequence.battles_completed := 0;
     BattleSequence.max_battles := 20;
     BattleSequence.list_valid := true |}.

(** ** The wall clock *)

(** The wall clock as it was last read. *)
Definition wall (w : World) : Z := clock w + elapsed (delay w) (ticks w).

(** ** Feeds that show new powers band after band *)

(** The powers read up to bottom band [k] of a scan whose first frame,
    the list as it opens, is frame [c0]. *)
Fixpoint seen (w : World) (c0 k : nat) : gset Z :=
  match k with
  | O => band w c0
  | S k' => seen w c0 k' ∪ band w (c0 + S k')
  end.

(** Each of the bottom bands 1 to [N] shows a power that no frame before
    it shows. *)
Definition fresh_bands (w : World) (c0 N : nat) : Prop :=
  ∀ k, (1 ≤ k ≤ N)%nat →
       ∃ p, p ∈ band w (c0 + k) ∧ p ∉ seen w c0 (k - 1).
(** * Properties *)

(** ** The stable sort *)

Section Sorted.
Context {A : Type} (key : A → Z) (reverse : bool).

Lemma before_in_order a b :
  Py.before reverse (key a) (key b) = true ↔ in_order key reverse a b.
Proof. unfold Py.before, in_order. destruct reverse; lia. Qed.

Lemma before_false_in_order a b :
  Py.before reverse (key a) (key b) = false → in_order key reverse b a.
Proof. unfold Py.before, in_order. destruct reverse; lia. Qed.

Lemma in_order_trans a b c :
  in_order key reverse a b → in_order key reverse b c →
  in_order key reverse a c.
Proof. unfold in_order. destruct reverse; lia. Qed.

Lemma insert_by_perm x l : Py.insert_by key reverse x l ≡ₚ x :: l.
Proof.
  induction l as [|y l IH]; simpl; [done|].
  destruct (Py.before _ _ _); [done|].
  rewrite IH. apply perm_swap.
Qed.

Lemma sorted_perm l : Py.sorted key reverse l ≡ₚ l.
Proof.
  induction l as [|x l IH]; simpl; [done|].
  rewrite insert_by_perm. by rewrite IH.
Qed.

Lemma insert_by_sorted x l :
  StronglySorted (in_order key reverse) l →
  StronglySorted (in_order key reverse) (Py.insert_by key reverse x l).
Proof.
  induction 1 as [|y l Hl IH Hy]; simpl.
  - repeat constructor.
  - destruct (Py.before _ _ _) eqn:E.
    + apply before_in_order in E.
      constructor; [by constructor|].
      constructor; [done|].
      eapply Forall_impl; [exact Hy|].
      intros z Hz. by eapply in_order_trans.
    + apply before_false_in_order in E.
      constructor; [done|].
      rewrite insert_by_perm. by constructor.
Qed.

Lemma sorted_sorted l :
  StronglySorted (in_order key reverse) (Py.sorted key reverse l).
Proof.
  induction l as [|x l IH]; simpl; [constructor|].
  by apply insert_by_sorted.
Qed.

(** Stability: the elements of any one key keep their order. *)
Lemma insert_by_stable k x l :
  List.filter (λ o, key o =? k) (Py.insert_by key reverse x l)
  = List.filter (λ o, key o =? k) (x :: l).
Proof.
  induction l as [|y l IH]; [done|].
  cbn [Py.insert_by]. destruct (Py.before _ _ _) eqn:E; [done|].
  cbn [List.filter] in *. rewrite IH.
  destruct (key x =? k) eqn:Ex, (key y =? k) eqn:Ey; try done.
  unfold Py.before in E. destruct reverse; lia.
Qed.

Lemma sorted_stable k l :
  List.filter (λ o, key o =? k) (Py.sorted key reverse l)
  = List.filter (λ o, key o =? k) l.
Proof.
  induction l as [|x l IH]; [done|].
  cbn [Py.sorted foldr]. fold (Py.sorted key reverse l).
  rewrite insert_by_stable. cbn [List.filter]. by rewrite IH.
Qed.
End Sorted.

Lemma filter_perm {A} (f : A → bool) (l1 l2 : list A) :
  l1 ≡ₚ l2 → List.filter f l1 ≡ₚ List.filter f l2.
Proof.
  induction 1 as [|x l1 l2 _ IH|x y l|l1 l2 l3 _ IH1 _ IH2]; simpl.
  - done.
  - destruct (f x); by rewrite IH.
  - destruct (f x), (f y); try done. apply perm_swap.
  - by etrans.
Qed.

Lemma filter_filter_andb {A} (f g : A → bool) (l : list A) :
  List.filter g (List.filter f l) = List.filter (λ x, f x && g x) l.
Proof.
  induction l as [|x l IH]; simpl; [done|].
  destruct (f x); simpl; [destruct (g x)|]; by rewrite ?IH.
Qed.

Lemma filter_ext_bool {A} (f g : A → bool) (l : list A) :
  (∀ x, f x = g x) → List.filter f l = List.filter g l.
Proof. intros E. induction l as [|x l IH]; simpl; [done|]. by rewrite E, IH. Qed.

Lemma filter_all {A} (f : A → bool) (l : list A) :
  Forall (λ x, f x = true) l → List.filter f l = l.
Proof. induction 1 as [|x l Hx _ IH]; simpl; [done|]. by rewrite Hx, IH. Qed.

Lemma filter_fmap {A B} (g : A → B) (f : B → bool) (l : list A) :
  List.filter f (g <$> l) = g <$> List.filter (λ x, f (g x)) l.
Proof.
  induction l as [|x l IH]; [done|].
  rewrite fmap_cons. cbn [List.filter]. rewrite IH.
  by destruct (f (g x)).
Qed.

(** ** C1, C9: the scheduler *)

Lemma prepare_targets_run opponents weakest_first max_power w b :
  ∃ w',
    BattleSequence.prepare_targets opponents weakest_first max_power (w, b)
    = (scheduled opponents weakest_first max_power,
       (w', {| BattleSequence.scanner := BattleSequence.scanner b;
               BattleSequence.sorted_targets :=
                 scheduled opponents weakest_first max_power;
               BattleSequence.current_target_index := 0;
               BattleSequence.battles_completed := 0;
               BattleSequence.max_battles := BattleSequence.max_battles b;
               BattleSequence.list_valid := true |}))
    ∧ window_info w' = window_info w ∧ captures w' = captures w
    ∧ searches w' = searches w ∧ clock w' = clock w
    ∧ ∃ lines, events w' = events w ++ (EvLog <$> lines).
Proof.
  assert (Hk : ∀ l, List.filter (kept max_power) l
    = match max_power with
      | Some mp => if negb (mp =? 0) && (0 <? mp)
                   then List.filter (λ o, power o <=? mp) (List.filter available l)
                   else List.filter available l
      | None => List.filter available l
      end).
  { intros l. unfold kept. destruct max_power as [mp|].
    - destruct (0 <? mp) eqn:E.
      + replace (negb (mp =? 0)) with true by lia. simpl.
        by rewrite filter_filter_andb.
      + rewrite andb_false_r. apply filter_ext_bool. intros x. by rewrite andb_true_r.
    - apply filter_ext_bool. intros x. by rewrite andb_true_r. }
  unfold scheduled. rewrite Hk.
  unfold BattleSequence.prepare_targets, BattleSequence._log_target_list,
    BattleSequence.reset, bind, ret, Self.modify, Self.get, Self.log, Self.world.
  destruct (0 <? _); destruct max_power as [mp|];
    [destruct (negb (mp =? 0) && (0 <? mp))| |destruct (negb (mp =? 0) && (0 <? mp))|];
    simpl; eexists; (split; [reflexivity|]); simpl; repeat split;
    try (eexists [_; _; _]; simpl; rewrite <- ?app_assoc; reflexivity);
    try (eexists [_; _]; simpl; rewrite <- ?app_assoc; reflexivity);
    try (eexists [_]; simpl; rewrite <- ?app_assoc; reflexivity).
Qed.

Lemma filter_kept_available max_power l :
  Forall (λ o, available o = true) l →
  List.filter (kept max_power) l
  = List.filter
      (λ o, match max_power with
            | Some mp => if 0 <? mp then power o <=? mp else true
            | None => true
            end) l.
Proof.
  induction 1 as [|o os Ho _ IH]; [done|].
  cbn [List.filter]. unfold kept at 1. by rewrite Ho, IH.
Qed.

(** C1. For every registry, [prepare_targets] returns exactly the readings
    that are available and (for a positive [max_power]) of power at most
    [max_power]: a permutation of them, sorted by power, ascending under
    [weakest_first] and descending otherwise, with readings of equal power
    in their original order.  No unavailable reading is ever returned.  For
    a registry of powers 5000, 3000, 8000, all available, weakest first,
    [max_power = 0] gives the powers 3000, 5000, 8000 and
    [max_power = 4000] gives 3000 alone. *)
Theorem prepare_targets_schedule
    (opponents : list Opponent) (weakest_first : bool) (max_power : option Z)
    (st : BattleSequence.State) :
  let targets :=
    (BattleSequence.prepare_targets opponents weakest_first max_power st).1 in
  targets ≡ₚ List.filter (kept max_power) opponents
  ∧ StronglySorted
      (λ a b, if weakest_first then power a ≤ power b
              else power b ≤ power a) targets
  ∧ (∀ k, List.filter (λ o, power o =? k) targets
          = List.filter (λ o, power o =? k)
              (List.filter (kept max_power) opponents))
  ∧ (∀ o, o ∈ targets → available o = true)
  ∧ (power <$> opponents ≡ₚ [5000; 3000; 8000] →
     Forall (λ o, available o = true) opponents →
     weakest_first = true →
     (max_power = Some 0 → power <$> targets = [3000; 5000; 8000])
     ∧ (max_power = Some 4000 → power <$> targets = [3000])).
Proof.
  destruct st as [w b].
  destruct (prepare_targets_run opponents weakest_first max_power w b)
    as (w' & -> & _).
  cbn [fst]. unfold scheduled.
  set (l := List.filter (kept max_power) opponents).
  assert (Hperm : Py.sorted power (negb weakest_first) l ≡ₚ l)
    by apply sorted_perm.
  assert (Hsort : StronglySorted
            (λ a b, if weakest_first then power a ≤ power b
                    else power b ≤ power a)
            (Py.sorted power (negb weakest_first) l)).
  { pose proof (sorted_sorted power (negb weakest_first) l) as Hs.
    unfold in_order in Hs. by destruct weakest_first. }
  split; [done|]. split; [done|]. split; [intros k; apply sorted_stable|].
  split.
  - intros o Ho. rewrite Hperm in Ho. subst l.
    apply list_elem_of_In, filter_In in Ho as [_ Ho].
    unfold kept in Ho. by apply andb_true_iff in Ho as [-> _].
  - intros Hpow Hav ->.
    assert (Hasc : StronglySorted Z.le
              (power <$> Py.sorted power (negb true) l)).
    { eapply (StronglySorted_fmap power); [|exact Hsort]. done. }
    split; intros ->.
    + apply (StronglySorted_unique Z.le); [done| |].
      * repeat constructor; lia.
      * rewrite Hperm. subst l.
        rewrite (filter_kept_available _ _ Hav), filter_all.
        -- rewrite Hpow. apply perm_swap.
        -- by apply Forall_true.
    + apply Permutation_singleton_r.
      rewrite Hperm. subst l.
      rewrite (filter_kept_available _ _ Hav). cbn [Z.ltb Z.compare].
      rewrite <- (filter_fmap power (λ p, p <=? 4000)).
      by rewrite (filter_perm _ _ _ Hpow).
Qed.

(** The registry of the example, in the order it was scanned. *)
Lemma prepare_targets_schedule_witness :
  power <$> (BattleSequence.prepare_targets
               [reading 5000 true 0; reading 3000 true 0; reading 8000 true 1]
               true (Some 4000) (idle_world, mid_cycle)).1
  = [3000].
Proof.
  apply (prepare_targets_schedule
           [reading 5000 true 0; reading 3000 true 0; reading 8000 true 1]
           true (Some 4000) (idle_world, mid_cycle)).
  - reflexivity.
  - repeat constructor.
  - reflexivity.
  - reflexivity.
Defined.

(** C9, as the code has it.  The list [prepare_targets] returns depends on
    the registry and the policy alone, not on the state it is called in;
    the call leaves the scanner (the owner of the registry and of its
    readings) as it was and changes nothing of the outside world but the
    log; called again on the same registry it returns the same list and
    leaves the same battle state.  But it is not free of effects: it
    resets the cursor and the battle count to 0 and the list-valid flag to
    true, and stores the list in [sorted_targets]. *)
Theorem prepare_targets_effects
    (opponents : list Opponent) (weakest_first : bool) (max_power : option Z)
    (st : BattleSequence.State) :
  let r := BattleSequence.prepare_targets opponents weakest_first max_power st in
  (∀ st', (BattleSequence.prepare_targets opponents weakest_first max_power
             st').1 = r.1)
  ∧ BattleSequence.scanner r.2.2 = BattleSequence.scanner st.2
  ∧ (window_info r.2.1 = window_info st.1 ∧ captures r.2.1 = captures st.1
     ∧ searches r.2.1 = searches st.1 ∧ clock r.2.1 = clock st.1
     ∧ ∃ lines, events r.2.1 = events st.1 ++ (EvLog <$> lines))
  ∧ (BattleSequence.sorted_targets r.2.2 = r.1
     ∧ BattleSequence.current_target_index r.2.2 = 0%nat
     ∧ BattleSequence.battles_completed r.2.2 = 0
     ∧ BattleSequence.list_valid r.2.2 = true
     ∧ BattleSequence.max_battles r.2.2 = BattleSequence.max_battles st.2)
  ∧ (let r' :=
       BattleSequence.prepare_targets opponents weakest_first max_power r.2 in
     r'.1 = r.1 ∧ r'.2.2 = r.2.2).
Proof.
  destruct st as [w b].
  destruct (prepare_targets_run opponents weakest_first max_power w b)
    as (w' & E & Hw).
  cbn zeta. rewrite E. cbn [fst snd].
  split.
  { intros [w1 b1].
    destruct (prepare_targets_run opponents weakest_first max_power w1 b1)
      as (? & -> & _). done. }
  split; [done|]. split; [exact Hw|]. split; [done|].
  match goal with |- context [BattleSequence.prepare_targets _ _ _ (w', ?b')] =>
    destruct (prepare_targets_run opponents weakest_first max_power w' b')
      as (? & -> & _) end.
  done.
Qed.

(** C9, as the specification has it, fails: a call in the middle of a
    cycle changes the battle state. *)
Lemma prepare_targets_not_pure :
  (BattleSequence.prepare_targets [reading 3000 true 0] true None
     (idle_world, mid_cycle)).2
  ≠ (idle_world, mid_cycle).
Proof. vm_compute. discriminate. Qed.

(** ** The scanner, method by method *)

Lemma same_feed_refl : Reflexive same_feed.
Proof. by intros w. Qed.

Lemma same_feed_trans : Transitive same_feed.
Proof.
  intros w1 w2 w3 (?&?&?&?) (?&?&?&?). unfold same_feed. by repeat split; etrans.
Qed.

#[local] Existing Instance same_feed_refl.
#[local] Existing Instance same_feed_trans.

(** Chains the [same_feed] facts of the context. *)
Ltac feed :=
  repeat first [assumption | reflexivity | etrans; [eassumption|]].

Lemma band_same_feed w w' k : same_feed w w' → band w' k = band w k.
Proof. intros (_ & E & _). unfold band, band_powers. by rewrite E. Qed.

Lemma band_powers_same_feed w w' k :
  same_feed w w' → band_powers w' k = band_powers w k.
Proof. intros (_ & E & _). unfold band_powers. by rewrite E. Qed.

Lemma drag_same_feed w w' d : same_feed w w' → drag w' d = drag w d.
Proof. intros (E & _). unfold drag. by rewrite E. Qed.

Section Scanner.
Context `{Cv2}.
Import OpponentScanner.

Lemma scroll_list_spec d w s :
  ∃ w', scroll_list d (w, s)
        = (stepped d (scroll_count s),
           (w', set_scroll_count (stepped d (scroll_count s)) s))
      ∧ same_feed w w' ∧ captures w' = captures w
      ∧ events w' = events w ++ [drag w d].
Proof.
  unfold scroll_list, drag, bind, ret, get_window_dimensions, Self.world,
    Self.sleep, Self.act, Self.modify, Self.get.
  destruct (window_info w) as [[[l t] wd] h] eqn:E.
  destruct d; cbn; rewrite ?E; eexists; (split; [reflexivity|]);
    unfold same_feed; cbn; by rewrite ?E.
Qed.

Lemma check_battle_available_spec frame y w s :
  ∃ a w', check_battle_available frame y (w, s) = (a, (w', s))
        ∧ same_feed w w' ∧ captures w' = captures w
        ∧ ∃ lines, events w' = events w ++ (EvLog <$> lines).
Proof.
  unfold check_battle_available.
  destruct (size _ =? 0).
  - eexists _, _. split; [reflexivity|]. cbn.
    repeat split. by exists [LogEmptySample].
  - eexists _, _. split; [reflexivity|]. repeat split.
    exists []. cbn. by rewrite app_nil_r.
Qed.

Lemma scan_rows_spec frame roi_y powers : ∀ i w s,
  ∃ visible w', scan_rows frame roi_y i powers (w, s) = (visible, (w', s))
        ∧ same_feed w w' ∧ captures w' = captures w
        ∧ power <$> visible = tp_power <$> powers
        ∧ Forall (λ o, scroll_position o = scroll_count s) visible
        ∧ ∃ lines, events w' = events w ++ (EvLog <$> lines).
Proof.
  induction powers as [|p rest IH]; intros i w s.
  - eexists [], w. cbn. repeat split; [constructor|].
    exists []. cbn. by rewrite app_nil_r.
  - cbn [scan_rows]. unfold bind at 1.
    destruct (check_battle_available_spec frame
      ((if tp_y_position p =? 0 then i * 100 + 50 else tp_y_position p) + roi_y)
      w s) as (a & w1 & -> & F1 & C1 & l1 & E1).
    unfold bind at 1. cbn [Self.get].
    unfold bind at 1.
    destruct (IH (i + 1) w1 s) as (vis & w2 & -> & F2 & C2 & P2 & S2 & l2 & E2).
    eexists _, _. split; [reflexivity|].
    split; [by etrans|]. split; [congruence|].
    split; [cbn; by rewrite P2|].
    split; [by constructor|].
    exists (l1 ++ l2). by rewrite E2, E1, fmap_app, app_assoc.
Qed.

Lemma scan_visible_opponents_spec bottom w s :
  ∃ visible w',
    scan_visible_opponents bottom (w, s) = (visible, (w', s))
    ∧ same_feed w w' ∧ captures w' = S (captures w)
    ∧ power <$> visible = band_powers w (captures w)
    ∧ Forall (λ o, scroll_position o = scroll_count s) visible
    ∧ ∃ lines, events w' = events w ++ (EvLog <$> lines)
        ∧ (visible ≠ [] →
           ∃ lines' n a,
             lines = lines' ++
                     [LogScroll (scroll_count s) n a (power <$> visible)]).
Proof.
  unfold scan_visible_opponents, bind at 1 2.
  cbn [Self.sleep Self.world Env.sleep Env.capture].
  destruct (get_ocr_region _ bottom) as [[[rx ry] rw] rh].
  unfold bind at 1.
  match goal with |- context [scan_rows ?f ?y 0 ?p (?w0, s)] =>
    destruct (scan_rows_spec f y p 0 w0 s)
      as (vis & w1 & -> & F1 & C1 & P1 & S1 & l1 & E1) end.
  cbn in C1, E1, P1.
  unfold bind at 1. cbn [Self.get].
  destruct vis as [|o vis].
  - eexists [], w1. cbn. split; [reflexivity|].
    split; [destruct F1 as (?&?&?&?); by repeat split|].
    split; [done|]. split; [done|]. split; [done|].
    exists l1. split; [done|]. done.
  - eexists (o :: vis), _. cbn. split; [reflexivity|].
    split; [destruct F1 as (?&?&?&?); by repeat split|].
    split; [done|]. split; [done|]. split; [done|].
    eexists (l1 ++ [_]). cbn. rewrite E1, fmap_app, app_assoc.
    split; [done|]. intros _. by eexists _, _, _.
Qed.


Lemma dedup_fold_spec new : ∀ s np s' np',
  fold_left dedup_step new (s, np) = (s', np') →
  ∃ ext,
    opponents s' = opponents s ++ ext
    ∧ np' = np ++ (power <$> ext)
    ∧ known_powers s' = known_powers s ∪ list_to_set (power <$> ext)
    ∧ scroll_count s' = scroll_count s
    ∧ max_scroll_reached s' = max_scroll_reached s
    ∧ current_scroll_position s' = current_scroll_position s
    ∧ (∀ o, o ∈ ext → o ∈ new ∧ power o ∉ known_powers s)
    ∧ (∀ o, o ∈ new → power o ∈ known_powers s')
    ∧ (registry_ok s → registry_ok s').
Proof.
  induction new as [|o new IH]; intros s np s' np' Hf.
  - cbn in Hf. injection Hf as <- <-. exists []. cbn. rewrite !app_nil_r.
    split_and!; try done; [set_solver|by intros ? ?%elem_of_nil..].
  - cbn [fold_left] in Hf. unfold dedup_step at 2 in Hf.
    case_bool_decide as Hk.
    + apply IH in Hf as (ext & E1 & E2 & E3 & E4 & E5 & E6 & E7 & E8 & E9).
      cbn in E1, E2, E3, E4, E5, E6, E7, E9.
      exists (o :: ext).
      rewrite E1, E2, E3, E4, E5, E6, <- !app_assoc. cbn.
      split_and!; try done.
      * set_solver.
      * intros o' [->|Ho']%elem_of_cons; [set_solver|].
        destruct (E7 o' Ho') as [? ?]. set_solver.
      * intros o' [->|Ho']%elem_of_cons.
        -- set_solver.
        -- rewrite <- E3. by apply E8.
      * intros [Hnd Hkn]. apply E9.
        unfold registry_ok. cbn. rewrite fmap_app, Hkn. cbn. split.
        -- apply NoDup_app. split; [done|]. split; [|apply NoDup_singleton].
           intros p Hp ->%list_elem_of_singleton. apply Hk. rewrite Hkn.
           by apply elem_of_list_to_set.
        -- rewrite list_to_set_app_L. set_solver.
    + apply IH in Hf as (ext & E1 & E2 & E3 & E4 & E5 & E6 & E7 & E8 & E9).
      exists ext.
      split_and!; try done.
      * intros o' Ho'. destruct (E7 o' Ho'). set_solver.
      * intros o' [->|Ho']%elem_of_cons; [|by apply E8].
        rewrite E3. set_solver.
Qed.

Lemma add_opponents_with_dedup_spec new w s :
  ∃ ext w' s',
    add_opponents_with_dedup new (w, s) = (Z.of_nat (length ext), (w', s'))
    ∧ same_feed w w' ∧ captures w' = captures w
    ∧ (∃ lines, events w' = events w ++ (EvLog <$> lines))
    ∧ opponents s' = opponents s ++ ext
    ∧ known_powers s' = known_powers s ∪ list_to_set (power <$> ext)
    ∧ scroll_count s' = scroll_count s
    ∧ current_scroll_position s' = current_scroll_position s
    ∧ (∀ o, o ∈ ext → o ∈ new ∧ power o ∉ known_powers s)
    ∧ (∀ o, o ∈ new → power o ∈ known_powers s')
    ∧ (registry_ok s → registry_ok s').
Proof.
  unfold add_opponents_with_dedup, bind at 1. cbn [Self.get].
  destruct (fold_left dedup_step new (s, [])) as [s1 np] eqn:Ef.
  apply dedup_fold_spec in Ef
    as (ext & E1 & E2 & E3 & E4 & E5 & E6 & E7 & E8 & E9).
  cbn in E2. subst np.
  rewrite length_fmap.
  exists ext. unfold bind, ret, Self.modify, Self.log, Self.world. cbn.
  destruct (0 <? Z.of_nat (length ext)); eexists _, _;
    (split; [reflexivity|]); cbn; split_and!; try done.
  - by eexists [_].
  - exists []. cbn. by rewrite app_nil_r.
Qed.


Lemma power_set_band w k (visible : list Opponent) :
  power <$> visible = band_powers w k → power_set visible = band w k.
Proof. unfold power_set, band. by intros ->. Qed.

Lemma band_nonempty w k : band_powers w k ≠ [] → band w k ≠ ∅.
Proof.
  unfold band. destruct (band_powers w k) as [|p ps]; [done|].
  intros _. cbn. set_solver.
Qed.

(** One pass through the loop of [run_full_scan], case by case.  [c] is
    the number of frames captured before the pass and [t] the tracked
    scroll index of its first scan. *)
Lemma scan_iteration_spec l w s :
  ∃ flow w' s',
    scan_iteration l (w, s) = (flow, (w', s'))
    ∧ same_feed w w'
    ∧ (registry_ok s → registry_ok s')
    ∧ let c := captures w in
      let t := scroll_count s + 1 in
      let repeated :=
        last_bottom_powers l ≠ ∅ ∧ band w c = last_bottom_powers l in
      (band_powers w c = [] ∧ captures w' = S c ∧ scroll_count s' = t
       ∧ ∃ n, flow = Continue {| last_bottom_powers := last_bottom_powers l;
                                 consecutive_empty_scans := n |})
      ∨ (band_powers w c ≠ [] ∧ repeated
         ∧ captures w' = S c ∧ scroll_count s' = t - 1 ∧ flow = Break
         ∧ ∃ pre n a ps,
             events w' = pre ++ [EvLog (LogScroll t n a ps);
                                 EvLog (LogEndOfList t)]
             ∧ list_to_set ps = band w c)
      ∨ (band_powers w c ≠ [] ∧ ¬ repeated
         ∧ captures w' = S c ∧ scroll_count s' = t
         ∧ flow = Continue {| last_bottom_powers := band w c;
                              consecutive_empty_scans := 0 |})
      ∨ (band_powers w c ≠ [] ∧ ¬ repeated ∧ band w (S c) = band w c
         ∧ captures w' = S (S c) ∧ scroll_count s' = t + 1 - 2 ∧ flow = Break
         ∧ ∃ pre n a ps,
             events w' = pre ++ [EvLog (LogScroll (t + 1) n a ps);
                                 EvLog LogEndConfirmed]
             ∧ list_to_set ps = band w (S c))
      ∨ (band_powers w c ≠ [] ∧ ¬ repeated ∧ band w (S c) ≠ band w c
         ∧ captures w' = S (S c) ∧ scroll_count s' = t
         ∧ flow = Continue {| last_bottom_powers := band w (S c);
                              consecutive_empty_scans := 0 |}).
Proof.
  unfold scan_iteration. unfold bind at 1.
  destruct (scroll_list_spec down w s) as (w1 & -> & F1 & C1 & E1).
  cbn [stepped]. set (t := scroll_count s + 1).
  set (s1 := set_scroll_count t s).
  unfold bind at 1.
  destruct (scan_visible_opponents_spec true w1 s1)
    as (vis & w2 & -> & F2 & C2 & P2 & _ & l2 & E2 & L2).
  assert (Hb : band_powers w1 (captures w1) = band_powers w (captures w)).
  { rewrite C1. destruct F1 as (_ & Es & _). unfold band_powers. by rewrite Es. }
  rewrite Hb in P2.
  pose proof (power_set_band _ _ _ P2) as Hps.
  assert (R1 : registry_ok s → registry_ok s1) by done.
  destruct vis as [|o vis].
  { (* nothing read in the band *)
    unfold bind at 1. cbn [Self.log Self.world].
    destruct (2 <=? _);
      eexists _, _, _; (split; [reflexivity|]);
      (split; [etrans; [exact F1|]; etrans; [exact F2|];
               unfold same_feed; by cbn|]);
      (split; [done|]); left; cbn; split_and!; try done; try congruence;
      by eexists. }
  assert (Hne : band_powers w (captures w) ≠ []) by (by rewrite <- P2).
  rewrite Hps.
  destruct (bool_decide (last_bottom_powers l ≠ ∅)
            && bool_decide (band w (captures w) = last_bottom_powers l))
    eqn:Hrep.
  { (* the band of the previous scan again *)
    apply andb_true_iff in Hrep as [Hl%bool_decide_eq_true Hr%bool_decide_eq_true].
    destruct (L2 ltac:(done)) as (l2' & n & a & ->).
    eexists _, _, _. cbn. split; [reflexivity|].
    split; [etrans; [exact F1|]; etrans; [exact F2|];
            unfold same_feed; by cbn|].
    split; [done|]. right; left.
    split_and!; try done; try congruence; try (cbn; lia).
    exists (events w1 ++ (EvLog <$> l2')), n, a, (power <$> o :: vis).
    cbn. rewrite E2, fmap_app. cbn.
    rewrite <- !app_assoc. cbn. split; [reflexivity|].
    fold (power_set (o :: vis)). done. }
  assert (Hnrep : ¬ (last_bottom_powers l ≠ ∅
                     ∧ band w (captures w) = last_bottom_powers l)).
  { intros [Hl Hr]. apply andb_false_iff in Hrep as [Hf|Hf];
      apply bool_decide_eq_false in Hf; done. }
  clear Hrep.
  unfold bind at 1.
  destruct (add_opponents_with_dedup_spec (o :: vis) w2 s1)
    as (ext & w3 & s3 & -> & F3 & C3 & _ & _ & _ & S3 & _ & _ & _ & R3).
  destruct (Z.of_nat (length ext) =? 0).
  2:{ (* new powers *)
    eexists _, _, _. split; [reflexivity|].
    split; [feed|].
    split; [by intros ?; apply R3, R1|]. right; right; left.
    split_and!; try done; congruence. }
  unfold bind at 1.
  destruct (scroll_list_spec down w3 s3) as (w4 & -> & F4 & C4 & E4).
  cbn [stepped]. rewrite S3. cbn [scroll_count set_scroll_count s1].
  unfold bind at 1.
  match goal with |- context [scan_visible_opponents true (w4, ?x)] =>
    set (s4 := x);
    destruct (scan_visible_opponents_spec true w4 s4)
      as (vis' & w5 & -> & F5 & C5 & P5 & _ & l5 & E5 & L5) end.
  assert (F04 : same_feed w w4) by feed.
  assert (F05 : same_feed w w5) by (by etrans).
  assert (Hc4 : captures w4 = S (captures w)) by congruence.
  assert (Hb' : band_powers w4 (captures w4) = band_powers w (S (captures w))).
  { rewrite Hc4. destruct F04 as (_ & Es & _).
    unfold band_powers. by rewrite Es. }
  rewrite Hb' in P5. rewrite (power_set_band _ _ _ P5).
  assert (R4 : registry_ok s → registry_ok s4) by (intros ?; by apply R3, R1).
  case_bool_decide as Hconf.
  { (* the confirmation scan repeats the band *)
    assert (Hne' : vis' ≠ []).
    { intros ->. cbn in P5. apply (band_nonempty _ _ Hne).
      rewrite <- Hconf. unfold band. by rewrite <- P5. }
    destruct (L5 Hne') as (l5' & n & a & ->).
    eexists _, _, _. cbn. split; [reflexivity|].
    split; [etrans; [exact F05|]; unfold same_feed; by cbn|].
    split; [done|]. right; right; right; left.
    split_and!; try done; try congruence; try (cbn; lia).
    exists (events w4 ++ (EvLog <$> l5')), n, a, (power <$> vis').
    cbn. rewrite E5, fmap_app. cbn.
    rewrite <- !app_assoc. cbn. split; [reflexivity|].
    unfold band. by rewrite <- P5. }
  (* the confirmation scan shows another band *)
  unfold bind at 1. cbn [Self.modify].
  unfold bind at 1.
  match goal with |- context [add_opponents_with_dedup vis' (w5, ?x)] =>
    set (s6 := x);
    destruct (add_opponents_with_dedup_spec vis' w5 s6)
      as (ext' & w7 & s7 & -> & F7 & C7 & _ & _ & _ & S7 & _ & _ & _ & R7) end.
  eexists _, _, _. split; [reflexivity|].
  split; [by etrans|].
  split; [intros ?; by apply R7, R4|]. right; right; right; right.
  split_and!; try done; try congruence.
  rewrite S7. subst s6 s4 s1 t. cbn. lia.
Qed.


Lemma repeat_scroll_up_spec n : ∀ w s,
  ∃ w' s',
    repeatM n (_ <- scroll_list up ;; ret tt) (w, s) = (tt, (w', s'))
    ∧ same_feed w w' ∧ captures w' = captures w
    ∧ events w' = events w ++ replicate n (drag w up)
    ∧ opponents s' = opponents s ∧ known_powers s' = known_powers s
    ∧ max_scroll_reached s' = max_scroll_reached s
    ∧ current_scroll_position s' = current_scroll_position s.
Proof.
  induction n as [|n IH]; intros w s.
  - exists w, s. cbn. rewrite app_nil_r. by split_and!.
  - cbn [repeatM]. unfold bind at 1 2.
    destruct (scroll_list_spec up w s) as (w1 & -> & F1 & C1 & E1).
    unfold ret at 1.
    destruct (IH w1 (set_scroll_count (stepped up (scroll_count s)) s))
      as (w2 & s2 & -> & F2 & C2 & E2 & O2 & K2 & M2 & P2).
    exists w2, s2. split; [done|].
    split_and!; try done; try congruence; [by etrans|].
    rewrite E2, E1, (drag_same_feed _ _ _ F1), <- app_assoc. done.
Qed.

Lemma scan_top_spec w s :
  ∃ w' s',
    scan_top (w, s) = (tt, (w', s'))
    ∧ same_feed w w' ∧ captures w' = S (captures w)
    ∧ scroll_count s' = 0 ∧ registry_ok s'.
Proof.
  unfold scan_top. unfold bind at 1 2. cbn [Self.log Self.world reset Self.modify].
  unfold bind at 1.
  match goal with |- context [scan_visible_opponents false (?x, ?y)] =>
    set (w1 := x); set (s1 := y);
    destruct (scan_visible_opponents_spec false w1 s1)
      as (vis & w2 & -> & F2 & C2 & _) end.
  unfold bind at 1.
  destruct (add_opponents_with_dedup_spec vis w2 s1)
    as (ext & w3 & s3 & -> & F3 & C3 & _ & _ & _ & S3 & _ & _ & _ & R3).
  exists w3, s3. split; [done|].
  split; [transitivity w1; [by unfold same_feed|by etrans]|].
  split; [by rewrite C3, C2|]. split; [by rewrite S3|].
  apply R3. split; [constructor|done].
Qed.

Lemma scan_finish_spec w s :
  ∃ w' s' n a,
    scan_finish (w, s) = (opponents s, (w', s'))
    ∧ same_feed w w' ∧ captures w' = captures w
    ∧ events w' = events w ++ return_to_top w
                  ++ [EvLog (LogScanComplete n a (Z.max 0 (scroll_count s)))]
    ∧ opponents s' = opponents s ∧ known_powers s' = known_powers s
    ∧ scroll_count s' = 0
    ∧ max_scroll_reached s' = Z.max 0 (scroll_count s).
Proof.
  unfold scan_finish. unfold bind at 1 2 3. cbn [Self.modify Self.log Self.world].
  unfold bind at 1.
  match goal with |- context [repeatM ?n _ (?x, ?y)] =>
    set (w1 := x); set (s1 := y);
    destruct (repeat_scroll_up_spec n w1 s1)
      as (w2 & s2 & -> & F2 & C2 & E2 & O2 & K2 & M2 & P2) end.
  unfold bind, ret. cbn.
  eexists _, _, (Z.of_nat (length (opponents s))),
    (Z.of_nat (length (List.filter available (opponents s)))).
  rewrite O2. split; [reflexivity|]. cbn.
  destruct F2 as (?&?&?&?).
  split_and!; try done.
  rewrite E2, M2. subst w1 s1.
  change (drag (Env.emit _ w) up) with (drag w up).
  cbn [events Env.emit Env.set_events max_scroll_reached
       set_max_scroll_reached scroll_count set_scroll_count].
  by rewrite <- !app_assoc.
Qed.

(** The loop only runs below the ceiling. *)
Lemma scan_loop_at_ceiling fuel l st :
  Config.ARENA_MAX_SCROLL_ATTEMPTS ≤ scroll_count st.2 →
  scan_loop fuel l st = Some st.
Proof.
  intros Hc. destruct fuel; cbn [scan_loop];
    by replace (scroll_count st.2 <? _) with false by lia.
Qed.

(** Every pass that does not leave the loop moves the tracked index up by
    one. *)
Lemma scan_iteration_progress l st l' st' :
  scan_iteration l st = (Continue l', st') →
  scroll_count st'.2 = scroll_count st.2 + 1.
Proof.
  destruct st as [w s].
  destruct (scan_iteration_spec l w s) as (flow & w' & s' & -> & _ & _ & Hc).
  intros [= -> <-]. cbn.
  destruct Hc as [(_&_&?&_)|[(_&_&_&_&?&_)|[(_&_&_&?&_)|[(_&_&_&_&_&?&_)
    |(_&_&_&_&?&_)]]]]; done.
Qed.

(** The loop ends after at most as many passes as the tracked index is
    below the ceiling, whatever the screen shows. *)
Lemma scan_loop_total fuel : ∀ l w s,
  (Z.to_nat (Config.ARENA_MAX_SCROLL_ATTEMPTS - scroll_count s) ≤ fuel)%nat →
  ∃ w' s', scan_loop fuel l (w, s) = Some (w', s')
           ∧ same_feed w w' ∧ (registry_ok s → registry_ok s').
Proof.
  induction fuel as [|fuel IH]; intros l w s Hf; cbn [scan_loop snd].
  - replace (scroll_count s <? _) with false by lia. by exists w, s.
  - destruct (scroll_count s <? _) eqn:Hlt; [|by exists w, s].
    destruct (scan_iteration l (w, s)) as [[l'|] [w1 s1]] eqn:E.
    + pose proof (scan_iteration_progress _ _ _ _ E) as Hp. cbn in Hp.
      destruct (scan_iteration_spec l w s)
        as (? & ? & ? & E' & F1 & R1 & _).
      rewrite E in E'. injection E' as <- <- <-.
      destruct (IH l' w1 s1) as (w2 & s2 & -> & F2 & R2); [lia|].
      exists w2, s2. split; [done|]. split; [by etrans|]. auto.
    + destruct (scan_iteration_spec l w s)
        as (? & ? & ? & E' & F1 & R1 & _).
      rewrite E in E'. injection E' as <- <- <-.
      by exists w1, s1.
Qed.

(** More passes allowed do not change the result. *)
Lemma scan_loop_more fuel : ∀ l st r,
  scan_loop fuel l st = Some r → scan_loop (S fuel) l st = Some r.
Proof.
  induction fuel as [|fuel IH]; intros l st r.
  - cbn [scan_loop]. destruct (_ <? _); [done|]. done.
  - intros Hr. cbn [scan_loop] in Hr |- *.
    destruct (_ <? _); [|done].
    destruct (scan_iteration l st) as [[l'|] st1]; [|done].
    by apply IH.
Qed.

Lemma scan_loop_mono fuel fuel' l st r :
  (fuel ≤ fuel')%nat →
  scan_loop fuel l st = Some r → scan_loop fuel' l st = Some r.
Proof. induction 1; [done|]. intros ?. by apply scan_loop_more, IHle. Qed.


(** The loop on a feed whose bottom band [N + 1] repeats band [N]:
    [c0] is the frame of the full scan, [k] the number of bottom-band
    scans made so far. *)
Lemma scan_loop_repeat (w0 : World) (c0 N : nat) :
  (1 ≤ N)%nat →
  band w0 (c0 + N) ≠ ∅ →
  band w0 (c0 + N + 1) = band w0 (c0 + N) →
  ∀ fuel l w s k st',
    same_feed w0 w →
    captures w = (c0 + 1 + k)%nat →
    (k ≤ N)%nat →
    0 ≤ scroll_count s →
    (k = 0%nat → last_bottom_powers l = ∅) →
    ((1 ≤ k)%nat → band w0 (c0 + k) ≠ ∅ →
     last_bottom_powers l = band w0 (c0 + k)) →
    scan_loop fuel l (w, s) = Some st' →
    (captures st'.1 ≤ c0 + N + 2)%nat
    ∧ (captures st'.1 = (c0 + N + 2)%nat →
       stopped_on_repeat w0 (c0 + N + 1) st').
Proof.
  intros HN Hne Hrep.
  induction fuel as [|fuel IH]; intros l w s k st' F Hc Hk Hs H0 Hl Hloop;
    cbn [scan_loop snd] in Hloop;
    destruct (scroll_count s <? _); try done;
    try (injection Hloop as <-; cbn; split; [lia|intros ?; lia]).
  assert (Hband : ∀ j, band w j = band w0 j)
    by (intros j; by apply band_same_feed).
  assert (Hempty : ∀ j, band_powers w j = [] → band w0 j = ∅).
  { intros j Hj. rewrite <- Hband. unfold band. by rewrite Hj. }
  destruct (scan_iteration_spec l w s) as (flow & w1 & s1 & E & F1 & _ & Hcase).
  rewrite E in Hloop. cbn zeta in Hcase. rewrite Hc, !Hband in Hcase.
  assert (F01 : same_feed w0 w1) by (by etrans).
  (* the band after a non-empty band [N] that was not taken as repeated *)
  assert (Hlt : ¬ (last_bottom_powers l ≠ ∅
                   ∧ band w0 (c0 + 1 + k) = last_bottom_powers l) →
                (k < N)%nat).
  { intros Hn. destruct (decide (k = N)) as [->|]; [|lia].
    exfalso. apply Hn. rewrite (Hl HN Hne).
    split; [done|]. by replace (c0 + 1 + N)%nat with (c0 + N + 1)%nat by lia. }
  destruct Hcase as [(Hb & C1 & S1 & n & ->)
    |[(Hb & [Hr1 Hr2] & C1 & S1 & -> & pre & n & a & ps & E1 & P1)
    |[(Hb & Hn & C1 & S1 & ->)
    |[(Hb & Hn & Hconf & C1 & S1 & -> & pre & n & a & ps & E1 & P1)
    |(Hb & Hn & Hconf & C1 & S1 & ->)]]]].
  - (* empty band *)
    apply Hempty in Hb.
    assert (k ≠ N).
    { intros ->. apply Hne. rewrite <- Hrep.
      by replace (c0 + N + 1)%nat with (c0 + 1 + N)%nat by lia. }
    assert (S k ≠ N).
    { intros <-. apply Hne.
      by replace (c0 + S k)%nat with (c0 + 1 + k)%nat by lia. }
    apply (IH _ w1 s1 (S k)) in Hloop; try done; try lia.
    + intros _ Hx. exfalso. apply Hx.
      by replace (c0 + S k)%nat with (c0 + 1 + k)%nat by lia.
  - (* the previous band again *)
    injection Hloop as <-. cbn [fst snd]. split; [lia|].
    intros Hcap. assert (k = N) as -> by lia.
    exists (scroll_count s + 1), pre, n, a, ps.
    split; [by replace (c0 + N + 1)%nat with (c0 + 1 + N)%nat by lia|].
    left. split_and!; [done|cbn; lia|lia].
  - (* new powers *)
    apply Hlt in Hn.
    apply (IH _ w1 s1 (S k)) in Hloop; try done; try lia.
    + cbn. intros _ _. by replace (c0 + S k)%nat with (c0 + 1 + k)%nat by lia.
  - (* end of list confirmed *)
    apply Hlt in Hn.
    injection Hloop as <-. cbn [fst snd]. split; [lia|].
    intros Hcap. assert (S k = N) as <- by lia.
    exists (scroll_count s + 1 + 1), pre, n, a, ps.
    split; [by replace (c0 + S k + 1)%nat with (S (c0 + 1 + k)) by lia|].
    right. split_and!; [done|cbn; lia|lia].
  - (* the confirmation scan shows another band *)
    apply Hlt in Hn.
    assert (S k ≠ N).
    { intros <-. apply Hconf.
      replace (S (c0 + 1 + k)) with (c0 + S k + 1)%nat by lia.
      rewrite Hrep. by replace (c0 + S k)%nat with (c0 + 1 + k)%nat by lia. }
    apply (IH _ w1 s1 (S (S k))) in Hloop; try done; try lia.
    + cbn. intros _ _.
      by replace (c0 + S (S k))%nat with (S (c0 + 1 + k)) by lia.
Qed.


End Scanner.

Section ScannerClaims.
Context `{Cv2}.
Import OpponentScanner.

Lemma count_power_one p l :
  NoDup (power <$> l) → p ∈ power <$> l → count_power p l = 1%nat.
Proof.
  unfold count_power. induction l as [|o l IH]; cbn.
  - by intros _ ?%elem_of_nil.
  - intros [Hn Hd]%NoDup_cons [->|Hp]%elem_of_cons.
    + rewrite Z.eqb_refl. cbn. f_equal.
      assert (∀ l', power o ∉ power <$> l' →
                    List.filter (λ o', power o' =? power o) l' = []) as ->;
        [|done..].
      clear. induction l' as [|o' l' IH]; [done|]. cbn.
      intros [? ?]%not_elem_of_cons.
      destruct (power o' =? power o) eqn:E; [lia|]. by apply IH.
    + destruct (power o =? p) eqn:E.
      * apply Z.eqb_eq in E. subst p. done.
      * by apply IH.
Qed.

(** The whole of [run_full_scan]: the state after its loop, and what it
    returns from there. *)
Lemma run_full_scan_spec w s :
  ∃ w1 s1 w2 s2 w3 s3 n a,
    same_feed w w1 ∧ captures w1 = S (captures w) ∧ scroll_count s1 = 0
    ∧ scan_loop (Z.to_nat Config.ARENA_MAX_SCROLL_ATTEMPTS)
        {| last_bottom_powers := ∅; consecutive_empty_scans := 0 |} (w1, s1)
      = Some (w2, s2)
    ∧ same_feed w w2 ∧ registry_ok s2
    ∧ (∀ fuel, (Z.to_nat Config.ARENA_MAX_SCROLL_ATTEMPTS ≤ fuel)%nat →
               run_full_scan fuel (w, s) = Some (opponents s2, (w3, s3)))
    ∧ captures w3 = captures w2
    ∧ events w3 = events w2 ++ return_to_top w
                  ++ [EvLog (LogScanComplete n a (Z.max 0 (scroll_count s2)))]
    ∧ opponents s3 = opponents s2 ∧ known_powers s3 = known_powers s2
    ∧ scroll_count s3 = 0
    ∧ max_scroll_reached s3 = Z.max 0 (scroll_count s2).
Proof.
  destruct (scan_top_spec w s) as (w1 & s1 & Et & F1 & C1 & S1 & R1).
  destruct (scan_loop_total (Z.to_nat Config.ARENA_MAX_SCROLL_ATTEMPTS)
              {| last_bottom_powers := ∅; consecutive_empty_scans := 0 |}
              w1 s1) as (w2 & s2 & El & F2 & R2); [rewrite S1; lia|].
  destruct (scan_finish_spec w2 s2)
    as (w3 & s3 & n & a & Ef & F3 & C3 & E3 & O3 & K3 & S3 & M3).
  exists w1, s1, w2, s2, w3, s3, n, a.
  assert (F02 : same_feed w w2) by (by etrans).
  split_and!; try done; [by apply R2| |].
  - intros fuel Hfuel. unfold run_full_scan. rewrite Et.
    rewrite (scan_loop_mono _ _ _ _ _ Hfuel El). by rewrite Ef.
  - rewrite E3. unfold return_to_top. by rewrite (drag_same_feed _ _ _ F02).
Qed.

(** C3. A scan pass keeps at most one reading per power.  [reset] starts
    the pass with a registry in order; [add_opponents_with_dedup] keeps it
    in order and only appends readings of powers that were not known;
    adding one reading twice leaves exactly one entry of its power; and
    the registry a full scan returns has no two readings of one power. *)
Theorem registry_one_reading_per_power :
  (∀ st, registry_ok (reset st).2.2)
  ∧ (∀ new st,
       let st' := (add_opponents_with_dedup new st).2 in
       (registry_ok st.2 → registry_ok st'.2)
       ∧ ∀ o, o ∈ opponents st'.2 →
              o ∈ opponents st.2 ∨ (o ∈ new ∧ power o ∉ known_powers st.2))
  ∧ (∀ o st,
       registry_ok st.2 →
       let st1 := (add_opponents_with_dedup [o] st).2 in
       let st2 := (add_opponents_with_dedup [o] st1).2 in
       count_power (power o) (opponents st1.2) = 1%nat
       ∧ opponents st2.2 = opponents st1.2
       ∧ count_power (power o) (opponents st2.2) = 1%nat)
  ∧ (∀ st, ∃ r,
       (∀ fuel, (Z.to_nat Config.ARENA_MAX_SCROLL_ATTEMPTS ≤ fuel)%nat →
                run_full_scan fuel st = Some r)
       ∧ NoDup (power <$> r.1) ∧ registry_ok r.2.2).
Proof.
  split_and!.
  - intros [w s]. cbn. split; [constructor|done].
  - intros new [w s].
    destruct (add_opponents_with_dedup_spec new w s)
      as (ext & w' & s' & -> & _ & _ & _ & O & _ & _ & _ & X & _ & R).
    cbn. split; [done|]. intros o. rewrite O.
    intros [?|?]%elem_of_app; [by left|right; by apply X].
  - intros o [w s] Hok.
    destruct (add_opponents_with_dedup_spec [o] w s)
      as (ext & w1 & s1 & -> & _ & _ & _ & O1 & K1 & _ & _ & X1 & N1 & R1).
    cbn [snd] in *.
    destruct (add_opponents_with_dedup_spec [o] w1 s1)
      as (ext' & w2 & s2 & -> & _ & _ & _ & O2 & _ & _ & _ & X2 & _ & _).
    cbn [snd].
    assert (Hk : power o ∈ known_powers s1) by (apply N1; set_solver).
    assert (ext' = []) as ->.
    { destruct ext' as [|o' ?]; [done|]. exfalso.
      destruct (X2 o') as [->%list_elem_of_singleton ?]; [set_solver|done]. }
    rewrite app_nil_r in O2. rewrite O2.
    destruct (R1 Hok) as [Hnd Hkn].
    assert (count_power (power o) (opponents s1) = 1%nat).
    { apply count_power_one; [done|].
      rewrite Hkn in Hk. by apply elem_of_list_to_set in Hk. }
    done.
  - intros [w s].
    destruct (run_full_scan_spec w s)
      as (w1 & s1 & w2 & s2 & w3 & s3 & n & a & _ & _ & _ & _ & _ & R2 & Hr
          & _ & _ & O3 & K3 & _).
    eexists. split; [exact Hr|]. cbn.
    destruct R2 as [Hnd Hkn]. split; [done|].
    unfold registry_ok. by rewrite O3, K3.
Qed.

(** C5. [run_full_scan] returns for every feed: six passes through its
    loop are always enough, the loop is not entered at or above the
    ceiling, and every pass that does not leave the loop moves the tracked
    index up by one.  Before it returns, the scanner drags the list up as
    many times as the ceiling, and the tracked index it leaves is 0. *)
Theorem run_full_scan_terminates (st : State) :
  (∃ r,
     (∀ fuel, (Z.to_nat Config.ARENA_MAX_SCROLL_ATTEMPTS ≤ fuel)%nat →
              run_full_scan fuel st = Some r)
     ∧ scroll_count r.2.2 = 0
     ∧ ∃ pre line,
         events r.2.1 = pre ++ return_to_top st.1 ++ [EvLog line])
  ∧ (∀ fuel l st1,
       Config.ARENA_MAX_SCROLL_ATTEMPTS ≤ scroll_count st1.2 →
       scan_loop fuel l st1 = Some st1)
  ∧ (∀ l st1 l' st2,
       scan_iteration l st1 = (Continue l', st2) →
       scroll_count st2.2 = scroll_count st1.2 + 1).
Proof.
  split_and!.
  - destruct st as [w s].
    destruct (run_full_scan_spec w s)
      as (w1 & s1 & w2 & s2 & w3 & s3 & n & a & _ & _ & _ & _ & _ & _ & Hr
          & _ & E3 & _ & _ & S3 & _).
    eexists. split; [exact Hr|]. cbn [fst snd]. split; [done|].
    eexists (events w2), _. exact E3.
  - apply scan_loop_at_ceiling.
  - apply scan_iteration_progress.
Qed.

(** On a feed whose bottom band [N + 1] shows the non-empty power set
    of bottom band [N], the scan makes at most [N + 1] bottom-band scans;
    when it makes that many, the last one is logged at the tracked index
    [t] and ends the list, directly (the index is rolled back to [t - 1])
    or as a confirmation scan (rolled back to [t - 2]), and
    [max_scroll_reached] is that rolled-back index, below [t]. *)
Lemma run_full_scan_repeated_band_bound (st : State) (N : nat) :
  let c0 := captures st.1 in
  (1 ≤ N)%nat →
  band st.1 (c0 + N) ≠ ∅ →
  band st.1 (c0 + N + 1) = band st.1 (c0 + N) →
  ∃ r,
    (∀ fuel, (Z.to_nat Config.ARENA_MAX_SCROLL_ATTEMPTS ≤ fuel)%nat →
             run_full_scan fuel st = Some r)
    ∧ let scans := (captures r.2.1 - c0 - 1)%nat in
      (scans ≤ N + 1)%nat
      ∧ (scans = (N + 1)%nat →
         ∃ t pre n a ps total avail,
           list_to_set ps = band st.1 (c0 + N + 1)
           ∧ ((events r.2.1
               = pre ++ [EvLog (LogScroll t n a ps); EvLog (LogEndOfList t)]
                 ++ return_to_top st.1
                 ++ [EvLog (LogScanComplete total avail (t - 1))]
               ∧ max_scroll_reached r.2.2 = t - 1)
              ∨ (events r.2.1
                 = pre ++ [EvLog (LogScroll t n a ps); EvLog LogEndConfirmed]
                   ++ return_to_top st.1
                   ++ [EvLog (LogScanComplete total avail (t - 2))]
                 ∧ max_scroll_reached r.2.2 = t - 2))).
Proof.
  destruct st as [w s]. cbn zeta. cbn [fst]. intros HN Hne Hrep.
  destruct (run_full_scan_spec w s)
    as (w1 & s1 & w2 & s2 & w3 & s3 & n & a & F1 & C1 & S1 & El & _ & _ & Hr
        & C3 & E3 & _ & _ & _ & M3).
  destruct (scan_loop_repeat w (captures w) N HN Hne Hrep
              (Z.to_nat Config.ARENA_MAX_SCROLL_ATTEMPTS)
              {| last_bottom_powers := ∅; consecutive_empty_scans := 0 |}
              w1 s1 0%nat (w2, s2)) as [Hle Hstop];
    [done|lia|lia|lia|done|lia|exact El|].
  cbn [fst snd] in Hle, Hstop.
  eexists. split; [exact Hr|]. cbn [fst snd]. rewrite C3.
  split; [lia|]. intros Hscans.
  destruct Hstop as (t & pre & n' & a' & ps & Hps & Hend); [lia|].
  exists t, pre, n', a', ps, n, a. split; [done|].
  rewrite E3, M3. cbn [fst snd] in Hend.
  destruct Hend as [(-> & -> & ?)|(-> & -> & ?)]; [left|right];
    (split; [|lia]); rewrite <- !app_assoc; cbn [app];
    by rewrite Z.max_r by lia.
Qed.


(** A batch of readings whose powers are all known adds nothing. *)
Lemma dedup_fold_known new : ∀ s np,
  (∀ o, o ∈ new → power o ∈ known_powers s) →
  fold_left dedup_step new (s, np) = (s, np).
Proof.
  induction new as [|o new IH]; intros s np Hk; [done|].
  cbn [fold_left]. unfold dedup_step at 2.
  rewrite bool_decide_eq_false_2; [apply IH|]; set_solver.
Qed.

Lemma add_opponents_with_dedup_none new w s :
  (∀ o, o ∈ new → power o ∈ known_powers s) →
  add_opponents_with_dedup new (w, s) = (0, (w, s)).
Proof.
  intros Hk. unfold add_opponents_with_dedup, bind at 1. cbn [Self.get].
  by rewrite (dedup_fold_known new s [] Hk).
Qed.

(** A batch that holds a power not known yet adds a reading, and all its
    powers are known afterwards. *)
Lemma add_opponents_with_dedup_some new w s p :
  p ∈ power <$> new → p ∉ known_powers s →
  ∃ n w' s',
    add_opponents_with_dedup new (w, s) = (n, (w', s'))
    ∧ n ≠ 0 ∧ same_feed w w' ∧ captures w' = captures w
    ∧ scroll_count s' = scroll_count s
    ∧ known_powers s'
      = known_powers s ∪ list_to_set (power <$> new).
Proof.
  intros Hp Hn.
  destruct (add_opponents_with_dedup_spec new w s)
    as (ext & w' & s' & E & F & C & _ & _ & K & S' & _ & X & N' & _).
  assert (Hk : known_powers s'
               = known_powers s ∪ list_to_set (power <$> new)).
  { apply set_eq. intros q. rewrite K, !elem_of_union, !elem_of_list_to_set.
    split.
    - intros [?|(o & -> & Ho)%list_elem_of_fmap]; [by left|].
      right. apply list_elem_of_fmap. exists o. split; [done|]. by apply X.
    - intros [?|(o & -> & Ho)%list_elem_of_fmap]; [by left|].
      apply N' in Ho. rewrite K in Ho.
      by rewrite elem_of_union, elem_of_list_to_set in Ho. }
  exists (Z.of_nat (length ext)), w', s'. split_and!; try done.
  destruct ext as [|o ext]; [|cbn; lia].
  exfalso. apply Hn.
  assert (Hin : p ∈ known_powers s') by (rewrite Hk; set_solver).
  rewrite K in Hin. set_solver.
Qed.

(** One pass through the loop on a band that shows a power not known
    yet: the readings are added and the loop goes on. *)
Lemma scan_iteration_fresh l w s :
  (∃ p, p ∈ band w (captures w) ∧ p ∉ known_powers s) →
  ¬ (last_bottom_powers l ≠ ∅
     ∧ band w (captures w) = last_bottom_powers l) →
  ∃ w' s',
    scan_iteration l (w, s)
    = (Continue {| last_bottom_powers := band w (captures w);
                   consecutive_empty_scans := 0 |}, (w', s'))
    ∧ same_feed w w' ∧ captures w' = S (captures w)
    ∧ scroll_count s' = scroll_count s + 1
    ∧ known_powers s' = known_powers s ∪ band w (captures w).
Proof.
  intros (p & Hp & Hn) Hnrep.
  unfold scan_iteration. unfold bind at 1.
  destruct (scroll_list_spec down w s) as (w1 & -> & F1 & C1 & E1).
  cbn [stepped]. set (s1 := set_scroll_count (scroll_count s + 1) s).
  unfold bind at 1.
  destruct (scan_visible_opponents_spec true w1 s1)
    as (vis & w2 & -> & F2 & C2 & P2 & _).
  rewrite C1, (band_powers_same_feed _ _ _ F1) in P2.
  pose proof (power_set_band _ _ _ P2) as Hps.
  assert (Hpv : p ∈ power <$> vis).
  { rewrite P2. unfold band in Hp. by apply elem_of_list_to_set in Hp. }
  destruct vis as [|o vis]; [by apply elem_of_nil in Hpv|].
  rewrite Hps.
  replace (bool_decide (last_bottom_powers l ≠ ∅)
           && bool_decide (band w (captures w) = last_bottom_powers l))
    with false.
  2:{ symmetry. apply andb_false_iff.
      destruct (decide (last_bottom_powers l ≠ ∅)) as [Hl|Hl];
        [right|left]; apply bool_decide_eq_false_2; [|done].
      intros Hb. by apply Hnrep. }
  unfold bind at 1.
  destruct (add_opponents_with_dedup_some (o :: vis) w2 s1 p Hpv Hn)
    as (n & w3 & s3 & -> & Hn0 & F3 & C3 & S3 & K3).
  destruct (Z.eqb_spec n 0) as [?|_]; [done|].
  exists w3, s3. split; [done|].
  split; [etrans; [exact F1|]; by etrans|].
  split; [congruence|]. split; [by rewrite S3|].
  rewrite K3, P2. done.
Qed.

(** One pass through the loop on the band of the previous scan. *)
Lemma scan_iteration_repeated l w s :
  last_bottom_powers l ≠ ∅ →
  band w (captures w) = last_bottom_powers l →
  ∃ w' s' pre n a ps,
    scan_iteration l (w, s) = (Break, (w', s'))
    ∧ same_feed w w' ∧ captures w' = S (captures w)
    ∧ scroll_count s' = scroll_count s
    ∧ events w' = pre ++ [EvLog (LogScroll (scroll_count s + 1) n a ps);
                          EvLog (LogEndOfList (scroll_count s + 1))]
    ∧ list_to_set ps = last_bottom_powers l.
Proof.
  intros Hl Hb.
  destruct (scan_iteration_spec l w s) as (flow & w' & s' & E & F & _ & Hcase).
  cbn zeta in Hcase.
  destruct Hcase as [(He & _)
    |[(_ & _ & C1 & S1 & -> & pre & n & a & ps & E1 & P1)
    |[(_ & Hn & _)|[(_ & Hn & _)|(_ & Hn & _)]]]];
    try (exfalso; by apply Hn).
  - exfalso. apply Hl. rewrite <- Hb. unfold band. by rewrite He.
  - exists w', s', pre, n, a, ps. split_and!; try done; [lia|congruence].
Qed.

(** One pass through the loop on a band that shows nothing new and is
    shown again after one more scroll step. *)
Lemma scan_iteration_confirmed l w s :
  band w (captures w) ≠ ∅ →
  ¬ (last_bottom_powers l ≠ ∅
     ∧ band w (captures w) = last_bottom_powers l) →
  band w (captures w) ⊆ known_powers s →
  band w (S (captures w)) = band w (captures w) →
  ∃ w' s' pre n a ps,
    scan_iteration l (w, s) = (Break, (w', s'))
    ∧ same_feed w w' ∧ captures w' = S (S (captures w))
    ∧ scroll_count s' = scroll_count s
    ∧ opponents s' = opponents s ∧ known_powers s' = known_powers s
    ∧ events w' = pre ++ [EvLog (LogScroll (scroll_count s + 2) n a ps);
                          EvLog LogEndConfirmed]
    ∧ list_to_set ps = band w (captures w).
Proof.
  intros Hne Hnrep Hknown Hconf.
  unfold scan_iteration. unfold bind at 1.
  destruct (scroll_list_spec down w s) as (w1 & -> & F1 & C1 & E1).
  cbn [stepped]. set (s1 := set_scroll_count (scroll_count s + 1) s).
  unfold bind at 1.
  destruct (scan_visible_opponents_spec true w1 s1)
    as (vis & w2 & -> & F2 & C2 & P2 & _).
  rewrite C1, (band_powers_same_feed _ _ _ F1) in P2.
  pose proof (power_set_band _ _ _ P2) as Hps.
  destruct vis as [|o vis].
  { exfalso. apply Hne. unfold band. by rewrite <- P2. }
  rewrite Hps.
  replace (bool_decide (last_bottom_powers l ≠ ∅)
           && bool_decide (band w (captures w) = last_bottom_powers l))
    with false.
  2:{ symmetry. apply andb_false_iff.
      destruct (decide (last_bottom_powers l ≠ ∅)) as [Hl|Hl];
        [right|left]; apply bool_decide_eq_false_2; [|done].
      intros Hb. by apply Hnrep. }
  unfold bind at 1.
  rewrite add_opponents_with_dedup_none.
  2:{ intros o' Ho'. apply Hknown. rewrite <- Hps.
      unfold power_set. apply elem_of_list_to_set.
      apply list_elem_of_fmap. by exists o'. }
  cbn [Z.eqb]. unfold bind at 1.
  destruct (scroll_list_spec down w2 s1) as (w3 & -> & F3 & C3 & E3).
  cbn [stepped scroll_count set_scroll_count s1].
  unfold bind at 1.
  match goal with |- context [scan_visible_opponents true (w3, ?x)] =>
    set (s3 := x);
    destruct (scan_visible_opponents_spec true w3 s3)
      as (vis' & w4 & -> & F4 & C4 & P4 & _ & l4 & E4 & L4) end.
  assert (F03 : same_feed w w3) by (etrans; [exact F1|]; by etrans).
  assert (Hc3 : captures w3 = S (captures w)) by congruence.
  rewrite Hc3, (band_powers_same_feed _ _ _ F03) in P4.
  rewrite (power_set_band _ _ _ P4), Hconf.
  rewrite bool_decide_eq_true_2 by done.
  assert (Hne' : vis' ≠ []).
  { intros ->. apply Hne. rewrite <- Hconf. unfold band. by rewrite <- P4. }
  destruct (L4 Hne') as (l4' & n & a & ->).
  eexists _, _, (events w3 ++ (EvLog <$> l4')), n, a, (power <$> vis').
  cbn. split; [reflexivity|].
  split; [etrans; [exact F03|]; etrans; [exact F4|]; by unfold same_feed|].
  cbn.
  split; [congruence|]. split; [lia|]. split; [done|]. split; [done|].
  split.
  - rewrite E4, fmap_app. cbn. rewrite <- !app_assoc. cbn.
    by replace (scroll_count s + 1 + 1) with (scroll_count s + 2) by lia.
  - rewrite <- Hconf. unfold band. by rewrite <- P4.
Qed.

(** The scan of the list as it opens registers what it reads. *)
Lemma scan_top_known w s :
  ∃ w' s',
    scan_top (w, s) = (tt, (w', s'))
    ∧ same_feed w w' ∧ captures w' = S (captures w)
    ∧ scroll_count s' = 0
    ∧ known_powers s' = band w (captures w).
Proof.
  unfold scan_top. unfold bind at 1 2.
  cbn [Self.log Self.world reset Self.modify]. unfold bind at 1.
  match goal with |- context [scan_visible_opponents false (?x, ?y)] =>
    set (w1 := x); set (s1 := y);
    destruct (scan_visible_opponents_spec false w1 s1)
      as (vis & w2 & -> & F2 & C2 & P2 & _) end.
  unfold bind at 1.
  destruct (add_opponents_with_dedup_spec vis w2 s1)
    as (ext & w3 & s3 & -> & F3 & C3 & _ & _ & K3 & S3 & _ & X3 & N3 & _).
  exists w3, s3. split; [done|].
  split; [transitivity w1; [by unfold same_feed|by etrans]|].
  split; [by rewrite C3, C2|]. split; [by rewrite S3|].
  change (band_powers w1 (captures w1)) with (band_powers w (captures w)) in P2.
  unfold band. rewrite <- P2.
  apply set_eq. intros q. rewrite K3, elem_of_union, !elem_of_list_to_set.
  cbn. split.
  - intros [?%elem_of_empty|(o & -> & Ho)%list_elem_of_fmap]; [done|].
    apply list_elem_of_fmap. exists o. split; [done|]. by apply X3.
  - intros (o & -> & Ho)%list_elem_of_fmap.
    apply N3 in Ho. rewrite K3 in Ho.
    by rewrite elem_of_union, elem_of_list_to_set in Ho.
Qed.

Lemma seen_band w c0 k j : (j ≤ k)%nat → band w (c0 + j) ⊆ seen w c0 k.
Proof.
  induction k as [|k IH]; intros Hj.
  - assert (j = 0%nat) as -> by lia. by rewrite Nat.add_0_r.
  - cbn [seen]. destruct (decide (j = S k)) as [->|]; [set_solver|].
    etrans; [apply IH; lia|]. set_solver.
Qed.

(** The loop on a feed whose bands 1 to [N] each show a new power and
    whose band [N + 1] is band [N] again, after [k] passes. *)
Lemma scan_loop_fresh (w0 : World) (c0 N : nat) :
  (1 ≤ N)%nat →
  Z.of_nat N < Config.ARENA_MAX_SCROLL_ATTEMPTS →
  fresh_bands w0 c0 N →
  band w0 (c0 + N + 1) = band w0 (c0 + N) →
  ∀ j k fuel l w s,
    (k + j = N)%nat →
    (j < fuel)%nat →
    same_feed w0 w →
    captures w = (c0 + 1 + k)%nat →
    scroll_count s = Z.of_nat k →
    known_powers s = seen w0 c0 k →
    (k = 0%nat → last_bottom_powers l = ∅) →
    ((1 ≤ k)%nat → last_bottom_powers l = band w0 (c0 + k)) →
    ∃ w' s' pre n a ps,
      scan_loop fuel l (w, s) = Some (w', s')
      ∧ same_feed w0 w'
      ∧ captures w' = (c0 + N + 2)%nat
      ∧ scroll_count s' = Z.of_nat N
      ∧ events w'
        = pre ++ [EvLog (LogScroll (Z.of_nat N + 1) n a ps);
                  EvLog (LogEndOfList (Z.of_nat N + 1))]
      ∧ list_to_set ps = band w0 (c0 + N).
Proof.
  intros HN Hmax Hfresh Hrep.
  induction j as [|j IH]; intros k fuel l w s Hk Hfuel F Hc Hs Hkn H0 Hl;
    (destruct fuel as [|fuel]; [lia|]); cbn [scan_loop snd];
    (destruct (Z.ltb_spec (scroll_count s) Config.ARENA_MAX_SCROLL_ATTEMPTS);
       [|lia]).
  - (* band N + 1: band N again *)
    assert (k = N) as -> by lia.
    assert (Hlast : last_bottom_powers l = band w0 (c0 + N)) by (by apply Hl).
    assert (Hne : band w0 (c0 + N) ≠ ∅).
    { destruct (Hfresh N) as (p & Hp & _); [lia|]. set_solver. }
    destruct (scan_iteration_repeated l w s)
      as (w' & s' & pre & n & a & ps & -> & F' & C' & S' & E' & P').
    { by rewrite Hlast. }
    { rewrite (band_same_feed _ _ _ F), Hc, Hlast, <- Hrep. f_equal. lia. }
    exists w', s', pre, n, a, ps. split; [done|].
    split; [by etrans|]. split; [lia|]. split; [lia|].
    rewrite E', Hs. split; [done|]. by rewrite P'.
  - (* band k + 1 shows a new power *)
    destruct (Hfresh (S k)) as (p & Hp & Hnew); [lia|].
    replace (S k - 1)%nat with k in Hnew by lia.
    assert (Hband : band w (captures w) = band w0 (c0 + S k)).
    { rewrite (band_same_feed _ _ _ F), Hc. f_equal. lia. }
    destruct (scan_iteration_fresh l w s)
      as (w' & s' & -> & F' & C' & S' & K').
    { exists p. by rewrite Hband, Hkn. }
    { intros [Hl1 Hl2]. destruct k as [|k]; [by apply Hl1, H0|].
      rewrite Hl in Hl2 by lia. rewrite Hband in Hl2.
      apply Hnew. apply (seen_band w0 c0 (S k) (S k)); [done|].
      by rewrite <- Hl2. }
    apply (IH (S k)); try done; try lia.
    + by etrans.
    + rewrite K', Hkn, Hband. done.
Qed.

(** C4. The end of the list, as [run_full_scan] detects it.

    - A pass of the loop whose bottom band shows the non-empty power set
      of the previous bottom band ends the loop after that one scan: the
      scan is logged at the tracked index [t], the index is rolled back
      to [t - 1], and that is the depth [max_scroll_reached] is set to.
    - A pass whose bottom band is not that of the previous scan, but
      shows no power that is not yet known, scrolls once more; if the
      band is then the same again, the loop ends with the index rolled
      back by two from that of the confirmation scan, and
      [max_scroll_reached] is set to it.
    - On a feed whose bottom band [N + 1] shows the non-empty power set
      of bottom band [N], a scan makes at most [N + 1] bottom-band
      scans.  It makes exactly [N + 1] when [N] is below the ceiling and
      each of the bands 1 to [N] shows a power that no frame before it
      shows: the last scan is then logged at index [N + 1], the list is
      taken to have ended, and [max_scroll_reached] is [N]. *)
Theorem run_full_scan_stops_on_repeated_band :
  (∀ fuel l st,
     let t := scroll_count st.2 + 1 in
     0 ≤ scroll_count st.2 < Config.ARENA_MAX_SCROLL_ATTEMPTS →
     last_bottom_powers l ≠ ∅ →
     band st.1 (captures st.1) = last_bottom_powers l →
     ∃ st' pre n a ps,
       scan_loop (S fuel) l st = Some st'
       ∧ captures st'.1 = S (captures st.1)
       ∧ events st'.1
         = pre ++ [EvLog (LogScroll t n a ps); EvLog (LogEndOfList t)]
       ∧ list_to_set ps = last_bottom_powers l
       ∧ scroll_count st'.2 = t - 1
       ∧ max_scroll_reached (scan_finish st').2.2 = t - 1)
  ∧ (∀ fuel l st,
       let c := captures st.1 in
       let t := scroll_count st.2 + 1 in
       0 ≤ scroll_count st.2 < Config.ARENA_MAX_SCROLL_ATTEMPTS →
       band st.1 c ≠ ∅ →
       ¬ (last_bottom_powers l ≠ ∅ ∧ band st.1 c = last_bottom_powers l) →
       band st.1 c ⊆ known_powers st.2 →
       band st.1 (S c) = band st.1 c →
       ∃ st' pre n a ps,
         scan_loop (S fuel) l st = Some st'
         ∧ captures st'.1 = S (S c)
         ∧ events st'.1
           = pre ++ [EvLog (LogScroll (t + 1) n a ps); EvLog LogEndConfirmed]
         ∧ list_to_set ps = band st.1 c
         ∧ opponents st'.2 = opponents st.2
         ∧ scroll_count st'.2 = t + 1 - 2
         ∧ max_scroll_reached (scan_finish st').2.2 = t + 1 - 2)
  ∧ (∀ (st : State) (N : nat),
       let c0 := captures st.1 in
       (1 ≤ N)%nat →
       band st.1 (c0 + N) ≠ ∅ →
       band st.1 (c0 + N + 1) = band st.1 (c0 + N) →
       ∃ r,
         (∀ fuel, (Z.to_nat Config.ARENA_MAX_SCROLL_ATTEMPTS ≤ fuel)%nat →
                  run_full_scan fuel st = Some r)
         ∧ let scans := (captures r.2.1 - c0 - 1)%nat in
           (scans ≤ N + 1)%nat
           ∧ (scans = (N + 1)%nat →
              ∃ t pre n a ps total avail,
                list_to_set ps = band st.1 (c0 + N + 1)
                ∧ ((events r.2.1
                    = pre ++ [EvLog (LogScroll t n a ps);
                              EvLog (LogEndOfList t)]
                      ++ return_to_top st.1
                      ++ [EvLog (LogScanComplete total avail (t - 1))]
                    ∧ max_scroll_reached r.2.2 = t - 1)
                   ∨ (events r.2.1
                      = pre ++ [EvLog (LogScroll t n a ps);
                                EvLog LogEndConfirmed]
                        ++ return_to_top st.1
                        ++ [EvLog (LogScanComplete total avail (t - 2))]
                      ∧ max_scroll_reached r.2.2 = t - 2)))
           ∧ (Z.of_nat N < Config.ARENA_MAX_SCROLL_ATTEMPTS →
              fresh_bands st.1 c0 N →
              scans = (N + 1)%nat
              ∧ max_scroll_reached r.2.2 = Z.of_nat N
              ∧ ∃ pre n a ps total avail,
                  list_to_set ps = band st.1 (c0 + N)
                  ∧ events r.2.1
                    = pre ++ [EvLog (LogScroll (Z.of_nat N + 1) n a ps);
                              EvLog (LogEndOfList (Z.of_nat N + 1))]
                      ++ return_to_top st.1
                      ++ [EvLog (LogScanComplete total avail
                                   (Z.of_nat N))])).
Proof.
  split_and!.
  - intros fuel l [w s] t Hs Hl Hb. cbn [fst snd] in *.
    destruct (scan_iteration_repeated l w s Hl Hb)
      as (w' & s' & pre & n & a & ps & E & F & C & S' & Ev & P).
    exists (w', s'), pre, n, a, ps. cbn [scan_loop fst snd].
    destruct (Z.ltb_spec (scroll_count s) Config.ARENA_MAX_SCROLL_ATTEMPTS);
      [|lia].
    rewrite E. split_and!; try done; [subst t; lia|].
    destruct (scan_finish_spec w' s')
      as (w3 & s3 & ? & ? & -> & _ & _ & _ & _ & _ & _ & M3).
    cbn [snd]. rewrite M3, S'. subst t. lia.
  - intros fuel l [w s] c t Hs Hne Hnrep Hk Hconf. cbn [fst snd] in *.
    destruct (scan_iteration_confirmed l w s Hne Hnrep Hk Hconf)
      as (w' & s' & pre & n & a & ps & E & F & C & S' & O & K & Ev & P).
    exists (w', s'), pre, n, a, ps. cbn [scan_loop fst snd].
    destruct (Z.ltb_spec (scroll_count s) Config.ARENA_MAX_SCROLL_ATTEMPTS);
      [|lia].
    rewrite E. subst t.
    replace (scroll_count s + 1 + 1) with (scroll_count s + 2) by lia.
    split_and!; try done; [lia|].
    destruct (scan_finish_spec w' s')
      as (w3 & s3 & ? & ? & -> & _ & _ & _ & _ & _ & _ & M3).
    cbn [snd]. rewrite M3, S'. lia.
  - intros [w s] N c0 HN Hne Hrep. subst c0. cbn [fst] in *.
    destruct (run_full_scan_repeated_band_bound (w, s) N HN Hne Hrep)
      as (r & Hr & Hle & Hstop).
    exists r. split; [exact Hr|]. cbn zeta. split; [exact Hle|].
    split; [exact Hstop|].
    intros Hmax Hfresh.
    destruct (scan_top_known w s) as (w1 & s1 & Et & F1 & C1 & S1 & K1).
    destruct (scan_loop_fresh w (captures w) N HN Hmax Hfresh Hrep
                N 0%nat (Z.to_nat Config.ARENA_MAX_SCROLL_ATTEMPTS)
                {| last_bottom_powers := ∅; consecutive_empty_scans := 0 |}
                w1 s1)
      as (w2 & s2 & pre & n & a & ps & El & F2 & C2 & S2 & E2 & P2);
      try done; try lia.
    destruct (scan_finish_spec w2 s2)
      as (w3 & s3 & total & avail & Ef & F3 & C3 & E3 & _ & _ & _ & M3).
    assert (Hrun : run_full_scan (Z.to_nat Config.ARENA_MAX_SCROLL_ATTEMPTS)
                     (w, s) = Some (opponents s2, (w3, s3))).
    { unfold run_full_scan. by rewrite Et, El, Ef. }
    rewrite Hr in Hrun by done. injection Hrun as ->. cbn [fst snd].
    rewrite C3, C2, M3, S2. split; [lia|]. split; [lia|].
    exists pre, n, a, ps, total, avail. split; [done|].
    rewrite E3, E2, S2, <- !app_assoc. cbn [app].
    rewrite Z.max_r by lia. unfold return_to_top.
    by rewrite (drag_same_feed _ _ _ F2).
Qed.

End ScannerClaims.

(** A reading of power 5000, registered twice in an empty registry. *)
Lemma registry_one_reading_per_power_witness :
  count_power 5000
    (OpponentScanner.opponents
       (OpponentScanner.add_opponents_with_dedup [reading 5000 true 0]
          (OpponentScanner.add_opponents_with_dedup [reading 5000 true 0]
             (idle_world, OpponentScanner.init)).2).2.2)
  = 1%nat.
Proof.
  apply (proj1 (proj2 (proj2 (@registry_one_reading_per_power gray_cv2)))
           (reading 5000 true 0) (idle_world, OpponentScanner.init)).
  split; [constructor|reflexivity].
Defined.

(** A list of two opponents: 5000 as the list opens, 6000 in the first
    bottom band and again in the second. *)
Lemma run_full_scan_stops_on_repeated_band_witness :
  ∃ r, @OpponentScanner.run_full_scan gray_cv2 6
         (short_list, OpponentScanner.init) = Some r
       ∧ (captures r.2.1 - 0 - 1 = 1 + 1)%nat
       ∧ OpponentScanner.max_scroll_reached r.2.2 = 1.
Proof.
  destruct (proj2 (proj2 (@run_full_scan_stops_on_repeated_band gray_cv2))
              (short_list, OpponentScanner.init) 1%nat)
    as (r & Hr & _ & _ & Hexact).
  - cbn. lia.
  - vm_compute. discriminate.
  - vm_compute. reflexivity.
  - exists r. split; [apply Hr; vm_compute; lia|].
    destruct Hexact as (Hscans & Hmax & _).
    + by vm_compute.
    + intros k Hk. assert (k = 1%nat) as -> by lia.
      exists 6000. split.
      * apply (bool_decide_unpack _). by vm_compute.
      * apply (bool_decide_unpack _). by vm_compute.
    + split; [exact Hscans|exact Hmax].
Defined.


(** ** C10: availability of a row that cannot be sampled *)



(** ** C6: the range of the powers the parser returns *)

(** C6 fails on the primary search: a number of seven digits after the
    label is returned as it is read. *)
Lemma find_all_team_powers_above_range :
  TextRecognizer.find_all_team_powers [] "Team Power: 1,234,567"
  = [{| tp_power := 1234567; tp_y_position := 50;
        tp_raw_text := "Team Power: 1,234,567" |}]
  ∧ 999999 < 1234567.
Proof. split; [vm_compute; reflexivity|lia]. Qed.

(** ** C2: the token check *)

(** C2 fails on the tracked scroll index: with the empty-token indicator
    on screen and a free refill on offer, three scroll steps down the
    list, [ensure_arena_tokens] returns ["refilled"] and leaves
    [scroll_count] at 3; the 0 goes to a new attribute
    [current_scroll_position] that nothing reads. *)
Lemma ensure_arena_tokens_keeps_scroll_count :
  let r := @BattleSequence.ensure_arena_tokens (refill_offered, attacking) in
  r.1 = "refilled"%string
  ∧ OpponentScanner.scroll_count (BattleSequence.scanner r.2.2) = 3
  ∧ OpponentScanner.current_scroll_position (BattleSequence.scanner r.2.2)
    = Some 0.
Proof. vm_compute. done. Qed.

(** ** C7: the list-validity check *)

Lemma get_current_visible_powers_spec w s :
  ∃ w', OpponentScanner.get_current_visible_powers (w, s)
        = (band w (captures w), (w', s))
      ∧ events w' = events w.
Proof.
  unfold OpponentScanner.get_current_visible_powers,
    OpponentScanner.read_screen, bind, ret, Self.sleep, Self.world.
  cbn. eexists. split; [reflexivity|done].
Qed.

Lemma verify_list_unchanged_run expected w b :
  let visible := band w (captures w) in
  (visible ∩ expected ≠ ∅ →
   ∃ w', BattleSequence.verify_list_unchanged expected (w, b)
         = (true, (w', b)))
  ∧ (visible ∩ expected = ∅ →
     ∃ w', BattleSequence.verify_list_unchanged expected (w, b)
           = (false, (w', BattleSequence.set_list_valid false b))).
Proof.
  assert (Hb : BattleSequence.set_scanner (BattleSequence.scanner b) b = b)
    by (by destruct b).
  cbn zeta. split; intros Hov;
    unfold BattleSequence.verify_list_unchanged, bind at 1,
      BattleSequence.on_scanner;
    destruct (get_current_visible_powers_spec w (BattleSequence.scanner b))
      as (w' & -> & _);
    rewrite Hb; cbn beta zeta.
  - rewrite bool_decide_eq_true_2 by done. by eexists.
  - rewrite bool_decide_eq_false_2 by (by intros ?). by eexists.
Qed.

(** C7. [verify_list_unchanged] returns true exactly when the powers now
    visible and the expected ones have a power in common.  In that case it
    leaves the battle sequence as it was; otherwise it returns false and
    sets [list_valid] to false, leaving the rest of the cycle as it was.
    The visible powers 300, 400 meet the expected 100, 200, 300; the
    visible powers 500, 600 do not. *)
Theorem verify_list_unchanged_overlap
    (expected : gset Z) (st : BattleSequence.State) :
  let visible := band st.1 (captures st.1) in
  let r := BattleSequence.verify_list_unchanged expected st in
  (r.1 = true ↔ visible ∩ expected ≠ ∅)
  ∧ (visible ∩ expected ≠ ∅ → r.1 = true ∧ r.2.2 = st.2)
  ∧ (visible ∩ expected = ∅ →
     r.1 = false
     ∧ r.2.2 = BattleSequence.set_list_valid false st.2
     ∧ BattleSequence.list_valid r.2.2 = false)
  ∧ ({[300; 400]} ∩ {[100; 200; 300]} ≠ (∅ : gset Z)
     ∧ {[500; 600]} ∩ {[100; 200; 300]} = (∅ : gset Z)).
Proof.
  destruct st as [w b]. cbn zeta. cbn [fst snd].
  destruct (verify_list_unchanged_run expected w b) as [Hyes Hno].
  cbn zeta in Hyes, Hno.
  split_and!.
  - destruct (decide (band w (captures w) ∩ expected = ∅)) as [He|Hne].
    + destruct (Hno He) as (w' & ->). cbn. split; [done|]. by intros ?.
    + destruct (Hyes Hne) as (w' & ->). done.
  - intros Hne. by destruct (Hyes Hne) as (w' & ->).
  - intros He. by destruct (Hno He) as (w' & ->).
  - by vm_compute.
  - by vm_compute.
Qed.

(** The rows 3000 and 4000 on screen, 1000, 2000 and 3000 expected. *)
Lemma verify_list_unchanged_overlap_witness :
  (BattleSequence.verify_list_unchanged {[1000; 2000; 3000]}
     (two_rows, attacking)).1 = true.
Proof.
  apply (verify_list_unchanged_overlap {[1000; 2000; 3000]}
           (two_rows, attacking)).
  vm_compute. discriminate.
Defined.

(** ** C8: skipped targets *)

Lemma same_cycle_refl b : same_cycle b b.
Proof. by unfold same_cycle. Qed.

Lemma same_cycle_trans b1 b2 b3 :
  same_cycle b1 b2 → same_cycle b2 b3 → same_cycle b1 b3.
Proof.
  unfold same_cycle. intros (?&?&?&?&?) (?&?&?&?&?).
  split_and!; congruence.
Qed.

Lemma keeps_ret {A} (a : A) : keeps_cycle (ret a).
Proof. intros w b. apply same_cycle_refl. Qed.

Lemma keeps_bind {A B} (c : M BattleSequence.State A)
    (k : A → M BattleSequence.State B) :
  keeps_cycle c → (∀ a, keeps_cycle (k a)) → keeps_cycle (bind c k).
Proof.
  intros Hc Hk w b. unfold bind.
  specialize (Hc w b). destruct (c (w, b)) as [a [w1 b1]].
  specialize (Hk a w1 b1). by eapply same_cycle_trans.
Qed.

Lemma keeps_world {A} (c : M World A) :
  keeps_cycle (Self.world (X := BattleSequence.t) c).
Proof.
  intros w b. unfold Self.world. destruct (c w). apply same_cycle_refl.
Qed.

Lemma keeps_get : keeps_cycle (Self.get (X := BattleSequence.t)).
Proof. intros w b. apply same_cycle_refl. Qed.

Lemma keeps_on_scanner {A} (c : M OpponentScanner.State A) :
  keeps_cycle (BattleSequence.on_scanner c).
Proof.
  intros w b. unfold BattleSequence.on_scanner.
  destruct (c (w, BattleSequence.scanner b)) as [a [w1 s1]].
  by unfold same_cycle.
Qed.

Lemma keeps_modify_scanner (f : BattleSequence.t → OpponentScanner.t) :
  keeps_cycle (Self.modify (λ b, BattleSequence.set_scanner (f b) b)).
Proof. intros w b. by unfold same_cycle. Qed.

Lemma keeps_repeatM n (c : M BattleSequence.State unit) :
  keeps_cycle c → keeps_cycle (repeatM n c).
Proof.
  intros Hc. induction n as [|n IH]; [apply keeps_ret|].
  cbn [repeatM]. apply keeps_bind; [done|]. by intros _.
Qed.

(** Proves [keeps_cycle] of a method built from the others. *)
Ltac keeps :=
  repeat first
    [ apply keeps_ret
    | apply keeps_get
    | apply keeps_on_scanner
    | apply keeps_modify_scanner
    | apply (keeps_world (A := unit))
    | apply keeps_world
    | apply keeps_repeatM
    | assumption
    | apply keeps_bind; [|intros ?]
    | match goal with
      | |- keeps_cycle (if ?c then _ else _) => destruct c
      | |- keeps_cycle (match ?x with _ => _ end) => destruct x
      | |- keeps_cycle (let '(_, _) := ?x in _) => destruct x
      end ].

Section BattleClaims.
Context `{Cv2}.

Lemma keeps_ensure_arena_tokens :
  keeps_cycle BattleSequence.ensure_arena_tokens.
Proof. unfold BattleSequence.ensure_arena_tokens. keeps. Qed.

Lemma keeps_navigate_to_target target :
  keeps_cycle (BattleSequence.navigate_to_target target).
Proof. unfold BattleSequence.navigate_to_target. keeps. Qed.

Lemma keeps_click_battle_button p y :
  keeps_cycle (BattleSequence.click_battle_button p y).
Proof. unfold BattleSequence.click_battle_button. keeps. Qed.

Lemma keeps_click_start_fight :
  keeps_cycle BattleSequence.click_start_fight.
Proof. unfold BattleSequence.click_start_fight. keeps. Qed.

Lemma keeps_poll_battle_complete fuel start timeout interval :
  keeps_cycle (BattleSequence.poll_battle_complete fuel start timeout interval).
Proof.
  induction fuel as [|fuel IH]; cbn [BattleSequence.poll_battle_complete]; keeps.
Qed.

Lemma keeps_wait_for_battle_complete :
  keeps_cycle BattleSequence.wait_for_battle_complete.
Proof.
  unfold BattleSequence.wait_for_battle_complete.
  pose proof keeps_poll_battle_complete. keeps.
Qed.

Lemma keeps_return_arena_attempts n : ∀ attempt max_attempts interval,
  keeps_cycle
    (BattleSequence.return_arena_attempts n attempt max_attempts interval).
Proof.
  induction n as [|n IH]; intros; cbn [BattleSequence.return_arena_attempts];
    keeps; apply IH.
Qed.

Lemma keeps_click_return_arena :
  keeps_cycle BattleSequence.click_return_arena.
Proof.
  unfold BattleSequence.click_return_arena.
  keeps; apply keeps_return_arena_attempts.
Qed.


Lemma skip_bind_keeps {A} (c : M BattleSequence.State A)
    (k : A → M BattleSequence.State string) :
  keeps_cycle c → (∀ a, skip_advances (k a)) → skip_advances (bind c k).
Proof.
  intros Hc Hk w b. unfold bind.
  specialize (Hc w b). destruct (c (w, b)) as [a [w1 b1]]. cbn in Hc.
  intros Hs. specialize (Hk a w1 b1 Hs).
  destruct Hc as (?&?&?&?&?), Hk as (?&?&?&?&?).
  unfold advanced. split_and!; congruence.
Qed.

Lemma never_skips_advances c : never_skips c → skip_advances c.
Proof. intros Hn w b Hs. by destruct (Hn (w, b)). Qed.

Lemma never_ret (s : string) : s ≠ "skip"%string → never_skips (ret s).
Proof. by intros Hs st. Qed.

Lemma never_bind {A} (c : M BattleSequence.State A)
    (k : A → M BattleSequence.State string) :
  (∀ a, never_skips (k a)) → never_skips (bind c k).
Proof. intros Hk st. unfold bind. destruct (c st) as [a st1]. apply Hk. Qed.

Lemma skip_target_advances line :
  skip_advances (BattleSequence.skip_target line).
Proof. intros w b _. unfold advanced. cbn. split_and!; try done. lia. Qed.

(** C8. Whenever [attack_next_target] returns ["skip"], the cursor has
    moved on by exactly one target and the number of battles completed,
    the target list, the battle ceiling and the list-valid flag are as
    before: a target that fails is left behind, not tried again. *)
Theorem attack_next_target_skip_advances (st : BattleSequence.State) :
  let r := BattleSequence.attack_next_target st in
  r.1 = "skip"%string →
  BattleSequence.current_target_index r.2.2
  = S (BattleSequence.current_target_index st.2)
  ∧ BattleSequence.battles_completed r.2.2
    = BattleSequence.battles_completed st.2
  ∧ BattleSequence.sorted_targets r.2.2 = BattleSequence.sorted_targets st.2
  ∧ BattleSequence.max_battles r.2.2 = BattleSequence.max_battles st.2
  ∧ BattleSequence.list_valid r.2.2 = BattleSequence.list_valid st.2.
Proof.
  destruct st as [w b]. cbn zeta. cbn [snd].
  revert w b. change (skip_advances BattleSequence.attack_next_target).
  unfold BattleSequence.attack_next_target.
  apply skip_bind_keeps; [keeps|intros b0].
  destruct (negb _); [by apply never_skips_advances, never_ret|].
  destruct (_ !! _) as [target|];
    [|by apply never_skips_advances, never_ret].
  destruct (_ <=? _); [by apply never_skips_advances, never_ret|].
  apply skip_bind_keeps; [apply keeps_ensure_arena_tokens|intros status].
  destruct (String.eqb _ _); [by apply never_skips_advances, never_ret|].
  apply skip_bind_keeps; [keeps|intros b1].
  apply skip_bind_keeps; [keeps|intros _].
  apply skip_bind_keeps; [apply keeps_navigate_to_target|intros ok1].
  destruct (negb ok1); [apply skip_target_advances|].
  apply skip_bind_keeps; [apply keeps_click_battle_button|intros ok2].
  destruct (negb ok2); [apply skip_target_advances|].
  apply skip_bind_keeps; [keeps|intros _].
  apply skip_bind_keeps; [apply keeps_click_start_fight|intros ok3].
  destruct (negb ok3); [apply skip_target_advances|].
  apply skip_bind_keeps; [apply keeps_wait_for_battle_complete|intros ok4].
  destruct (negb ok4); [apply skip_target_advances|].
  apply skip_bind_keeps; [keeps|intros _].
  apply skip_bind_keeps; [apply keeps_click_return_arena|intros ok5].
  destruct (negb ok5); [apply skip_target_advances|].
  apply never_skips_advances.
  repeat (apply never_bind; intros ?). by apply never_ret.
Qed.

End BattleClaims.

(** The second target, expected three steps down a list that shows
    nothing: navigation fails and the target is skipped. *)
Lemma attack_next_target_skip_advances_witness :
  (@BattleSequence.attack_next_target gray_cv2 (idle_world, attacking)).1
  = "skip"%string
  ∧ BattleSequence.current_target_index
      (@BattleSequence.attack_next_target gray_cv2 (idle_world, attacking)).2.2
    = 2%nat.
Proof.
  assert (Hskip :
    (@BattleSequence.attack_next_target gray_cv2 (idle_world, attacking)).1
    = "skip"%string) by (vm_compute; reflexivity).
  split; [exact Hskip|].
  exact (proj1 (@attack_next_target_skip_advances gray_cv2
                  (idle_world, attacking) Hskip)).
Defined.

(** * Further properties of the code *)

(** ** The power parser *)

Lemma primary_step_floor results st m :
  Forall (λ r, 1000 ≤ tp_power r) (TextRecognizer.powers st) →
  Forall (λ r, 1000 ≤ tp_power r)
    (TextRecognizer.powers (TextRecognizer.primary_step results st m)).
Proof.
  intros Hst. unfold TextRecognizer.primary_step.
  destruct (Py.int _) as [p|]; [|done].
  destruct (p <? 1000) eqn:Hp; [done|].
  cbn. apply Forall_app. split; [done|]. repeat constructor. cbn. lia.
Qed.

Lemma fallback_step_floor st result :
  Forall (λ r, 1000 ≤ tp_power r) (TextRecognizer.powers st) →
  Forall (λ r, 1000 ≤ tp_power r)
    (TextRecognizer.powers (TextRecognizer.fallback_step st result)).
Proof.
  intros Hst. unfold TextRecognizer.fallback_step.
  destruct (TextRecognizer.is_4_to_6_digits _); [|done].
  destruct (Py.int _) as [p|]; [|done].
  destruct (_ && _) eqn:Hp; [|done].
  destruct (existsb _ _); [done|].
  cbn. apply Forall_app. split; [done|]. repeat constructor. cbn.
  apply andb_true_iff in Hp as [Hp _]. apply andb_true_iff in Hp as [Hp _].
  lia.
Qed.

Lemma fold_left_invariant {A B} (P : A → Prop) (f : A → B → A) (l : list B) :
  (∀ a b, P a → P (f a b)) → ∀ a, P a → P (fold_left f l a).
Proof.
  intros Hf. induction l as [|b l IH]; intros a Ha; [done|].
  cbn. by apply IH, Hf.
Qed.

(** X1. Whatever Tesseract reads, no reading that [find_all_team_powers]
    returns has a power below 1000: both the labelled search and the
    fallback over the positioned tokens reject smaller numbers. *)
Theorem find_all_team_powers_floor
    (results : list Token) (full_text : string) (r : TeamPower) :
  r ∈ TextRecognizer.find_all_team_powers results full_text →
  1000 ≤ tp_power r.
Proof.
  unfold TextRecognizer.find_all_team_powers.
  revert r. apply Forall_forall.
  apply (fold_left_invariant
           (λ st, Forall (λ r, 1000 ≤ tp_power r) (TextRecognizer.powers st))).
  { intros. by apply fallback_step_floor. }
  apply (fold_left_invariant
           (λ st, Forall (λ r, 1000 ≤ tp_power r) (TextRecognizer.powers st))).
  { intros. by apply primary_step_floor. }
  constructor.
Qed.

(** The label read over a number that is too small, next to a good row. *)
Lemma find_all_team_powers_floor_witness :
  1000 ≤ 8309.
Proof.
  apply (find_all_team_powers_floor [] "Power: 12 Team Power: 8,309"
           {| tp_power := 8309; tp_y_position := 50;
              tp_raw_text := "Team Power: 8,309" |}).
  vm_compute. apply list_elem_of_here.
Defined.

Lemma apart_snoc ys y :
  apart ys → Forall (λ a, 20 ≤ Z.abs (y - a)) ys → apart (ys ++ [y]).
Proof.
  intros Hys Hy i j a b Hij Hi Hj.
  assert (Hjl : (j < length (ys ++ [y]))%nat) by (by eapply lookup_lt_Some).
  rewrite length_app in Hjl. cbn in Hjl.
  rewrite lookup_app_l in Hi by lia.
  destruct (decide (j < length ys)%nat) as [Hlt|Hge].
  - rewrite lookup_app_l in Hj by done. exact (Hys i j a b Hij Hi Hj).
  - assert (j = length ys) as -> by lia.
    rewrite lookup_app_r, Nat.sub_diag in Hj by lia. cbn in Hj.
    injection Hj as <-.
    rewrite Forall_forall in Hy. apply Hy.
    by eapply list_elem_of_lookup_2.
Qed.

(** What the fallback loop keeps true of the local variables. *)
Lemma fallback_step_invariant results st tok :
  tok ∈ results →
  let I st :=
    Forall (λ r, 1000 ≤ tp_power r ≤ 999999 ∧ from_token results r)
      (TextRecognizer.powers st)
    ∧ NoDup (tp_power <$> TextRecognizer.powers st)
    ∧ apart (tp_y_position <$> TextRecognizer.powers st)
    ∧ (∀ r, r ∈ TextRecognizer.powers st →
            tp_power r ∈ TextRecognizer.found_powers st
            ∧ tp_y_position r ∈ TextRecognizer.used_y_positions st) in
  I st → I (TextRecognizer.fallback_step st tok).
Proof.
  intros Htok I (Hr & Hnd & Hap & Hin). unfold I.
  unfold TextRecognizer.fallback_step.
  destruct (TextRecognizer.is_4_to_6_digits _); [|done].
  destruct (Py.int _) as [p|] eqn:Hint; [|done].
  destruct (_ && _) eqn:Hp; [|done].
  destruct (existsb _ _) eqn:Hclose; [done|].
  apply andb_true_iff in Hp as [Hp Hnew].
  apply andb_true_iff in Hp as [Hlo Hhi].
  apply bool_decide_eq_true in Hnew.
  cbn [TextRecognizer.powers TextRecognizer.found_powers
       TextRecognizer.used_y_positions].
  rewrite !fmap_app. cbn [fmap list_fmap tp_power tp_y_position].
  split_and!.
  - apply Forall_app. split; [done|]. repeat constructor; cbn; [lia..|].
    by exists tok.
  - apply NoDup_app. split; [done|]. split; [|apply NoDup_singleton].
    intros q Hq ->%list_elem_of_singleton. apply Hnew.
    apply list_elem_of_fmap in Hq as (r & -> & Hr'). by apply Hin.
  - apply apart_snoc; [done|]. apply Forall_forall. intros y Hy.
    apply list_elem_of_fmap in Hy as (r & -> & Hr').
    apply Hin in Hr' as [_ Hu].
    destruct (Z.abs (tok_y tok - tp_y_position r) <? 20) eqn:Hc; [|lia].
    exfalso. apply not_true_iff_false in Hclose. apply Hclose.
    apply existsb_exists. exists (tp_y_position r). split; [|done].
    apply list_elem_of_In, elem_of_elements, Hu.
  - intros r [Hr' | ->%list_elem_of_singleton]%elem_of_app.
    + destruct (Hin r Hr'). set_solver.
    + cbn. set_solver.
Qed.

(** X2. When the label is read nowhere in the block text, the readings
    [find_all_team_powers] returns all come from bare numbers among the
    positioned tokens: each lies within 1000..999999 and carries the
    vertical position of its token, no power is returned twice, and any
    two readings are at least 20 pixels apart. *)
Theorem find_all_team_powers_fallback_only
    (results : list Token) (full_text : string) :
  Re.finditer TextRecognizer.pattern full_text = [] →
  let readings := TextRecognizer.find_all_team_powers results full_text in
  Forall (λ r, 1000 ≤ tp_power r ≤ 999999 ∧ from_token results r) readings
  ∧ NoDup (tp_power <$> readings)
  ∧ apart (tp_y_position <$> readings).
Proof.
  intros Hnone. unfold TextRecognizer.find_all_team_powers. rewrite Hnone.
  cbn [fold_left].
  set (I st :=
    Forall (λ r, 1000 ≤ tp_power r ≤ 999999 ∧ from_token results r)
      (TextRecognizer.powers st)
    ∧ NoDup (tp_power <$> TextRecognizer.powers st)
    ∧ apart (tp_y_position <$> TextRecognizer.powers st)
    ∧ (∀ r, r ∈ TextRecognizer.powers st →
            tp_power r ∈ TextRecognizer.found_powers st
            ∧ tp_y_position r ∈ TextRecognizer.used_y_positions st)).
  assert (Hfold : ∀ toks st,
            (∀ tok, tok ∈ toks → tok ∈ results) → I st →
            I (fold_left TextRecognizer.fallback_step toks st)).
  { induction toks as [|tok toks IH]; intros st Hsub Hst; [done|].
    cbn [fold_left]. apply IH; [set_solver|].
    apply fallback_step_invariant; [set_solver|done]. }
  destruct (Hfold results
              {| TextRecognizer.powers := [];
                 TextRecognizer.used_y_positions := ∅;
                 TextRecognizer.found_powers := ∅ |})
    as (H1 & H2 & H3 & _); [done| |done].
  unfold I. cbn. split_and!; [constructor|constructor| |set_solver].
  intros i j a b _ Hi. by rewrite lookup_nil in Hi.
Qed.

(** Three numbers without any label: the second is too close to the first,
    the third is kept. *)
Lemma find_all_team_powers_fallback_only_witness :
  tp_power <$> TextRecognizer.find_all_team_powers bare_numbers
                 "8,309 7777 12000"
  = [8309; 12000]
  ∧ NoDup (tp_power <$> TextRecognizer.find_all_team_powers bare_numbers
                          "8,309 7777 12000").
Proof.
  split; [by vm_compute|].
  assert (Hnone : Re.finditer TextRecognizer.pattern "8,309 7777 12000" = [])
    by (by vm_compute).
  exact (proj1 (proj2 (find_all_team_powers_fallback_only
                         bare_numbers "8,309 7777 12000" Hnone))).
Defined.

(** ** Scrolling *)

Section Scrolling.
Import OpponentScanner.

(** X3. The tracked scroll index never goes below zero: each scroll step
    returns the new index, which is at least 0 when the old one was.  A
    step down followed by a step up restores the index; a step up followed
    by a step down restores it only away from the top, and leaves 1 where
    the index was 0. *)
Theorem scroll_list_round_trip (st : State) :
  0 ≤ scroll_count st.2 →
  (∀ d, let r := scroll_list d st in
        0 ≤ r.1 ∧ scroll_count r.2.2 = r.1)
  ∧ ((_ <- scroll_list down ;; scroll_list up) st).1 = scroll_count st.2
  ∧ ((_ <- scroll_list up ;; scroll_list down) st).1
    = Z.max 1 (scroll_count st.2).
Proof.
  destruct st as [w s]. cbn [snd]. intros Hs. split_and!.
  - intros d. cbn zeta.
    destruct (scroll_list_spec d w s) as (w1 & -> & _). cbn.
    destruct d; cbn; lia.
  - unfold bind.
    destruct (scroll_list_spec down w s) as (w1 & -> & _).
    destruct (scroll_list_spec up w1
                (set_scroll_count (stepped down (scroll_count s)) s))
      as (w2 & -> & _).
    cbn. lia.
  - unfold bind.
    destruct (scroll_list_spec up w s) as (w1 & -> & _).
    destruct (scroll_list_spec down w1
                (set_scroll_count (stepped up (scroll_count s)) s))
      as (w2 & -> & _).
    cbn. lia.
Qed.

End Scrolling.

(** At the top of the list. *)
Lemma scroll_list_round_trip_witness :
  ((_ <- OpponentScanner.scroll_list up ;; OpponentScanner.scroll_list down)
     (idle_world, OpponentScanner.init)).1 = 1.
Proof.
  exact (proj2 (proj2 (scroll_list_round_trip
                         (idle_world, OpponentScanner.init) (Z.le_refl 0)))).
Defined.

Section ScrollingTo.
Import OpponentScanner.

Lemma iter_stepped_down n c : Nat.iter n (stepped down) c = c + Z.of_nat n.
Proof.
  induction n as [|n IH]; [cbn; lia|].
  rewrite Nat.iter_succ, IH. cbn [stepped]. lia.
Qed.

Lemma iter_stepped_up n c :
  0 ≤ c → Nat.iter n (stepped up) c = Z.max 0 (c - Z.of_nat n).
Proof.
  intros Hc. induction n as [|n IH]; [cbn; lia|].
  rewrite Nat.iter_succ, IH. cbn [stepped]. lia.
Qed.

Lemma iter_stepped_comm d n c :
  Nat.iter n (stepped d) (stepped d c) = stepped d (Nat.iter n (stepped d) c).
Proof.
  induction n as [|n IH]; [done|]. by rewrite !Nat.iter_succ, IH.
Qed.

(** [n] scroll steps in a row. *)
Lemma repeat_scroll_spec d n : ∀ w s,
  ∃ w',
    repeatM n (_ <- scroll_list d ;; ret tt) (w, s)
    = (tt, (w', set_scroll_count (Nat.iter n (stepped d) (scroll_count s)) s))
    ∧ same_feed w w' ∧ captures w' = captures w
    ∧ events w' = events w ++ replicate n (drag w d).
Proof.
  induction n as [|n IH]; intros w s.
  - exists w. cbn. rewrite app_nil_r. by destruct s.
  - cbn [repeatM]. unfold bind at 1 2.
    destruct (scroll_list_spec d w s) as (w1 & -> & F1 & C1 & E1).
    unfold ret at 1.
    destruct (IH w1 (set_scroll_count (stepped d (scroll_count s)) s))
      as (w2 & -> & F2 & C2 & E2).
    exists w2. cbn [scroll_count set_scroll_count].
    rewrite iter_stepped_comm, <- Nat.iter_succ. split; [done|].
    split_and!; [by etrans|congruence|].
    rewrite E2, E1, (drag_same_feed _ _ _ F1), <- app_assoc. done.
Qed.

Lemma scroll_to_position_run target_position w s :
  0 ≤ scroll_count s →
  ∃ w',
    scroll_to_position target_position (w, s)
    = ((0 <=? target_position),
       (w', set_scroll_count (Z.max 0 target_position) s))
    ∧ events w'
      = events w ++
        (if target_position =? scroll_count s then []
         else if target_position <? scroll_count s then
           EvLog (LogScrollingUp (scroll_count s - target_position)
                    target_position)
           :: replicate (Z.to_nat (scroll_count s - target_position))
                (drag w up)
         else
           EvLog (LogScrollingDown (target_position - scroll_count s)
                    target_position)
           :: replicate (Z.to_nat (target_position - scroll_count s))
                (drag w down)).
Proof.
  intros Hs.
  unfold scroll_to_position, bind at 1. cbn [Self.get].
  destruct (Z.eqb_spec target_position (scroll_count s)) as [Heq|Heq].
  - exists w. rewrite app_nil_r. split; [|done]. unfold ret. f_equal.
    + destruct (Z.leb_spec 0 target_position); first [done | lia].
    + f_equal. rewrite Z.max_r by lia. rewrite Heq. by destruct s.
  - unfold bind at 1.
    destruct (Z.ltb_spec target_position (scroll_count s)) as [Hlt|Hlt].
    + unfold bind at 1. cbn [Self.log Self.world].
      match goal with |- context [repeatM ?n _ (?x, s)] =>
        destruct (repeat_scroll_spec up n x s) as (w2 & -> & F2 & C2 & E2) end.
      exists w2. cbn. rewrite E2. cbn. rewrite iter_stepped_up by done.
      rewrite <- app_assoc. cbn.
      change (drag (Env.emit _ w) up) with (drag w up).
      split; [|done]. unfold ret. f_equal.
      * destruct (Z.leb_spec 0 target_position), (Z.eqb_spec
          (Z.max 0 (scroll_count s
                    - Z.of_nat (Z.to_nat (scroll_count s - target_position))))
          target_position); first [done | lia].
      * do 2 f_equal. lia.
    + unfold bind at 1. cbn [Self.log Self.world].
      match goal with |- context [repeatM ?n _ (?x, s)] =>
        destruct (repeat_scroll_spec down n x s) as (w2 & -> & F2 & C2 & E2) end.
      exists w2. cbn. rewrite E2. cbn. rewrite iter_stepped_down.
      rewrite <- app_assoc. cbn.
      change (drag (Env.emit _ w) down) with (drag w down).
      split; [|done]. unfold ret. f_equal.
      * destruct (Z.leb_spec 0 target_position), (Z.eqb_spec
          (scroll_count s
           + Z.of_nat (Z.to_nat (target_position - scroll_count s)))
          target_position); first [done | lia].
      * do 2 f_equal. lia.
Qed.

(** X4. From a tracked index that is not negative, [scroll_to_position]
    makes exactly as many drags as the target is away, all in one
    direction, after one log line; it does nothing when the index is
    already the target.  It ends on the target and returns [True] exactly
    when the target is not negative: a negative target leaves the index
    at 0 and returns [False]. *)
Theorem scroll_to_position_reaches (target_position : Z) (st : State) :
  0 ≤ scroll_count st.2 →
  let current := scroll_count st.2 in
  let r := scroll_to_position target_position st in
  r.1 = (0 <=? target_position)
  ∧ scroll_count r.2.2 = Z.max 0 target_position
  ∧ events r.2.1
    = events st.1 ++
      (if target_position =? current then []
       else if target_position <? current then
         EvLog (LogScrollingUp (current - target_position) target_position)
         :: replicate (Z.to_nat (current - target_position)) (drag st.1 up)
       else
         EvLog (LogScrollingDown (target_position - current) target_position)
         :: replicate (Z.to_nat (target_position - current))
              (drag st.1 down)).
Proof.
  destruct st as [w s]. cbn [fst snd]. intros Hs.
  destruct (scroll_to_position_run target_position w s Hs) as (w' & Hr & He).
  by rewrite Hr.
Qed.

End ScrollingTo.

(** Three steps down the list, asked for the top and for a position above
    the top. *)
Lemma scroll_to_position_reaches_witness :
  (OpponentScanner.scroll_to_position 0 (idle_world, scrolled_scanner)).1
  = true
  ∧ (OpponentScanner.scroll_to_position (-2) (idle_world, scrolled_scanner)).1
    = false.
Proof.
  split.
  - refine (proj1 (scroll_to_position_reaches 0
                     (idle_world, scrolled_scanner) _)). by vm_compute.
  - refine (proj1 (scroll_to_position_reaches (-2)
                     (idle_world, scrolled_scanner) _)). by vm_compute.
Defined.

(** ** Navigation to a target *)

Lemma existsb_power (t : Z) (l : list TeamPower) :
  existsb (λ p, tp_power p =? t) l = bool_decide (t ∈ tp_power <$> l).
Proof.
  induction l as [|p l IH]; [done|]. cbn. rewrite IH.
  destruct (Z.eqb_spec (tp_power p) t) as [->|Hne]; cbn.
  - symmetry. apply bool_decide_eq_true. set_solver.
  - apply bool_decide_ext. set_solver.
Qed.

Section Navigation.
Import BattleSequence.

Lemma on_scanner_scroll d w b :
  ∃ w',
    on_scanner (OpponentScanner.scroll_list d) (w, b)
    = (stepped d (OpponentScanner.scroll_count (scanner b)),
       (w', set_scanner
              (OpponentScanner.set_scroll_count
                 (stepped d (OpponentScanner.scroll_count (scanner b)))
                 (scanner b)) b))
    ∧ same_feed w w' ∧ captures w' = captures w
    ∧ events w' = events w ++ [drag w d].
Proof.
  unfold on_scanner.
  destruct (scroll_list_spec d w (scanner b)) as (w' & -> & ? & ? & ?).
  by exists w'.
Qed.

Lemma repeat_on_scanner_scroll d n : ∀ w b,
  ∃ w',
    repeatM n (_ <- on_scanner (OpponentScanner.scroll_list d) ;; ret tt)
      (w, b)
    = (tt,
       (w', set_scanner
              (OpponentScanner.set_scroll_count
                 (Nat.iter n (stepped d)
                    (OpponentScanner.scroll_count (scanner b)))
                 (scanner b)) b))
    ∧ same_feed w w' ∧ captures w' = captures w
    ∧ events w' = events w ++ replicate n (drag w d).
Proof.
  induction n as [|n IH]; intros w b.
  - exists w. cbn. rewrite app_nil_r. by destruct b as [[] ? ? ? ? ?].
  - cbn [repeatM]. unfold bind at 1 2.
    destruct (on_scanner_scroll d w b) as (w1 & -> & F1 & C1 & E1).
    unfold ret at 1.
    match goal with |- context [repeatM n _ (w1, ?y)] =>
      destruct (IH w1 y) as (w2 & -> & F2 & C2 & E2) end.
    exists w2. cbn [scanner set_scanner OpponentScanner.scroll_count
                    OpponentScanner.set_scroll_count].
    rewrite iter_stepped_comm, <- Nat.iter_succ. split; [done|].
    split_and!; [by etrans|congruence|].
    rewrite E2, E1, (drag_same_feed _ _ _ F1), <- app_assoc. done.
Qed.

Lemma on_scanner_verify p w b :
  ∃ w',
    on_scanner (OpponentScanner.verify_opponent_at_position p) (w, b)
    = (bool_decide (p ∈ band_powers w (captures w)), (w', b))
    ∧ same_feed w w' ∧ captures w' = S (captures w)
    ∧ events w' = events w.
Proof.
  unfold on_scanner, OpponentScanner.verify_opponent_at_position,
    OpponentScanner.read_screen, bind, ret, Self.world. cbn.
  eexists. rewrite existsb_power.
  split; [by destruct b as [[] ? ? ? ? ?]|]. by split_and!.
Qed.

(** The first part of [navigate_to_target]: the move to the scroll
    position of the target. *)
Lemma navigate_move (t : Z) w b :
  let c := OpponentScanner.scroll_count (scanner b) in
  0 ≤ c → 0 ≤ t →
  ∃ w',
    (if t =? c then ret tt
     else if t <? c then
       repeatM (Z.to_nat (c - t))
         (_ <- on_scanner (OpponentScanner.scroll_list up) ;; ret tt)
     else
       repeatM (Z.to_nat (t - c))
         (_ <- on_scanner (OpponentScanner.scroll_list down) ;; ret tt))
      (w, b)
    = (tt, (w', set_scanner
                  (OpponentScanner.set_scroll_count t (scanner b)) b))
    ∧ same_feed w w' ∧ captures w' = captures w.
Proof.
  intros c Hc Ht.
  destruct (Z.eqb_spec t c) as [->|Hne].
  - exists w. split; [|done]. subst c. by destruct b as [[] ? ? ? ? ?].
  - destruct (Z.ltb_spec t c).
    + destruct (repeat_on_scanner_scroll up (Z.to_nat (c - t)) w b)
        as (w' & -> & ? & ? & _).
      exists w'. split; [|done]. fold c. rewrite iter_stepped_up by done.
      do 4 f_equal. lia.
    + destruct (repeat_on_scanner_scroll down (Z.to_nat (t - c)) w b)
        as (w' & -> & ? & ? & _).
      exists w'. split; [|done]. fold c. rewrite iter_stepped_down.
      do 4 f_equal. lia.
Qed.

(** X5. [navigate_to_target], from a tracked index and for a target
    position that are not negative, looks at no more than three frames: at
    the position of the target, one step below it and one step above it.
    It returns [True] at the first of them in which the power of the
    target is read, leaving the tracked index there.  When the power is
    read in none of them it returns [False] after a last step down and the
    log line of the failure; the tracked index is then the position of the
    target again, except for a target at the top, where it is left at 1. *)
Theorem navigate_to_target_outcome (target : Opponent) (st : State) :
  let t := scroll_position target in
  let c := captures st.1 in
  let seen k := power target ∈ band_powers st.1 (c + k) in
  let r := navigate_to_target target st in
  let index := OpponentScanner.scroll_count (scanner r.2.2) in
  0 ≤ OpponentScanner.scroll_count (scanner st.2) →
  0 ≤ t →
  (r.1 = true ∧ seen 0%nat
   ∧ captures r.2.1 = (c + 1)%nat ∧ index = t)
  ∨ (r.1 = true ∧ ¬ seen 0%nat ∧ seen 1%nat
     ∧ captures r.2.1 = (c + 2)%nat ∧ index = t + 1)
  ∨ (r.1 = true ∧ ¬ seen 0%nat ∧ ¬ seen 1%nat ∧ seen 2%nat
     ∧ captures r.2.1 = (c + 3)%nat ∧ index = Z.max 0 (t - 1))
  ∨ (r.1 = false ∧ ¬ seen 0%nat ∧ ¬ seen 1%nat ∧ ¬ seen 2%nat
     ∧ captures r.2.1 = (c + 3)%nat ∧ index = Z.max 1 t
     ∧ ∃ pre, events r.2.1
              = pre ++ [drag st.1 down;
                        EvLog (LogTargetNotFound (power target))]).
Proof.
  destruct st as [w b]. intros t c seen r index Hc Ht.
  assert (Hr : r = navigate_to_target target (w, b)) by done.
  clearbody r. subst t c seen index. cbn [fst snd] in *.
  unfold navigate_to_target in Hr.
  unfold bind at 1 in Hr. cbn [Self.get] in Hr. unfold bind at 1 in Hr.
  destruct (navigate_move (scroll_position target) w b Hc Ht)
    as (w1 & Eqw1 & F1 & C1).
  rewrite Eqw1 in Hr; clear Eqw1.
  unfold bind at 1 in Hr. cbn [Self.sleep Self.world] in Hr.
  unfold bind at 1 in Hr.
  match type of Hr with context [on_scanner _ (?x, ?y)] =>
    set (w1' := x) in *; set (b1 := y) in *;
    destruct (on_scanner_verify (power target) w1' b1)
      as (w2 & Eqw2 & F2 & C2 & E2) end.
  rewrite Eqw2 in Hr; clear Eqw2.
  assert (F1' : same_feed w w1')
    by (etrans; [exact F1|by unfold same_feed]).
  assert (F02 : same_feed w w2) by (by etrans).
  change (captures w1') with (captures w1) in *.
  rewrite (band_powers_same_feed _ _ _ F1'), C1 in Hr.
  replace (captures w + 0)%nat with (captures w) by lia.
  case_bool_decide as S0.
  { left. subst r. cbn. split_and!; [done|done|lia|done]. }
  right.
  unfold bind at 1 in Hr.
  destruct (on_scanner_scroll down w2 b1) as (w3 & Eqw3 & F3 & C3 & E3).
  rewrite Eqw3 in Hr; clear Eqw3.
  unfold bind at 1 in Hr. cbn [Self.sleep Self.world] in Hr.
  unfold bind at 1 in Hr.
  match type of Hr with context [on_scanner _ (?x, ?y)] =>
    set (w3' := x) in *; set (b3 := y) in *;
    destruct (on_scanner_verify (power target) w3' b3)
      as (w4 & Eqw4 & F4 & C4 & E4) end.
  rewrite Eqw4 in Hr; clear Eqw4.
  assert (F03 : same_feed w w3') by
    (etrans; [exact F02|etrans; [exact F3|by unfold same_feed]]).
  assert (F04 : same_feed w w4) by (by etrans).
  change (captures w3') with (captures w3) in *.
  rewrite (band_powers_same_feed _ _ _ F03), C3, C2, C1 in Hr.
  replace (captures w + 1)%nat with (S (captures w)) by lia.
  case_bool_decide as S1.
  { left. subst r. cbn. split_and!; [done|done|done|lia|done]. }
  right.
  unfold bind at 1 in Hr.
  destruct (on_scanner_scroll up w4 b3) as (w5 & Eqw5 & F5 & C5 & E5).
  rewrite Eqw5 in Hr; clear Eqw5.
  unfold bind at 1 in Hr.
  match type of Hr with context [on_scanner _ (w5, ?y)] =>
    set (b5 := y) in *;
    destruct (on_scanner_scroll up w5 b5) as (w6 & Eqw6 & F6 & C6 & E6) end.
  rewrite Eqw6 in Hr; clear Eqw6.
  unfold bind at 1 in Hr. cbn [Self.sleep Self.world] in Hr.
  unfold bind at 1 in Hr.
  match type of Hr with context [on_scanner _ (?x, ?y)] =>
    set (w6' := x) in *; set (b6 := y) in *;
    destruct (on_scanner_verify (power target) w6' b6)
      as (w7 & Eqw7 & F7 & C7 & E7) end.
  rewrite Eqw7 in Hr; clear Eqw7.
  assert (F06 : same_feed w w6') by
    (etrans; [exact F04|etrans; [exact F5|etrans;
       [exact F6|by unfold same_feed]]]).
  assert (F07 : same_feed w w7) by (by etrans).
  change (captures w6') with (captures w6) in *.
  rewrite (band_powers_same_feed _ _ _ F06), C6, C5, C4, C3, C2, C1 in Hr.
  replace (captures w + 2)%nat with (S (S (captures w))) by lia.
  case_bool_decide as S2.
  { left. subst r. cbn. split_and!; [done|done|done|done|lia|lia]. }
  right.
  unfold bind at 1 in Hr.
  destruct (on_scanner_scroll down w7 b6) as (w8 & Eqw8 & F8 & C8 & E8).
  rewrite Eqw8 in Hr; clear Eqw8.
  subst r. cbn. split_and!; [done|done|done|done|lia|lia|].
  rewrite E8, (drag_same_feed _ _ _ F07), <- app_assoc. by eexists.
Qed.

End Navigation.

(** The second target of [attacking], expected three steps down a list
    on which nothing is read. *)
Lemma navigate_to_target_outcome_witness :
  (BattleSequence.navigate_to_target (reading 7000 true 3)
     (idle_world, attacking)).1 = false
  ∧ OpponentScanner.scroll_count
      (BattleSequence.scanner
         (BattleSequence.navigate_to_target (reading 7000 true 3)
            (idle_world, attacking)).2.2) = 3.
Proof.
  destruct (navigate_to_target_outcome (reading 7000 true 3)
              (idle_world, attacking))
    as [(Hr & _)|[(Hr & _)|[(Hr & _)|(Hr & _ & _ & _ & _ & Hi & _)]]];
    [by vm_compute|by vm_compute|..];
    [by vm_compute in Hr..|].
  split; [exact Hr|exact Hi].
Defined.

(** ** Waiting for a battle *)

Lemma elapsed_mono delay n : elapsed delay n ≤ elapsed delay (S n).
Proof. cbn [elapsed]. lia. Qed.

Lemma elapsed_idle delay (t : nat) :
  (∀ k, (t < k)%nat → delay k = 0%N) →
  ∀ n, (t < n)%nat → elapsed delay n = elapsed delay (S t).
Proof.
  intros Hd. induction n as [|n IH]; intros Hn; [lia|].
  destruct (decide (n = t)) as [->|Hne]; [done|].
  cbn [elapsed]. rewrite IH by lia. rewrite (Hd n) by lia. cbn [elapsed]. lia.
Qed.

Section Waiting.
Import BattleSequence.

(** The polls of [wait_for_battle_complete] when no more than [n] can
    still be made: [37 - n] failed polls, of 3.3 seconds of sleep each, lie
    between the first reading of the wall clock and the last one. *)
Lemma poll_battle_complete_spec (start : Z) : ∀ n w b,
  3300 * (37 - Z.of_nat n) ≤ wall w - start →
  (n ≤ 37)%nat →
  let found j :=
    templates w (searches w + j)%nat Config.TEMPLATE_BATTLE_COMPLETE 0.8 in
  ∃ r w' j,
    (∀ fuel, (n ≤ fuel)%nat →
       poll_battle_complete fuel start 120000 3000 (w, b)
       = (Some r, (w', b)))
    ∧ delay w' = delay w ∧ (j ≤ n)%nat
    ∧ searches w' = (searches w + j)%nat
    ∧ if r then
        (1 ≤ j)%nat ∧ found (j - 1)%nat ≠ None
        ∧ (∀ i, (i < j - 1)%nat → found i = None)
        ∧ ticks w' = (ticks w + j)%nat
        ∧ clock w' = clock w + 3300 * (Z.of_nat j - 1) + 1500
      else
        (∀ i, (i < j)%nat → found i = None)
        ∧ ticks w' = (ticks w + j + 1)%nat
        ∧ clock w' = clock w + 3300 * Z.of_nat j
        ∧ 120000 ≤ wall w' - start
        ∧ events w' = events w ++ [EvLog LogBattleTimeout].
Proof.
  induction n as [|n IH]; intros w b Hwall Hn found.
  all: pose proof (elapsed_mono (delay w) (ticks w)) as Hmono.
  all: unfold wall in Hwall.
  all: destruct (Z.ltb_spec
         (clock w + elapsed (delay w) (S (ticks w)) - start) 120000)
         as [Hlt|Hge]; [try lia|].
  (* the time is up *)
  1,3: exists false, (Env.emit (EvLog LogBattleTimeout) (Env.time w).2), 0%nat;
       (split; [intros fuel _;
                destruct fuel; cbn [poll_battle_complete]; unfold bind at 1;
                cbn [Self.now Self.world Env.time fst snd];
                destruct (Z.ltb_spec
                  (clock w + elapsed (delay w) (S (ticks w)) - start) 120000);
                first [lia | done]|]);
       cbn; unfold wall; cbn; split_and!; try done; lia.
  (* one more poll *)
  assert (Hstep : ∀ fuel,
    poll_battle_complete (S fuel) start 120000 3000 (w, b)
    = (success <- Self.world (TemplateMatcher.find_and_click
                                Config.TEMPLATE_BATTLE_COMPLETE 0.8 1000) ;;
       if success then ret (Some true)
       else
         _ <- Self.sleep 3000 ;;
         poll_battle_complete fuel start 120000 3000) ((Env.time w).2, b)).
  { intros fuel. cbn [poll_battle_complete]. unfold bind at 1.
    cbn [Self.now Self.world Env.time fst snd].
    by destruct (Z.ltb_spec
         (clock w + elapsed (delay w) (S (ticks w)) - start) 120000); [|lia]. }
  unfold bind at 1 in Hstep.
  unfold Self.world at 1, TemplateMatcher.find_and_click in Hstep.
  cbn [Env.time Env.search Env.sleep window_info searches templates snd]
    in Hstep.
  destruct (templates w (searches w) Config.TEMPLATE_BATTLE_COMPLETE 0.8)
    as [[[x y] sz]|] eqn:Ef.
  - destruct (window_info w) as [[[l t] wd] h].
    exists true. eexists. exists 1%nat. split.
    { intros [|fuel] Hf; [lia|]. rewrite Hstep. reflexivity. }
    cbn. subst found. cbn beta.
    rewrite Nat.add_0_r, Ef. split_and!; try done; lia.
  - unfold bind at 1 in Hstep.
    cbn [Self.sleep Self.world Env.sleep] in Hstep.
    match type of Hstep with
    | context [poll_battle_complete _ _ _ _ (?x, b)] =>
        destruct (IH x b) as (r & w' & j & Hrun & D & Hj & Hs & Hr);
          [unfold wall; cbn; lia|lia|]
    end.
    cbn [templates searches clock events ticks delay Env.sleep Env.time]
      in Hr, Hs, D.
    exists r, w', (S j). split.
    { intros [|fuel] Hf; [lia|]. rewrite Hstep. apply Hrun. lia. }
    split; [done|]. split; [lia|]. split; [lia|].
    subst found. cbn beta.
    assert (Hshift : ∀ i, templates w (searches w + S i)%nat
                            Config.TEMPLATE_BATTLE_COMPLETE 0.8
                          = templates w (S (searches w) + i)%nat
                              Config.TEMPLATE_BATTLE_COMPLETE 0.8).
    { intros i. f_equal. lia. }
    destruct r.
    + destruct Hr as (Hj1 & Hf & Hb & Ht & Hc).
      replace (S j - 1)%nat with (S (j - 1)) by lia.
      split_and!; [lia|by rewrite Hshift| |lia|lia].
      intros [|i] Hi; [by rewrite Nat.add_0_r|].
      rewrite Hshift. apply Hb. lia.
    + destruct Hr as (Hb & Ht & Hc & Hw & He).
      split_and!; [|lia|lia|done|done].
      intros [|i] Hi; [by rewrite Nat.add_0_r|].
      rewrite Hshift. apply Hb. lia.
Qed.

(** X6. [wait_for_battle_complete] polls at most 37 times: every poll
    that does not find the Battle Complete template is followed by 3.3
    seconds of sleep (0.3 in the search, 3 between two polls), so the wall
    clock has passed the 120 seconds after 37 of them at the latest, and
    earlier when captures and searches take time of their own.  The wait
    returns [True] at the first search that finds the template.  It
    returns [False] only when all its searches failed and the wall clock
    has moved on by 120 seconds or more since it was first read, after
    one log line; on a wall clock that only advances with the sleeps of
    the program this takes exactly 37 polls. *)
Theorem wait_for_battle_complete_polls (st : State) :
  let found j :=
    templates st.1 (searches st.1 + j)%nat
      Config.TEMPLATE_BATTLE_COMPLETE 0.8 in
  let r := wait_for_battle_complete st in
  let first_read := (Env.time st.1).1 in
  r.2.2 = st.2
  ∧ (∀ fuel, (37 ≤ fuel)%nat →
       (start_time <- Self.now ;;
        poll_battle_complete fuel start_time 120000 3000) st
       = (Some r.1, r.2))
  ∧ ∃ j, (j ≤ 37)%nat
         ∧ searches r.2.1 = (searches st.1 + j)%nat
         ∧ (r.1 = true →
              (1 ≤ j)%nat ∧ found (j - 1)%nat ≠ None
              ∧ (∀ i, (i < j - 1)%nat → found i = None)
              ∧ clock r.2.1 = clock st.1 + 3300 * (Z.of_nat j - 1) + 1500)
         ∧ (r.1 = false →
              (∀ i, (i < j)%nat → found i = None)
              ∧ clock r.2.1 = clock st.1 + 3300 * Z.of_nat j
              ∧ 120000 ≤ wall r.2.1 - first_read
              ∧ events r.2.1 = events st.1 ++ [EvLog LogBattleTimeout]
              ∧ ((∀ k, (ticks st.1 < k)%nat → delay st.1 k = 0%N) →
                 j = 37%nat)).
Proof.
  destruct st as [w b]. intros found r first_read.
  assert (Hr : r = wait_for_battle_complete (w, b)) by done. clearbody r.
  subst first_read. cbn [fst snd].
  destruct (poll_battle_complete_spec
              (Env.time w).1 37 (Env.time w).2 b)
    as (r0 & w0 & j & E0 & D0 & Hj & Hs & H0).
  { unfold wall. cbn. lia. }
  { lia. }
  cbn [templates searches clock events ticks delay Env.time fst snd]
    in H0, Hs, D0.
  assert (Hrun : ∀ fuel, (37 ≤ fuel)%nat →
    (start_time <- Self.now ;;
     poll_battle_complete fuel start_time 120000 3000) (w, b)
    = (Some r0, (w0, b))).
  { intros fuel Hf. unfold bind at 1. cbn [Self.now Self.world].
    destruct (Env.time w) as [t0 w1] eqn:Et. cbn [fst snd] in E0.
    by apply E0. }
  assert (Hr' : r = (r0, (w0, b))).
  { subst r. unfold wait_for_battle_complete.
    unfold bind at 1. cbn [Self.now Self.world].
    destruct (Env.time w) as [t0 w1] eqn:Et. cbn [fst snd] in E0.
    unfold bind at 1. by rewrite (E0 40%nat) by lia. }
  rewrite Hr'. cbn [fst snd]. split; [done|]. split; [exact Hrun|].
  exists j. split; [done|]. split; [done|]. split.
  - intros ->. destruct H0 as (? & ? & ? & _ & ?). done.
  - intros ->. destruct H0 as (Hb & Ht & Hc & Hw & He).
    split_and!; try done.
    intros Hidle. unfold wall in Hw. rewrite Hc, Ht, D0 in Hw.
    rewrite (elapsed_idle _ (ticks w) Hidle) in Hw by lia.
    lia.
Qed.

End Waiting.

(** A window that never shows the Battle Complete template, on a wall
    clock that only advances with the sleeps of the program. *)
Lemma wait_for_battle_complete_polls_witness :
  (BattleSequence.wait_for_battle_complete (idle_world, attacking)).1 = false
  ∧ searches (BattleSequence.wait_for_battle_complete
                (idle_world, attacking)).2.1 = 37%nat.
Proof.
  assert (Hf : (BattleSequence.wait_for_battle_complete
                  (idle_world, attacking)).1 = false) by (by vm_compute).
  split; [exact Hf|].
  destruct (proj2 (proj2 (wait_for_battle_complete_polls
                            (idle_world, attacking))))
    as (j & _ & Hs & _ & Hfalse).
  destruct (Hfalse Hf) as (_ & _ & _ & _ & Hj).
  rewrite Hs, (Hj (λ _ _, eq_refl)). reflexivity.
Defined.

(** ** Returning to the arena *)

Section Returning.
Import BattleSequence.

(** The last [n] of the five attempts of [click_return_arena]. *)
Lemma return_arena_attempts_spec : ∀ n w b,
  (n ≤ 5)%nat →
  let found j :=
    templates w (searches w + j)%nat Config.TEMPLATE_RETURN_ARENA 0.8 in
  ∃ r w',
    return_arena_attempts n (5 - Z.of_nat n) 5 1000 (w, b) = (r, (w', b))
    ∧ templates w' = templates w ∧ window_info w' = window_info w
    ∧ if r then
        ∃ j x y sz,
          (j < n)%nat ∧ found j = Some ((x, y), sz)
          ∧ (∀ i, (i < j)%nat → found i = None)
          ∧ searches w' = (searches w + j + 1)%nat
          ∧ clock w' = clock w + 1300 * Z.of_nat j + 2000
          ∧ events w'
            = events w ++ [EvClick ((window_info w).1.1.1 + x)
                                   ((window_info w).1.1.2 + y)]
      else
        (∀ j, (j < n)%nat → found j = None)
        ∧ searches w' = (searches w + n)%nat
        ∧ clock w' = clock w + 300 * Z.of_nat n
                     + 1000 * Z.max 0 (Z.of_nat n - 1)
        ∧ events w' = events w.
Proof.
  induction n as [|n IH]; intros w b Hn found.
  - exists false, w. cbn. split_and!; try done; [lia..].
  - cbn [return_arena_attempts]. unfold bind at 1.
    unfold Self.world at 1, TemplateMatcher.find_and_click.
    cbn [Env.search Env.sleep window_info searches templates].
    destruct (templates w (searches w) Config.TEMPLATE_RETURN_ARENA 0.8)
      as [[[x y] sz]|] eqn:Ef.
    + destruct (window_info w) as [[[l t] wd] h] eqn:Ew.
      exists true. eexists. split; [reflexivity|]. cbn.
      split; [done|]. split; [done|].
      exists 0%nat, x, y, sz. subst found. cbn beta.
      rewrite Nat.add_0_r, Ef. split_and!; try done; lia.
    + unfold bind at 1.
      replace (5 - Z.of_nat (S n) + 1) with (5 - Z.of_nat n) by lia.
      destruct (Z.ltb_spec (5 - Z.of_nat (S n)) (5 - 1)) as [Hlast|Hlast];
        cbn [Self.sleep Self.world Env.sleep ret];
        match goal with
        | |- context [return_arena_attempts n _ _ _ (?x, b)] =>
            destruct (IH x b) as (r & w' & -> & T & W & Hr); [lia|]
        end;
        cbn [templates searches clock events window_info Env.sleep] in Hr, T, W;
        exists r, w'; (split; [done|]); (split; [done|]); (split; [done|]);
        destruct r.
      all: subst found; cbn beta.
      1,3: destruct Hr as (j & x & y & sz & Hj & Hf & Hb & Hs & Hc & He);
           exists (S j), x, y, sz;
           replace (searches w + S j)%nat with (S (searches w) + j)%nat by lia;
           split_and!; [lia|done| |lia|lia|done];
           intros [|i] Hi; [by rewrite Nat.add_0_r|];
           replace (searches w + S i)%nat with (S (searches w) + i)%nat by lia;
           apply Hb; lia.
      all: destruct Hr as (Hb & Hs & Hc & He);
           split_and!; [|lia|lia|done];
           intros [|j] Hj; [by rewrite Nat.add_0_r|];
           replace (searches w + S j)%nat with (S (searches w) + j)%nat by lia;
           apply Hb; lia.
Qed.

(** X7. [click_return_arena] searches for the Return Arena template at
    most five times and clicks at the first search that finds it.  When
    the five searches all fail it returns [False] after one log line,
    having clicked nothing and slept 5.5 seconds in all: it waits between
    two attempts, not after the last. *)
Theorem click_return_arena_attempts (st : State) :
  let found j :=
    templates st.1 (searches st.1 + j)%nat Config.TEMPLATE_RETURN_ARENA 0.8 in
  let r := click_return_arena st in
  (r.1 = false →
     (∀ j, (j < 5)%nat → found j = None)
     ∧ searches r.2.1 = (searches st.1 + 5)%nat
     ∧ clock r.2.1 = clock st.1 + 5500
     ∧ events r.2.1 = events st.1 ++ [EvLog LogReturnArenaNotFound])
  ∧ (r.1 = true →
       ∃ j x y sz,
         (j < 5)%nat ∧ found j = Some ((x, y), sz)
         ∧ (∀ i, (i < j)%nat → found i = None)
         ∧ searches r.2.1 = (searches st.1 + j + 1)%nat
         ∧ clock r.2.1 = clock st.1 + 1300 * Z.of_nat j + 2000
         ∧ events r.2.1
           = events st.1 ++ [EvClick ((window_info st.1).1.1.1 + x)
                                     ((window_info st.1).1.1.2 + y)]).
Proof.
  destruct st as [w b]. intros found r.
  destruct (return_arena_attempts_spec 5 w b ltac:(lia))
    as (r0 & w0 & E0 & T0 & W0 & H0).
  assert (Hr : r = (r0, (if r0 then w0
                         else Env.emit (EvLog LogReturnArenaNotFound) w0, b))).
  { subst r. unfold click_return_arena, bind at 1.
    change (Z.to_nat 5) with 5%nat.
    change 0 with (5 - Z.of_nat 5) at 1. rewrite E0. by destruct r0. }
  rewrite Hr. cbn [fst snd]. split.
  - intros ->. destruct H0 as (? & ? & ? & He). cbn. rewrite He.
    split_and!; [done|done|lia|done].
  - intros ->. done.
Qed.

End Returning.

(** A window that never shows the Return Arena template. *)
Lemma click_return_arena_attempts_witness :
  clock (BattleSequence.click_return_arena (idle_world, attacking)).2.1
  = 5500.
Proof.
  refine (proj1 (proj2 (proj2 (proj1 (click_return_arena_attempts
                                        (idle_world, attacking)) _)))).
  by vm_compute.
Defined.

(** ** Arena tokens *)

Section Tokens.
Import BattleSequence.

(** X8. What [ensure_arena_tokens] returns is settled by its first two
    template searches.  Without the empty-token indicator it returns
    ["ok"] and does nothing.  With the indicator it clicks 20 pixels left
    of the indicator's left edge; when the free-token button is then not
    found it presses Escape and returns ["no_tokens"]; when the button is
    found it returns ["refilled"], whether or not the third search, the
    one that clicks the button, finds it again.  In every case the fields
    of the battle sequence other than its scanner are as before. *)
Theorem ensure_arena_tokens_outcomes (st : State) :
  let w := st.1 in
  let '(left_, top_, _, _) := window_info w in
  let r := ensure_arena_tokens st in
  same_cycle st.2 r.2.2
  ∧ match templates w (searches w) Config.TEMPLATE_EMPTY_ATOKENS 0.98 with
    | None =>
        r.1 = "ok"%string ∧ r.2.2 = st.2 ∧ events r.2.1 = events w
        ∧ searches r.2.1 = S (searches w)
    | Some ((x, y), (width, _)) =>
        let plus := EvClick (left_ + x + (- (width / 2) - 20)) (top_ + y + 0) in
        match templates w (S (searches w)) Config.TEMPLATE_FREE_ATOKENS 0.8 with
        | None =>
            r.1 = "no_tokens"%string ∧ r.2.2 = st.2
            ∧ searches r.2.1 = S (S (searches w))
            ∧ events r.2.1
              = events w ++ [EvLog LogEmptyTokens; plus;
                             EvLog LogNoFreeTokens; EvPress "escape"]
        | Some _ =>
            r.1 = "refilled"%string
            ∧ searches r.2.1 = S (S (S (searches w)))
            ∧ events r.2.1
              = events w ++ [EvLog LogEmptyTokens; plus] ++
                match templates w (S (S (searches w)))
                        Config.TEMPLATE_FREE_ATOKENS 0.8 with
                | Some ((x', y'), _) => [EvClick (left_ + x') (top_ + y')]
                | None => []
                end ++ [EvLog LogRefilled]
        end
    end.
Proof.
  destruct st as [w b]. cbn [fst snd].
  destruct (window_info w) as [[[l t] wd] h] eqn:Ew.
  split; [apply keeps_ensure_arena_tokens|].
  unfold ensure_arena_tokens, bind, ret, Self.world, Self.log, Self.act,
    Self.sleep, Self.modify, TemplateMatcher.find_template,
    TemplateMatcher.click_at_offset, TemplateMatcher.find_and_click.
  cbn.
  destruct (templates w (searches w) Config.TEMPLATE_EMPTY_ATOKENS 0.98)
    as [[[x y] [width height]]|]; [|done].
  rewrite Ew. cbn.
  destruct (templates w (S (searches w)) Config.TEMPLATE_FREE_ATOKENS 0.8)
    as [free|]; cbn.
  - destruct (templates w (S (S (searches w))) Config.TEMPLATE_FREE_ATOKENS 0.8)
      as [[[x' y'] ?]|]; cbn; rewrite ?Ew; cbn;
      rewrite <- ?app_assoc; done.
  - rewrite <- ?app_assoc. done.
Qed.

End Tokens.

(** ** One attack *)

Lemma attacks_bind {A} (c : M BattleSequence.State A)
    (k : A → M BattleSequence.State string) :
  keeps_cycle c → (∀ a, attacks (k a)) → attacks (bind c k).
Proof.
  intros Hc Hk w b. unfold bind.
  specialize (Hc w b). destruct (c (w, b)) as [a [w1 b1]]. cbn in Hc.
  specialize (Hk a w1 b1). cbn zeta in *.
  destruct Hc as (?&?&?&?&?).
  destruct Hk as [[? (?&?&?&?&?)]|[[? (?&?&?&?&?)]|[? (?&?&?&?&?&?)]]];
    [left|right; left|right; right]; (split; [done|]);
    unfold same_cycle, advanced, won; split_and!; congruence.
Qed.

Lemma attacks_skip_target line : attacks (BattleSequence.skip_target line).
Proof.
  intros w b. right. left. split; [done|].
  unfold advanced. cbn. split_and!; try done. lia.
Qed.

Section Attack.
Context `{Cv2}.
Import BattleSequence.

(** [attack_next_target] once the three guards have let it through. *)
Lemma attack_next_target_spec w b :
  let r := attack_next_target (w, b) in
  (list_valid b = false ∧ r = ("list_invalid"%string, (w, b)))
  ∨ (list_valid b = true
     ∧ sorted_targets b !! current_target_index b = None
     ∧ r = ("no_more"%string, (w, b)))
  ∨ (list_valid b = true
     ∧ is_Some (sorted_targets b !! current_target_index b)
     ∧ max_battles b ≤ battles_completed b
     ∧ r = ("max_reached"%string, (w, b)))
  ∨ (list_valid b = true
     ∧ is_Some (sorted_targets b !! current_target_index b)
     ∧ battles_completed b < max_battles b
     ∧ ((r.1 = "no_tokens"%string ∧ same_cycle b r.2.2)
        ∨ (r.1 = "skip"%string ∧ advanced b r.2.2)
        ∨ (r.1 = "success"%string ∧ won b r.2.2))).
Proof.
  intros r. assert (Hr : r = attack_next_target (w, b)) by done.
  clearbody r. unfold attack_next_target in Hr.
  unfold bind at 1 in Hr. cbn [Self.get] in Hr.
  destruct (list_valid b) eqn:Hv; cbn [negb] in Hr; [|by left].
  right.
  destruct (sorted_targets b !! current_target_index b) as [target|] eqn:Ht;
    [|by left].
  right.
  destruct (Z.leb_spec (max_battles b) (battles_completed b)); [by left|].
  right. split_and!; [done|done|done|].
  match type of Hr with _ = ?c (w, b) =>
    assert (Hc : attacks c); [clear|rewrite Hr; apply Hc]
  end.
  apply attacks_bind; [apply keeps_ensure_arena_tokens|intros status].
  destruct (String.eqb _ _); [intros w b; by left|].
  apply attacks_bind; [keeps|intros b1].
  apply attacks_bind; [keeps|intros _].
  apply attacks_bind; [apply keeps_navigate_to_target|intros ok1].
  destruct (negb ok1); [apply attacks_skip_target|].
  apply attacks_bind; [apply keeps_click_battle_button|intros ok2].
  destruct (negb ok2); [apply attacks_skip_target|].
  apply attacks_bind; [keeps|intros _].
  apply attacks_bind; [apply keeps_click_start_fight|intros ok3].
  destruct (negb ok3); [apply attacks_skip_target|].
  apply attacks_bind; [apply keeps_wait_for_battle_complete|intros ok4].
  destruct (negb ok4); [apply attacks_skip_target|].
  apply attacks_bind; [keeps|intros _].
  apply attacks_bind; [apply keeps_click_return_arena|intros ok5].
  destruct (negb ok5); [apply attacks_skip_target|].
  intros w b. right. right. split; [done|].
  unfold won. cbn. split_and!; try done. lia.
Qed.

End Attack.

Section AttackOutcomes.
Context `{Cv2}.
Import BattleSequence.

(** X9. The three guards of [attack_next_target] are taken in order: a
    list flagged as changed gives ["list_invalid"]; otherwise a cursor
    past the last target gives ["no_more"]; otherwise a battle count at
    or above the ceiling gives ["max_reached"].  An attack that returns
    one of these three words has done nothing at all: no search, no
    click, no log line, no field changed. *)
Theorem attack_next_target_guards (st : State) :
  let r := attack_next_target st in
  let b := st.2 in
  (list_valid b = false → r = ("list_invalid"%string, st))
  ∧ (list_valid b = true →
     (length (sorted_targets b) ≤ current_target_index b)%nat →
     r = ("no_more"%string, st))
  ∧ (list_valid b = true →
     (current_target_index b < length (sorted_targets b))%nat →
     max_battles b ≤ battles_completed b →
     r = ("max_reached"%string, st))
  ∧ (r.1 = "list_invalid"%string ∨ r.1 = "no_more"%string
     ∨ r.1 = "max_reached"%string →
     r.2 = st).
Proof.
  destruct st as [w b]. intros r b'. subst b'. cbn [snd].
  pose proof (attack_next_target_spec w b) as Hs. cbn zeta in Hs. fold r in Hs.
  split_and!.
  - intros Hv.
    destruct Hs as [(_ & ?)|[(? & _)|[(? & _)|(? & _)]]]; [done|congruence..].
  - intros Hv Hi. apply lookup_ge_None_2 in Hi.
    destruct Hs as [(? & _)|[(_ & _ & ?)|[(_ & [? ?] & _)|(_ & [? ?] & _)]]];
      [congruence|done|congruence..].
  - intros Hv Hi Hm. apply lookup_lt_is_Some_2 in Hi.
    destruct Hs as [(? & _)|[(_ & ? & _)|[(_ & _ & _ & ?)|(_ & _ & ? & _)]]];
      [congruence| |done|lia].
    destruct Hi. congruence.
  - intros Hr.
    destruct Hs as [(_ & ->)|[(_ & _ & ->)|[(_ & _ & _ & ->)
      |(_ & _ & _ & [(E & _)|[(E & _)|(E & _)]])]]]; [done..| | |];
      rewrite E in Hr; by destruct Hr as [?|[?|?]].
Qed.

(** X10. An attack that returns ["success"] started with a valid list, a
    cursor on a target and a battle count below the ceiling.  It has
    moved the cursor and the battle count on by one each, it has reset
    the tracked scroll index of the scanner to 0, and it has left the
    target list, the ceiling and the list-valid flag as they were: the
    battle count stays at or below the ceiling. *)
Theorem attack_next_target_success (st : State) :
  let r := attack_next_target st in
  r.1 = "success"%string →
  list_valid st.2 = true
  ∧ (current_target_index st.2 < length (sorted_targets st.2))%nat
  ∧ battles_completed st.2 < max_battles st.2
  ∧ won st.2 r.2.2
  ∧ battles_completed r.2.2 ≤ max_battles r.2.2.
Proof.
  destruct st as [w b]. intros r Hr. cbn [snd].
  pose proof (attack_next_target_spec w b) as Hs. cbn zeta in Hs. fold r in Hs.
  destruct Hs as [(_ & E)|[(_ & _ & E)|[(_ & _ & _ & E)
    |(Hv & Hi & Hm & [(E & _)|[(E & _)|(_ & Hw)]])]]];
    try (rewrite E in Hr; done).
  apply lookup_lt_is_Some_1 in Hi.
  split_and!; try done.
  destruct Hw as (_ & -> & _ & -> & _). lia.
Qed.

End AttackOutcomes.

(** The state [mid_cycle], whose list is flagged as changed. *)
Lemma attack_next_target_guards_witness :
  @BattleSequence.attack_next_target gray_cv2 (idle_world, mid_cycle)
  = ("list_invalid"%string, (idle_world, mid_cycle)).
Proof.
  exact (proj1 (@attack_next_target_guards gray_cv2 (idle_world, mid_cycle))
           eq_refl).
Defined.

(** The only target, in a window where every step goes through. *)
Lemma attack_next_target_success_witness :
  BattleSequence.battles_completed
    (@BattleSequence.attack_next_target gray_cv2 (winning, one_target)).2.2
  = 1.
Proof.
  assert (Hs :
    (@BattleSequence.attack_next_target gray_cv2 (winning, one_target)).1
    = "success"%string) by (by vm_compute).
  exact (proj1 (proj2 (proj1 (proj2 (proj2 (proj2
           (@attack_next_target_success gray_cv2 (winning, one_target) Hs))))))).
Defined.

(** ** The attack phase *)

Lemma progressed_refl b : progressed b b.
Proof. unfold progressed. split_and!; try done; lia. Qed.

Lemma progressed_same_cycle b b' : same_cycle b b' → progressed b b'.
Proof.
  intros (E1 & E2 & E3 & E4 & E5). unfold progressed.
  rewrite E1, E2, E3, E4. split_and!; try done; lia.
Qed.

Lemma progressed_trans b1 b2 b3 :
  progressed b1 b2 → progressed b2 b3 → progressed b1 b3.
Proof.
  unfold progressed.
  intros (E1 & E2 & E3 & E4 & E5 & E6) (F1 & F2 & F3 & F4 & F5 & F6).
  rewrite E1, E2 in *. split_and!; try congruence; try lia; auto.
Qed.

Section AttackPhase.
Context `{Cv2} (stop_check : option (World → bool)).
Import BattleSequence.

Lemma should_stop_run w b :
  should_stop stop_check (w, b)
  = (match stop_check with Some f => f w | None => false end, (w, b)).
Proof. unfold should_stop. by destruct stop_check. Qed.

Lemma _log_attack_result_run result w b :
  ∃ w', _log_attack_result result (w, b) = (tt, (w', b)).
Proof.
  unfold _log_attack_result.
  destruct (String.eqb _ _); [by eexists|].
  destruct (String.eqb _ _); by eexists.
Qed.

(** The loop of [run_attack_phase] with at most [n] targets left. *)
Lemma attack_loop_spec : ∀ n w b,
  (targets_left b ≤ n)%nat →
  ∃ result w' b',
    (∀ fuel, (n < fuel)%nat →
       attack_loop stop_check fuel (w, b) = (Some result, (w', b')))
    ∧ progressed b b'
    ∧ result ∈ last_words
    ∧ (stop_check = None → result ≠ "stopped"%string)
    ∧ (result = "no_more"%string →
       (length (sorted_targets b') ≤ current_target_index b')%nat).
Proof.
  induction n as [|n IH]; intros w b Hn.
  all: pose proof (should_stop_run w b) as Hstop.
  all: destruct (match stop_check with Some f => f w | None => false end)
         eqn:Estop.
  1,3: exists "stopped"%string, (Env.emit (EvLog LogStoppedByUser) w), b;
       split; [intros [|fuel] Hf; [lia|];
               cbn [attack_loop]; unfold bind at 1; by rewrite Hstop|];
       split; [apply progressed_refl|];
       split; [unfold last_words; set_solver|];
       split; [by intros ->|done].
  all: pose proof (attack_next_target_spec w b) as Hs; cbn zeta in Hs.
  all: destruct (attack_next_target (w, b)) as [res [w1 b1]] eqn:Ea.
  all: cbn [fst snd] in Hs.
  all: assert (Hstep : ∀ fuel,
         attack_loop stop_check (S fuel) (w, b)
         = (if stop_condition res then
              _ <- _log_attack_result res ;; ret (Some res)
            else attack_loop stop_check fuel) (w1, b1))
       by (intros fuel; cbn [attack_loop]; unfold bind at 1;
           rewrite Hstop; unfold bind at 1; by rewrite Ea).
  all: destruct Hs as [(Hv & E)|[(Hv & Hi & E)|[(Hv & Hi & Hm & E)
         |(Hv & Hi & Hm & [(E & Hc)|[(E & Hc)|(E & Hc)]])]]].
  all: try (injection E as -> -> ->).
  all: try subst res.
  (* the four words that end the loop *)
  1-4,7-10:
    match type of Hstep with
    | context [(if stop_condition ?r then _ else _) (?x, ?y)] =>
      destruct (_log_attack_result_run r x y) as (w2 & El);
      eexists r, w2, y;
      (split; [intros [|fuel] Hf; [lia|]; rewrite Hstep;
               change (stop_condition r) with true; cbv iota;
               unfold bind; by rewrite El|])
    end;
    (split; [first [apply progressed_refl | by apply progressed_same_cycle]|]);
    (split; [unfold last_words; set_solver|]);
    (split; [done|]);
    first [done | intros _; by apply lookup_ge_None_1].
  (* no target left, yet a target under the cursor *)
  1,2: exfalso; apply lookup_lt_is_Some_1 in Hi; unfold targets_left in Hn;
       lia.
  (* a target skipped or won: the loop goes on *)
  all: apply lookup_lt_is_Some_1 in Hi.
  all: assert (Hp : progressed b b1) by
         (unfold progressed; first
            [ destruct Hc as (-> & -> & -> & -> & _)
            | destruct Hc as (-> & -> & -> & -> & _ & _) ];
          split_and!; try done; lia).
  all: destruct (IH w1 b1) as (result & w' & b' & Hrun & Hp' & Hw & Hn' & Hm');
         [unfold targets_left in *; destruct Hp as (-> & _);
          first [ destruct Hc as (-> & _) ]; lia|].
  all: exists result, w', b';
       (split; [intros [|fuel] Hf; [lia|]; rewrite Hstep;
                match goal with |- context [stop_condition ?r] =>
                  change (stop_condition r) with false end;
                cbv iota; apply Hrun; lia|]);
       (split; [by eapply progressed_trans|]); done.
Qed.

End AttackPhase.

Section AttackPhaseRuns.
Context `{Cv2} (stop_check : option (World → bool)).
Import BattleSequence.

Lemma attack_next_target_progressed w b :
  progressed b (attack_next_target (w, b)).2.2.
Proof.
  pose proof (attack_next_target_spec w b) as Hs. cbn zeta in Hs.
  destruct Hs as [(_ & ->)|[(_ & _ & ->)|[(_ & _ & _ & ->)
    |(_ & Hi & Hm & [(_ & Hc)|[(_ & Hc)|(_ & Hc)]])]]];
    try apply progressed_refl; [by apply progressed_same_cycle|..];
    apply lookup_lt_is_Some_1 in Hi; unfold progressed.
  - destruct Hc as (-> & -> & -> & -> & _). split_and!; try done; lia.
  - destruct Hc as (-> & -> & -> & -> & _ & _). split_and!; try done; lia.
Qed.

(** The whole of [run_attack_phase]. *)
Lemma run_attack_phase_spec single_attack w b :
  ∃ out w' b',
    (∀ fuel, (targets_left b < fuel)%nat →
       run_attack_phase stop_check fuel single_attack (w, b)
       = (Some out, (w', b')))
    ∧ progressed b b'
    ∧ match sorted_targets b with
      | [] =>
          out = (true, None) ∧ b' = b
          ∧ events w' = events w ++ [EvLog LogNoOpponentsToAttack]
      | _ :: _ =>
          ∃ result pre,
            out = (negb (String.eqb result "no_tokens"
                         || String.eqb result "stopped"), Some result)
            ∧ events w' = pre ++ [EvLog (LogPhaseDone (battles_completed b'))]
            ∧ (single_attack = false →
               result ∈ last_words
               ∧ (stop_check = None → result ≠ "stopped"%string)
               ∧ (result = "no_more"%string →
                  (length (sorted_targets b') ≤ current_target_index b')%nat))
      end.
Proof.
  unfold run_attack_phase. unfold bind at 1. cbn [Self.get].
  destruct (sorted_targets b) as [|o l] eqn:Et.
  { eexists _, _, b. split; [intros fuel _; reflexivity|].
    split; [apply progressed_refl|]. by cbn. }
  unfold bind at 1. cbn [Self.log Self.world].
  set (w0 := Env.emit _ w).
  destruct single_attack.
  - pose proof (attack_next_target_progressed w0 b) as Hp.
    destruct (attack_next_target (w0, b)) as [res [w1 b1]] eqn:Ea.
    destruct (_log_attack_result_run res w1 b1) as (w2 & El).
    eexists _, _, b1. split.
    { intros fuel _. unfold bind at 1. unfold bind at 1. rewrite Ea.
      unfold bind at 1. rewrite El. unfold ret at 1.
      unfold bind, ret, _log_phase_complete, Self.get, Self.log, Self.world.
      reflexivity. }
    split; [done|]. exists res, (events w2). split; [done|]. by split.
  - destruct (attack_loop_spec stop_check (targets_left b) w0 b)
      as (result & w1 & b1 & Hrun & Hp & Hw & Hn & Hm); [done|].
    eexists _, _, b1. split.
    { intros fuel Hf. unfold bind at 1. rewrite (Hrun fuel Hf).
      unfold bind, ret, _log_phase_complete, Self.get, Self.log, Self.world.
      reflexivity. }
    split; [done|]. exists result, (events w1). split; [done|]. by split.
Qed.

(** X11. [run_attack_phase] comes to an end whatever the screen shows
    and whatever the stop check answers: its loop makes at most one pass
    more than there are targets left.  It leaves the target list and the
    battle ceiling as they are, never moves the cursor back nor past the
    end of the list, fights no more battles than it passes targets, and
    keeps the number of battles within the ceiling. *)
Theorem run_attack_phase_ends (single_attack : bool) (st : State) :
  ∃ r,
    (∀ fuel, (targets_left st.2 < fuel)%nat →
       run_attack_phase stop_check fuel single_attack st = (Some r.1, r.2))
    ∧ sorted_targets r.2.2 = sorted_targets st.2
    ∧ max_battles r.2.2 = max_battles st.2
    ∧ (current_target_index st.2 ≤ current_target_index r.2.2)%nat
    ∧ ((current_target_index st.2 ≤ length (sorted_targets st.2))%nat →
       (current_target_index r.2.2 ≤ length (sorted_targets st.2))%nat)
    ∧ 0 ≤ battles_completed r.2.2 - battles_completed st.2
        ≤ Z.of_nat (current_target_index r.2.2 - current_target_index st.2)
    ∧ (battles_completed st.2 ≤ max_battles st.2 →
       battles_completed r.2.2 ≤ max_battles st.2).
Proof.
  destruct st as [w b].
  destruct (run_attack_phase_spec single_attack w b)
    as (out & w' & b' & Hrun & Hp & _).
  exists (out, (w', b')). split; [exact Hrun|]. exact Hp.
Qed.

(** X12. What [run_attack_phase] returns.  Without targets it returns
    [True] after one log line and assigns nothing to
    [last_attack_result].  With targets it stores the last result of
    [attack_next_target] (or ["stopped"]) there, logs the number of
    battles completed, and returns [False] exactly when that result is
    ["no_tokens"] or ["stopped"].  In loop mode the result stored is one
    of the five words that end the loop, and it is never ["stopped"] when
    the sequence was built without a stop check. *)
Theorem run_attack_phase_verdict (single_attack : bool) (st : State) :
  ∃ r,
    (∀ fuel, (targets_left st.2 < fuel)%nat →
       run_attack_phase stop_check fuel single_attack st = (Some r.1, r.2))
    ∧ (sorted_targets st.2 = [] →
       r.1 = (true, None) ∧ r.2.2 = st.2
       ∧ events r.2.1 = events st.1 ++ [EvLog LogNoOpponentsToAttack])
    ∧ (sorted_targets st.2 ≠ [] →
       ∃ result pre,
         r.1.2 = Some result
         ∧ (r.1.1 = false ↔
            result = "no_tokens"%string ∨ result = "stopped"%string)
         ∧ events r.2.1
           = pre ++ [EvLog (LogPhaseDone (battles_completed r.2.2))]
         ∧ (single_attack = false →
            result ∈ last_words
            ∧ (stop_check = None → result ≠ "stopped"%string))).
Proof.
  destruct st as [w b].
  destruct (run_attack_phase_spec single_attack w b)
    as (out & w' & b' & Hrun & _ & Hout).
  exists (out, (w', b')). split; [exact Hrun|]. cbn [fst snd].
  destruct (sorted_targets b) as [|o l]; split; try done.
  intros _. destruct Hout as (result & pre & -> & He & Hl).
  exists result, pre. cbn [fst snd]. split_and!; [done| |done|].
  - rewrite negb_false_iff, orb_true_iff, !String.eqb_eq. done.
  - intros Hs. destruct (Hl Hs) as (? & ? & _). done.
Qed.

(** X13. When the loop of [run_attack_phase] ends on ["no_more"], the
    cursor is past the last target, and [check_needs_refresh] called next
    answers [False] without looking at the screen. *)
Theorem check_needs_refresh_after_no_more (st : State) :
  ∃ r,
    (∀ fuel, (targets_left st.2 < fuel)%nat →
       run_attack_phase stop_check fuel false st = (Some r.1, r.2))
    ∧ (r.1.2 = Some "no_more"%string →
       (length (sorted_targets r.2.2) ≤ current_target_index r.2.2)%nat
       ∧ check_needs_refresh r.2 = (false, r.2)).
Proof.
  destruct st as [w b].
  destruct (run_attack_phase_spec false w b)
    as (out & w' & b' & Hrun & _ & Hout).
  exists (out, (w', b')). split; [exact Hrun|]. cbn [fst snd].
  destruct (sorted_targets b) as [|o l].
  { destruct Hout as (-> & _). done. }
  destruct Hout as (result & pre & -> & _ & Hl). cbn [fst snd].
  intros [= ->]. destruct (Hl eq_refl) as (_ & _ & Hlen).
  specialize (Hlen eq_refl). split; [done|].
  unfold check_needs_refresh, bind at 1. cbn [Self.get].
  by rewrite (lookup_ge_None_2 _ _ Hlen).
Qed.

End AttackPhaseRuns.

(** One target, won; the next pass finds no target left. *)
Lemma check_needs_refresh_after_no_more_witness :
  ∃ r,
    @BattleSequence.run_attack_phase gray_cv2 None 2 false
      (winning, one_target) = (Some r.1, r.2)
    ∧ r.1.2 = Some "no_more"%string
    ∧ BattleSequence.check_needs_refresh r.2 = (false, r.2).
Proof.
  destruct (@check_needs_refresh_after_no_more gray_cv2 None
              (winning, one_target)) as ([[v res] st'] & Hrun & Hc).
  cbn [fst snd] in Hrun, Hc.
  assert (Hr : @BattleSequence.run_attack_phase gray_cv2 None 2 false
                 (winning, one_target) = (Some (v, res), st'))
    by (apply Hrun; vm_compute; lia).
  exists ((v, res), st'). cbn [fst snd].
  split; [exact Hr|].
  assert (Hw : res = Some "no_more"%string).
  { vm_compute in Hr. injection Hr as _ Hres _. by rewrite <- Hres. }
  split; [exact Hw|]. exact (proj2 (Hc Hw)).
Defined.

(** ** Refreshing the list *)

(** X14. [click_refresh_list] never pays for a refresh that is on offer
    for free: when its first search finds the Free Refresh button it
    clicks it and searches no further.  It looks for the Pay Refresh
    button only after that search has failed, returns [False] when
    neither button is found, and changes no field of the battle
    sequence. *)
Theorem click_refresh_list_free_first (st : BattleSequence.State) :
  let w := st.1 in
  let '(left_, top_, _, _) := window_info w in
  let r := BattleSequence.click_refresh_list st in
  r.2.2 = st.2
  ∧ match templates w (searches w) Config.TEMPLATE_FREE_REFRESH 0.8 with
    | Some ((x, y), _) =>
        r.1 = true ∧ searches r.2.1 = S (searches w)
        ∧ events r.2.1
          = events w ++ [EvClick (left_ + x) (top_ + y); EvLog LogRefreshFree]
    | None =>
        searches r.2.1 = S (S (searches w))
        ∧ match templates w (S (searches w)) Config.TEMPLATE_PAY_REFRESH 0.8
          with
          | Some ((x, y), _) =>
              r.1 = true
              ∧ events r.2.1
                = events w ++ [EvClick (left_ + x) (top_ + y);
                               EvLog LogRefreshPaid]
          | None =>
              r.1 = false
              ∧ events r.2.1 = events w ++ [EvLog LogNoRefreshButton]
          end
    end.
Proof.
  destruct st as [w b]. cbn [fst snd].
  destruct (window_info w) as [[[l t] wd] h] eqn:Ew.
  unfold BattleSequence.click_refresh_list, bind, ret, Self.world, Self.log,
    TemplateMatcher.find_and_click.
  cbn.
  destruct (templates w (searches w) Config.TEMPLATE_FREE_REFRESH 0.8)
    as [[[x y] ?]|]; cbn; rewrite ?Ew; cbn.
  { by rewrite <- app_assoc. }
  destruct (templates w (S (searches w)) Config.TEMPLATE_PAY_REFRESH 0.8)
    as [[[x y] ?]|]; cbn; rewrite ?Ew; cbn; [|done].
  by rewrite <- app_assoc.
Qed.

(** ** Rows outside the frame *)

(** X15. A row whose vertical position lies 80 pixels or more below the
    bottom edge of the frame is always taken as available: the region
    sampled for it is empty, whatever the pixels of the frame are. *)
Theorem check_battle_available_below_frame `{Cv2}
    (frame : Frame) (y_position : Z) (st : OpponentScanner.State) :
  Z.of_N (rows frame) + 80 ≤ y_position →
  OpponentScanner.size (OpponentScanner.sample_region frame y_position) = 0
  ∧ OpponentScanner.check_battle_available frame y_position st
    = (true, (Env.emit (EvLog LogEmptySample) st.1, st.2)).
Proof.
  intros Hy.
  assert (Hsize :
    OpponentScanner.size (OpponentScanner.sample_region frame y_position) = 0).
  { unfold OpponentScanner.size, OpponentScanner.sample_region,
      OpponentScanner.crop. cbn [rows cols].
    unfold Py.slice_len, Py.slice_index.
    set (h := Z.of_N (rows frame)) in *.
    assert (0 ≤ h) by (subst h; lia).
    replace (Z.max 0 (y_position - 80) <? 0) with false by lia.
    replace (Z.min h (y_position + 20) <? 0) with false by lia.
    replace (Z.to_N _) with 0%N at 1 by lia. lia. }
  split; [done|]. destruct st as [w s].
  unfold OpponentScanner.check_battle_available. by rewrite Hsize.
Qed.

(** A row at y = 800 of a frame 703 pixels high, all of them orange. *)
Lemma check_battle_available_below_frame_witness :
  (@OpponentScanner.check_battle_available
     {| cvtColor_BGR2HSV := λ _, (20, 200, 200) |}
     {| rows := 703; cols := 1734; pixel := λ _ _, (0, 128, 255) |} 800
     (idle_world, OpponentScanner.init)).1 = true.
Proof.
  rewrite (proj2 (@check_battle_available_below_frame
     {| cvtColor_BGR2HSV := λ _, (20, 200, 200) |}
     {| rows := 703; cols := 1734; pixel := λ _ _, (0, 128, 255) |} 800
     (idle_world, OpponentScanner.init) ltac:(by vm_compute))).
  reflexivity.
Defined.

(** ** The registry *)

Section Registry.
Import OpponentScanner.

(** X16. [add_opponents_with_dedup] returns the number of readings by
    which the registry has grown; the readings already registered stay in
    place and the new ones come after them.  Every power of the batch is
    known afterwards.  [max_scroll_reached] becomes the tracked scroll
    index when at least one reading was added and is left alone
    otherwise. *)
Theorem add_opponents_with_dedup_count
    (new_opponents : list Opponent) (st : State) :
  let r := add_opponents_with_dedup new_opponents st in
  (∃ added, opponents r.2.2 = opponents st.2 ++ added
            ∧ r.1 = Z.of_nat (length added))
  ∧ known_powers r.2.2
    = known_powers st.2 ∪ list_to_set (power <$> new_opponents)
  ∧ max_scroll_reached r.2.2
    = (if 0 <? r.1 then scroll_count st.2 else max_scroll_reached st.2)
  ∧ scroll_count r.2.2 = scroll_count st.2.
Proof.
  destruct st as [w s]. intros r.
  assert (Hr : r = add_opponents_with_dedup new_opponents (w, s)) by done.
  clearbody r. cbn [snd].
  unfold add_opponents_with_dedup, bind at 1 in Hr. cbn [Self.get] in Hr.
  destruct (fold_left dedup_step new_opponents (s, [])) as [s1 np] eqn:Ef.
  apply dedup_fold_spec in Ef
    as (ext & E1 & E2 & E3 & E4 & E5 & E6 & E7 & E8 & E9).
  cbn in E2. subst np. rewrite length_fmap in Hr.
  assert (Hk : known_powers s1
               = known_powers s ∪ list_to_set (power <$> new_opponents)).
  { apply set_eq. intros p. rewrite E3, !elem_of_union, !elem_of_list_to_set.
    split.
    - intros [?|(o & -> & Ho)%list_elem_of_fmap]; [by left|].
      right. apply list_elem_of_fmap. exists o. split; [done|]. by apply E7.
    - intros [?|(o & -> & Ho)%list_elem_of_fmap]; [by left|].
      apply E8 in Ho. rewrite E3 in Ho.
      by rewrite elem_of_union, elem_of_list_to_set in Ho. }
  unfold bind, ret, Self.modify, Self.log, Self.world in Hr. cbn in Hr.
  destruct (0 <? Z.of_nat (length ext)) eqn:Hpos; subst r; cbn;
    rewrite Hpos; (split; [by exists ext|]); by split_and!.
Qed.

(** X17. [get_opponents_sorted_by_power] returns the readings of the
    registry, each as often as it is registered, in ascending order of
    power (descending when [weakest_first] is false), readings of equal
    power in the order of registration; it changes nothing.  When every
    reading is available and no power ceiling is given, [prepare_targets]
    schedules the registry in exactly this order. *)
Theorem get_opponents_sorted_by_power_order (weakest_first : bool)
    (st : State) :
  let r := get_opponents_sorted_by_power weakest_first st in
  r.2 = st
  ∧ r.1 ≡ₚ opponents st.2
  ∧ StronglySorted (in_order power (negb weakest_first)) r.1
  ∧ (∀ p, List.filter (λ o, power o =? p) r.1
          = List.filter (λ o, power o =? p) (opponents st.2))
  ∧ (Forall (λ o, available o = true) (opponents st.2) →
     ∀ bst, (BattleSequence.prepare_targets (opponents st.2) weakest_first
               None bst).1 = r.1).
Proof.
  destruct st as [w s]. cbn.
  split_and!; [done|apply sorted_perm|apply sorted_sorted|
               intros p; apply sorted_stable|].
  intros Hav [w' b].
  destruct (prepare_targets_run (opponents s) weakest_first None w' b)
    as (w1 & -> & _).
  cbn. unfold scheduled. f_equal. apply filter_all.
  eapply Forall_impl; [exact Hav|]. intros o Ho. unfold kept.
  by rewrite Ho.
Qed.

End Registry.

(** ** The size of a scan *)

Section ScanBounds.
Context `{Cv2}.
Import OpponentScanner.

(** The loop of [run_full_scan] never takes the tracked index out of
    0..6, and captures at most two frames for every step the index is
    below the ceiling. *)
Lemma scan_loop_bounds fuel : ∀ l w s st',
  0 ≤ scroll_count s →
  scan_loop fuel l (w, s) = Some st' →
  0 ≤ scroll_count st'.2 ≤ Z.max Config.ARENA_MAX_SCROLL_ATTEMPTS (scroll_count s)
  ∧ Z.of_nat (captures w) ≤ Z.of_nat (captures st'.1)
    ≤ Z.of_nat (captures w)
      + 2 * Z.max 0 (Config.ARENA_MAX_SCROLL_ATTEMPTS - scroll_count s).
Proof.
  unfold Config.ARENA_MAX_SCROLL_ATTEMPTS.
  induction fuel as [|fuel IH]; intros l w s st' Hs Hloop;
    cbn [scan_loop snd] in Hloop;
    unfold Config.ARENA_MAX_SCROLL_ATTEMPTS in Hloop;
    destruct (Z.ltb_spec (scroll_count s) 6) as [Hlt|Hge]; try done;
    try (injection Hloop as <-; cbn [fst snd]; lia).
  destruct (scan_iteration_spec l w s) as (flow & w1 & s1 & E & _ & _ & Hcase).
  rewrite E in Hloop. cbn zeta in Hcase.
  destruct Hcase as [(_ & C1 & S1 & n & ->)
    |[(_ & _ & C1 & S1 & -> & _)
    |[(_ & _ & C1 & S1 & ->)
    |[(_ & _ & _ & C1 & S1 & -> & _)
    |(_ & _ & _ & C1 & S1 & ->)]]]].
  all: try (injection Hloop as <-; cbn [fst snd]; lia).
  all: apply IH in Hloop; [|lia]; lia.
Qed.

(** Below the ceiling the loop is entered: one frame at least is
    captured. *)
Lemma scan_loop_enters fuel l w s st' :
  0 ≤ scroll_count s < Config.ARENA_MAX_SCROLL_ATTEMPTS →
  scan_loop fuel l (w, s) = Some st' →
  (captures w + 1 ≤ captures st'.1)%nat.
Proof.
  intros Hs Hloop. destruct fuel as [|fuel]; cbn [scan_loop snd] in Hloop;
    destruct (Z.ltb_spec (scroll_count s) Config.ARENA_MAX_SCROLL_ATTEMPTS);
    try done; try lia.
  destruct (scan_iteration_spec l w s) as (flow & w1 & s1 & E & _ & _ & Hcase).
  rewrite E in Hloop. cbn zeta in Hcase.
  assert (Hc1 : (captures w + 1 ≤ captures w1)%nat).
  { destruct Hcase as [(_ & ? & _)|[(_ & _ & ? & _)|[(_ & _ & ? & _)
      |[(_ & _ & _ & ? & _)|(_ & _ & _ & ? & _)]]]]; lia. }
  assert (Hs1 : 0 ≤ scroll_count s1).
  { destruct Hcase as [(_ & _ & ? & _)|[(_ & _ & _ & ? & _)|[(_ & _ & _ & ? & _)
      |[(_ & _ & _ & _ & ? & _)|(_ & _ & _ & _ & ? & _)]]]]; lia. }
  destruct flow as [l'|]; [|injection Hloop as <-; cbn; lia].
  apply scan_loop_bounds in Hloop; [|done]. cbn [fst] in Hloop. lia.
Qed.

(** X18. A full scan looks at no fewer than 2 and no more than 13
    frames, whatever the screen shows: one for the list as it opens and
    at most two for each of the six scroll steps.  The list it returns
    is the registry it leaves, and the depth it records in
    [max_scroll_reached] lies between 0 and the ceiling of 6. *)
Theorem run_full_scan_bounds (st : State) :
  ∃ r,
    (∀ fuel, (Z.to_nat Config.ARENA_MAX_SCROLL_ATTEMPTS ≤ fuel)%nat →
             run_full_scan fuel st = Some r)
    ∧ (captures st.1 + 2 ≤ captures r.2.1 ≤ captures st.1 + 13)%nat
    ∧ r.1 = opponents r.2.2
    ∧ 0 ≤ max_scroll_reached r.2.2 ≤ Config.ARENA_MAX_SCROLL_ATTEMPTS.
Proof.
  destruct st as [w s].
  destruct (run_full_scan_spec w s)
    as (w1 & s1 & w2 & s2 & w3 & s3 & n & a & _ & C1 & S1 & El & _ & _ & Hr
        & C3 & _ & O3 & _ & _ & M3).
  assert (H0 : 0 ≤ scroll_count s1) by lia.
  pose proof (scan_loop_bounds _ _ _ _ _ H0 El) as [Hs Hc].
  cbn [fst snd] in Hs, Hc. rewrite S1 in Hs, Hc.
  unfold Config.ARENA_MAX_SCROLL_ATTEMPTS in *.
  assert (H1 : 0 ≤ scroll_count s1 < 6) by lia.
  pose proof (scan_loop_enters _ _ _ _ _ H1 El) as Hmin. cbn [fst] in Hmin.
  eexists. split; [exact Hr|]. cbn [fst snd].
  rewrite C3, M3, O3. split_and!; [lia|lia|done|lia|lia].
Qed.

End ScanBounds.

(** ** A screen on which nothing is read *)

Section BlindScan.
Context `{Cv2}.
Import OpponentScanner.

Lemma scan_visible_opponents_empty bottom w s :
  band_powers w (captures w) = [] →
  ∃ w', scan_visible_opponents bottom (w, s) = ([], (w', s))
        ∧ same_feed w w' ∧ captures w' = S (captures w).
Proof.
  intros Hb.
  destruct (scan_visible_opponents_spec bottom w s)
    as (vis & w' & E & F & C & P & _).
  rewrite Hb in P. apply fmap_nil_inv in P. subst vis. by exists w'.
Qed.

Lemma scan_iteration_empty l w s :
  band_powers w (captures w) = [] →
  ∃ l' w',
    scan_iteration l (w, s)
    = (Continue l', (w', set_scroll_count (scroll_count s + 1) s))
    ∧ same_feed w w' ∧ captures w' = S (captures w).
Proof.
  intros Hb. unfold scan_iteration. unfold bind at 1.
  destruct (scroll_list_spec down w s) as (w1 & -> & F1 & C1 & E1).
  cbn [stepped]. unfold bind at 1.
  destruct (scan_visible_opponents_empty true w1
              (set_scroll_count (scroll_count s + 1) s))
    as (w2 & -> & F2 & C2).
  { by rewrite C1, (band_powers_same_feed _ _ _ F1). }
  unfold bind at 1. cbn [Self.log Self.world].
  destruct (2 <=? _); eexists _, _; (split; [reflexivity|]);
    (split; [etrans; [exact F1|]; etrans; [exact F2|]; by unfold same_feed
            |cbn; congruence]).
Qed.

Lemma scan_loop_empty (k : nat) : ∀ l w s,
  (∀ j, band_powers w j = []) →
  scroll_count s = Config.ARENA_MAX_SCROLL_ATTEMPTS - Z.of_nat k →
  ∃ w',
    scan_loop k l (w, s)
    = Some (w', set_scroll_count Config.ARENA_MAX_SCROLL_ATTEMPTS s)
    ∧ same_feed w w' ∧ captures w' = (captures w + k)%nat.
Proof.
  induction k as [|k IH]; intros l w s Hb Hs.
  - exists w. cbn [scan_loop snd].
    destruct (Z.ltb_spec (scroll_count s) Config.ARENA_MAX_SCROLL_ATTEMPTS);
      [lia|].
    split; [|split; [done|lia]].
    replace Config.ARENA_MAX_SCROLL_ATTEMPTS with (scroll_count s) by lia.
    by destruct s.
  - cbn [scan_loop snd].
    destruct (Z.ltb_spec (scroll_count s) Config.ARENA_MAX_SCROLL_ATTEMPTS);
      [|lia].
    destruct (scan_iteration_empty l w s (Hb _)) as (l' & w1 & -> & F1 & C1).
    destruct (IH l' w1 (set_scroll_count (scroll_count s + 1) s))
      as (w2 & -> & F2 & C2).
    { intros j. by rewrite (band_powers_same_feed _ _ _ F1). }
    { cbn. lia. }
    exists w2. split; [done|]. split; [by etrans|lia].
Qed.

(** X19. A scan of a window on which no power is ever read is not cut
    short: it makes all six scroll steps, looking at seven frames, drags
    the list back up and returns an empty registry, with
    [max_scroll_reached] at the ceiling. *)
Theorem run_full_scan_reads_nothing (st : State) :
  (∀ k, band_powers st.1 k = []) →
  ∃ r,
    (∀ fuel, (Z.to_nat Config.ARENA_MAX_SCROLL_ATTEMPTS ≤ fuel)%nat →
             run_full_scan fuel st = Some r)
    ∧ r.1 = [] ∧ opponents r.2.2 = [] ∧ known_powers r.2.2 = ∅
    ∧ captures r.2.1 = (captures st.1 + 7)%nat
    ∧ max_scroll_reached r.2.2 = Config.ARENA_MAX_SCROLL_ATTEMPTS
    ∧ scroll_count r.2.2 = 0.
Proof.
  destruct st as [w s]. cbn [fst]. intros Hb.
  (* the scan of the list as it opens *)
  assert (Htop : ∃ w1 s1,
    scan_top (w, s) = (tt, (w1, s1)) ∧ same_feed w w1
    ∧ captures w1 = S (captures w) ∧ opponents s1 = []
    ∧ known_powers s1 = ∅ ∧ scroll_count s1 = 0).
  { unfold scan_top. unfold bind at 1 2.
    cbn [Self.log Self.world reset Self.modify]. unfold bind at 1.
    match goal with |- context [scan_visible_opponents false (?x, ?y)] =>
      destruct (scan_visible_opponents_empty false x y (Hb _))
        as (w1 & -> & F1 & C1) end.
    eexists _, _. cbn. split; [reflexivity|]. cbn.
    by split_and!. }
  destruct Htop as (w1 & s1 & Et & F1 & C1 & O1 & K1 & S1).
  destruct (scan_loop_empty 6
              {| last_bottom_powers := ∅; consecutive_empty_scans := 0 |}
              w1 s1) as (w2 & El & F2 & C2).
  { intros j. by rewrite (band_powers_same_feed _ _ _ F1). }
  { rewrite S1. done. }
  destruct (scan_finish_spec w2
              (set_scroll_count Config.ARENA_MAX_SCROLL_ATTEMPTS s1))
    as (w3 & s3 & n & a & Ef & F3 & C3 & E3 & O3 & K3 & S3 & M3).
  cbn [opponents known_powers scroll_count set_scroll_count] in Ef, O3, K3, M3.
  eexists. split.
  { intros fuel Hfuel. unfold run_full_scan. rewrite Et.
    rewrite (scan_loop_mono _ _ _ _ _ Hfuel El). by rewrite Ef. }
  cbn [fst snd]. rewrite O3, K3, M3, C3, C2, C1.
  split_and!; try done; lia.
Qed.

End BlindScan.

(** The empty window. *)
Lemma run_full_scan_reads_nothing_witness :
  ∃ r, @OpponentScanner.run_full_scan gray_cv2 6
         (idle_world, OpponentScanner.init) = Some r
       ∧ captures r.2.1 = 7%nat.
Proof.
  destruct (@run_full_scan_reads_nothing gray_cv2
              (idle_world, OpponentScanner.init))
    as (r & Hr & _ & _ & _ & Hc & _); [by intros k; vm_compute|].
  exists r. split; [apply Hr; by vm_compute|exact Hc].
Defined.

(** ** Looking for a target on the screen *)

Lemma existsb_find {A} (f : A → bool) (l : list A) :
  existsb f l = true ↔ is_Some (List.find f l).
Proof.
  induction l as [|x l IH]; cbn.
  - split; [done|]. by intros [? ?].
  - destruct (f x); cbn; [|done]. split; [by eexists|done].
Qed.

(** X20. The three ways of looking for a power on the screen agree: on
    one and the same frame, [verify_opponent_at_position] answers [True]
    exactly when [find_opponent_y_position] returns a position, and
    exactly when the power is among those [get_current_visible_powers]
    returns.  The position returned is that of the first reading of the
    power, moved down by the top of the region that is read.  The first
    two leave the same state, with one more frame captured and the
    fields of the scanner as they were. *)
Theorem verify_and_find_agree (target_power : Z)
    (st : OpponentScanner.State) :
  let v := OpponentScanner.verify_opponent_at_position target_power st in
  let f := OpponentScanner.find_opponent_y_position target_power st in
  let g := OpponentScanner.get_current_visible_powers st in
  let obs := screen st.1 (captures st.1) in
  let readings :=
    TextRecognizer.find_all_team_powers (obs_tokens obs) (obs_text obs) in
  (v.1 = true ↔ is_Some f.1)
  ∧ (v.1 = true ↔ target_power ∈ g.1)
  ∧ f.1 = (p ← List.find (λ p, tp_power p =? target_power) readings;
           Some (tp_y_position p
                 + (OpponentScanner.get_ocr_region (obs_frame obs) false).1.1.2))
  ∧ v.2 = f.2 ∧ v.2.2 = st.2 ∧ g.2.2 = st.2
  ∧ captures v.2.1 = S (captures st.1).
Proof.
  destruct st as [w s].
  unfold OpponentScanner.verify_opponent_at_position,
    OpponentScanner.find_opponent_y_position,
    OpponentScanner.get_current_visible_powers,
    OpponentScanner.read_screen, bind, ret, Self.sleep, Self.world.
  cbn.
  split_and!; try done.
  - rewrite existsb_find. by destruct (List.find _ _).
  - rewrite existsb_power, bool_decide_eq_true, elem_of_list_to_set. done.
Qed.

(** ** Clicking the Battle button of a row *)

Section BattleButton.
Context `{Cv2}.
Import BattleSequence.

(** X21. [click_battle_button], given the stored position of a row,
    clicks only when the row is seen as available on the frame it
    captures: the click lands 50 pixels above the stored position, at
    90% of the width of the frame, and is the last thing done.  When the
    row is not seen as available nothing is clicked: log lines are all
    that is added.  In both cases one frame is captured and no field of
    the battle sequence changes. *)
Theorem click_battle_button_outcome (target_power y_pos : Z) (st : State) :
  let r := click_battle_button target_power (Some y_pos) st in
  let '(left_, top_, _, _) := window_info st.1 in
  let frame := obs_frame (screen st.1 (captures st.1)) in
  let button_x :=
    left_ + Py.int_mul (Z.of_N (cols frame)) Config.ARENA_BATTLE_BUTTON_X in
  let button_y := top_ + y_pos + -50 in
  r.2.2 = st.2
  ∧ captures r.2.1 = S (captures st.1)
  ∧ r.1 = (OpponentScanner.check_battle_available frame y_pos
             (st.1, scanner st.2)).1
  ∧ if r.1 then
      ∃ pre, events r.2.1
             = pre ++ [EvLog (LogClickingBattle button_x button_y y_pos);
                       EvClick button_x button_y]
    else
      ∃ lines, events r.2.1 = events st.1 ++ (EvLog <$> lines).
Proof.
  destruct st as [w b]. intros r.
  assert (Hr : r = click_battle_button target_power (Some y_pos) (w, b))
    by done.
  clearbody r. cbn [fst snd].
  destruct (window_info w) as [[[l t] wd] h] eqn:Ew.
  unfold click_battle_button in Hr.
  unfold bind at 1 in Hr. unfold ret at 1 in Hr.
  unfold bind at 1 in Hr.
  unfold on_scanner at 1, OpponentScanner.get_window_dimensions,
    Self.world at 1 in Hr.
  rewrite Ew in Hr. cbn [fst snd] in Hr.
  unfold bind at 1 in Hr. cbn [Self.world Env.capture] in Hr.
  unfold bind at 1 in Hr. unfold on_scanner at 1 in Hr.
  cbn [scanner set_scanner] in Hr.
  set (frame := obs_frame (screen w (captures w))) in *.
  match type of Hr with
  | context [OpponentScanner.check_battle_available frame y_pos (?x, ?s)] =>
      destruct (check_battle_available_spec frame y_pos x s)
        as (a & w1 & Ea & F1 & C1 & lines & E1);
      assert (Ea' : (OpponentScanner.check_battle_available frame y_pos
                       (w, s)).1 = a)
  end.
  { revert Ea. unfold OpponentScanner.check_battle_available.
    destruct (_ =? 0); by intros [= <- _]. }
  rewrite Ea in Hr. rewrite Ea'.
  assert (Hb : set_scanner (scanner b) b = b) by (by destruct b).
  rewrite Hb in Hr.
  cbn in C1, E1.
  destruct a; cbn [negb] in Hr.
  - unfold bind, ret, Self.log, Self.sleep, Self.act, Self.world in Hr.
    cbn in Hr. subst r. cbn.
    destruct F1 as (W1 & _). cbn in W1.
    split_and!; [done|done|done|].
    eexists. rewrite <- app_assoc. cbn. reflexivity.
  - unfold bind, ret, Self.log, Self.world in Hr. cbn in Hr. subst r. cbn.
    split_and!; [done|done|done|].
    exists (lines ++ [LogAlreadyDefeated]).
    rewrite E1, fmap_app, <- app_assoc. done.
Qed.

End BattleButton.
